(** * Formula calculator of the dice-roller backend

    A shallow embedding of [formula-calculator.js] (class [FormulaCalculator])
    and of the parts of [actions.js] it imports ([RANK_BONUSES],
    [getRankLevel], the action catalog), followed by the properties of the
    evaluation that the specification states.

    Conventions of the embedding.

    - A JavaScript number is a value of [num]: an exact rational, one of the
      two infinities, or NaN.  Rounding to binary64, overflow and the sign of
      zero are not represented; every die face, dice count and bonus of the
      catalog is an integer far below 2^53, where binary64 is exact.  A
      property that depends on a sum or a quotient being exact, or on the
      absence of overflow, carries the bound as a hypothesis ([MAX_EXACT],
      [BONUS_LIMIT]).
    - A value that may be [undefined] (a missing property) is an [option].
    - [Math.random] is a sequence [random : nat -> Q]; the state threaded
      through the code is the number of draws made so far.
    - [Number.prototype.toString] belongs to the runtime and is a parameter
      ([numberToString]).
    - The catalog is typed as it is written: a rank is one of the six
      letters, dice counts, sides, keep counts and explosion thresholds are
      integers, the other numeric properties are finite rationals, a
      conversion rate is a positive integer.
    - Record fields carry a prefix ([dc_] dice configuration, [dg_] dice
      group, [be_] bonus entry, [mr_] modifier result, [me_] modifier entry)
      where the source reuses a property name. *)

From Stdlib Require Import ZArith QArith Qround Bool List String Ascii Lia.
From Stdlib Require Import DecimalString Permutation Sorted.
Import ListNotations.

Local Open Scope Z_scope.

(** ** JavaScript numbers *)

Module JS.

Inductive num : Type :=
| Fin (q : Q)
| PosInf
| NegInf
| NaN.

Definition of_Z (z : Z) : num := Fin (inject_Z z).

(** [undefined] converts to NaN in arithmetic. *)
Definition toNumber (v : option num) : num :=
  match v with
  | Some n => n
  | None => NaN
  end.

Definition add (a b : num) : num :=
  match a, b with
  | NaN, _ | _, NaN => NaN
  | PosInf, NegInf | NegInf, PosInf => NaN
  | PosInf, _ | _, PosInf => PosInf
  | NegInf, _ | _, NegInf => NegInf
  | Fin x, Fin y => Fin (x + y)
  end.

Definition neg (a : num) : num :=
  match a with
  | Fin x => Fin (- x)
  | PosInf => NegInf
  | NegInf => PosInf
  | NaN => NaN
  end.

Definition sub (a b : num) : num := add a (neg b).

Definition signed_inf (c : comparison) : num :=
  match c with
  | Gt => PosInf
  | Lt => NegInf
  | Eq => NaN
  end.

Definition mul (a b : num) : num :=
  match a, b with
  | NaN, _ | _, NaN => NaN
  | Fin x, Fin y => Fin (x * y)
  | Fin x, PosInf | PosInf, Fin x => signed_inf (x ?= 0)%Q
  | Fin x, NegInf | NegInf, Fin x => signed_inf (0 ?= x)%Q
  | PosInf, PosInf | NegInf, NegInf => PosInf
  | PosInf, NegInf | NegInf, PosInf => NegInf
  end.

(** Division; a zero divisor is the positive zero. *)
Definition div (a b : num) : num :=
  match a, b with
  | NaN, _ | _, NaN => NaN
  | Fin x, Fin y =>
      if Qeq_bool y 0 then signed_inf (x ?= 0)%Q else Fin (x / y)
  | Fin _, PosInf | Fin _, NegInf => Fin 0
  | PosInf, Fin y => match (y ?= 0)%Q with Lt => NegInf | _ => PosInf end
  | NegInf, Fin y => match (y ?= 0)%Q with Lt => PosInf | _ => NegInf end
  | _, _ => NaN
  end.

(** [Math.floor] *)
Definition floor (a : num) : num :=
  match a with
  | Fin x => of_Z (Qfloor x)
  | other => other
  end.

(** [Math.max(a, b)] *)
Definition max (a b : num) : num :=
  match a, b with
  | NaN, _ | _, NaN => NaN
  | PosInf, _ | _, PosInf => PosInf
  | NegInf, other | other, NegInf => other
  | Fin x, Fin y => if Qle_bool x y then Fin y else Fin x
  end.

(** [a >= b]; false as soon as one side is NaN. *)
Definition ge (a b : num) : bool :=
  match a, b with
  | NaN, _ | _, NaN => false
  | PosInf, _ => true
  | _, NegInf => true
  | NegInf, _ => false
  | _, PosInf => false
  | Fin x, Fin y => Qle_bool y x
  end.

(** [a > b] *)
Definition gt (a b : num) : bool :=
  match a, b with
  | NaN, _ | _, NaN => false
  | NegInf, _ => false
  | _, PosInf => false
  | PosInf, _ => true
  | _, NegInf => true
  | Fin x, Fin y => negb (Qle_bool x y)
  end.

(** [v !== n] for a number literal [n]. *)
Definition strict_neq (v : option num) (n : Q) : bool :=
  match v with
  | Some (Fin x) => negb (Qeq_bool x n)
  | _ => true
  end.

(** Truthiness of a possibly undefined number: [undefined], [0] and NaN are
    falsy. *)
Definition truthy (v : option num) : bool :=
  match v with
  | Some (Fin x) => negb (Qeq_bool x 0)
  | Some NaN => false
  | Some _ => true
  | None => false
  end.

(** [v || d] where [d] is a number. *)
Definition or_default (v : option num) (d : num) : num :=
  match v with
  | Some n => if truthy v then n else d
  | None => d
  end.

(** A finite number with an integral value at least 1. *)
Definition is_positive_integer (a : num) : Prop :=
  exists z : Z, a = of_Z z /\ 1 <= z.

(** [Array.prototype.sort(cmp)] on numbers: the sort is stable, [cmp a b > 0]
    puts [b] first.  Insertion from the right keeps an element ahead of the
    later elements it ties with. *)
Fixpoint insert_by (cmp : Z -> Z -> Z) (x : Z) (l : list Z) : list Z :=
  match l with
  | [] => [x]
  | y :: l' => if cmp x y <=? 0 then x :: l else y :: insert_by cmp x l'
  end.

Fixpoint sort (cmp : Z -> Z -> Z) (l : list Z) : list Z :=
  match l with
  | [] => []
  | x :: l' => insert_by cmp x (sort cmp l')
  end.

(** [Array.prototype.slice(0, e)] *)
Definition slice0 {A : Type} (e : Z) (l : list A) : list A :=
  let len := Z.of_nat (List.length l) in
  let k := if e <? 0 then Z.max (len + e) 0 else Z.min e len in
  firstn (Z.to_nat k) l.

(** [Array.prototype.join(sep)] *)
Fixpoint join (sep : string) (l : list string) : string :=
  match l with
  | [] => EmptyString
  | [s] => s
  | s :: rest => (s ++ sep ++ join sep rest)%string
  end.

(** [reduce((sum, roll) => sum + roll, 0)] *)
Definition sum (l : list Z) : Z := fold_left Z.add l 0.

End JS.

(** ** Ranks and the shape of an action definition ([actions.js]) *)

Inductive Rank : Type := rE | rD | rC | rB | rA | rS.

Definition rank_eqb (r1 r2 : Rank) : bool :=
  match r1, r2 with
  | rE, rE | rD, rD | rC, rC | rB, rB | rA, rA | rS, rS => true
  | _, _ => false
  end.

(** The property name of a rank, as it appears in template strings. *)
Definition rank_name (r : Rank) : string :=
  match r with
  | rE => "E" | rD => "D" | rC => "C" | rB => "B" | rA => "A" | rS => "S"
  end.

(** An object literal keyed by rank letters; a missing key reads as
    [undefined]. *)
Definition RankMap (V : Type) : Type := Rank -> option V.

Definition rankObject {V : Type} (entries : list (Rank * V)) : RankMap V :=
  fun r => option_map snd (find (fun kv => rank_eqb (fst kv) r) entries).

(** [table[rank] || table.E]: the E entry is taken when the entry of [rank]
    is falsy, that is missing or zero. *)
Definition lookup_or_E {V : Type} (is_zero : V -> bool) (table : RankMap V)
    (rank : Rank) : option V :=
  match table rank with
  | Some v => if is_zero v then table rE else Some v
  | None => table rE
  end.

Definition Z_is_zero (z : Z) : bool := z =? 0.
Definition Q_is_zero (q : Q) : bool := Qeq_bool q 0.

(** Truthiness of an optional integer property such as [keepHighest]. *)
Definition Z_truthy (v : option Z) : bool :=
  match v with
  | Some z => negb (Z_is_zero z)
  | None => false
  end.

Definition Q_truthy (v : option Q) : bool :=
  match v with
  | Some q => negb (Q_is_zero q)
  | None => false
  end.

(** [count] of a dice group: a number or the name of a count variable. *)
Inductive Count : Type :=
| CountNum (n : Z)
| CountVar (name : string).

Record DiceConfig : Type := {
  dc_count : Count;
  dc_sides : Z;
  dc_keepHighest : option Z;
  dc_keepLowest : option Z;
  dc_baseDiceByRank : option (RankMap Z);
  dc_diceByRank : option (RankMap Z)
}.

(** [{ ...diceConfig, count }] *)
Definition with_count (cfg : DiceConfig) (count : Z) : DiceConfig :=
  {| dc_count := CountNum count;
     dc_sides := dc_sides cfg;
     dc_keepHighest := dc_keepHighest cfg;
     dc_keepLowest := dc_keepLowest cfg;
     dc_baseDiceByRank := dc_baseDiceByRank cfg;
     dc_diceByRank := dc_diceByRank cfg |}.

(** [extraDice] of an explosion, [convertToDice] of a bonus conversion. *)
Record DiceSpec : Type := {
  ds_count : Z;
  ds_sides : Z
}.

(** The modifier objects, by their [type] tag.  A [success_bonus] without
    [successBonusByRank] reads [bonusByRank]; a [conversionRate] is a positive
    integer (a zero rate would make the source loop over infinitely many
    dice).  [Unknown] stands for any tag outside the eight known ones. *)
Inductive Modifier : Type :=
| Multiplier (baseMultiplier : Q)
| ThresholdMultiplier (threshold : Q) (multiplierByRank : option (RankMap Q))
    (multiplier : option Q)
| SuccessBonus (threshold : Q) (successBonusByRank : option (RankMap Q))
    (bonusByRank : RankMap Q) (failureBonus : option Q)
| Explosion (threshold : Z) (chance : option Q) (extraDice : DiceSpec)
| Divisor (divisor : Q)
| AoeDivisor (divisor : Q)
| BonusConversion (conversionRate : positive) (convertToDice : DiceSpec)
| Conditional (condition : string) (value : Q)
| Unknown (tag : string).

(** [modifier.type] *)
Definition modifier_type (m : Modifier) : string :=
  match m with
  | Multiplier _ => "multiplier"
  | ThresholdMultiplier _ _ _ => "threshold_multiplier"
  | SuccessBonus _ _ _ _ => "success_bonus"
  | Explosion _ _ _ => "explosion"
  | Divisor _ => "divisor"
  | AoeDivisor _ => "aoe_divisor"
  | BonusConversion _ _ => "bonus_conversion"
  | Conditional _ _ => "conditional"
  | Unknown tag => tag
  end.

Record CalculableFormula : Type := {
  dice : list DiceConfig;
  bonuses : list string;
  modifiers : option (list Modifier)
}.

(** An entry of [ACTIONS]; the calculator reads [calculableFormula] only. *)
Record Action : Type := {
  category : string;
  name : string;
  rollFormula : string;
  calculableFormula : CalculableFormula
}.

(** [getRankLevel]: [levels[rank] || 0]. *)
Definition levels : RankMap Z :=
  rankObject [(rE, 0); (rD, 1); (rC, 2); (rB, 3); (rA, 4); (rS, 5)].

Definition getRankLevel (rank : Rank) : Z :=
  match levels rank with
  | Some level => if Z_is_zero level then 0 else level
  | None => 0
  end.

(** ** The catalog ([RANK_BONUSES] and the entries of [ACTIONS] used below) *)

Module Actions.

Local Open Scope string_scope.

Definition RANK_BONUSES (rank : Rank) : Q :=
  match rank with
  | rE => 0 | rD => 10 | rC => 20 | rB => 30 | rA => 40 | rS => 50
  end.

(** [{ count, sides }] *)
Definition group (count : Count) (sides : Z) : DiceConfig :=
  {| dc_count := count;
     dc_sides := sides;
     dc_keepHighest := None;
     dc_keepLowest := None;
     dc_baseDiceByRank := None;
     dc_diceByRank := None |}.

(** [{ count, sides, keepHighest }] *)
Definition advantage (count sides keepHighest : Z) : DiceConfig :=
  {| dc_count := CountNum count;
     dc_sides := sides;
     dc_keepHighest := Some keepHighest;
     dc_keepLowest := None;
     dc_baseDiceByRank := None;
     dc_diceByRank := None |}.

Definition d20 : DiceSpec := {| ds_count := 1; ds_sides := 20 |}.
Definition d100 : DiceSpec := {| ds_count := 1; ds_sides := 100 |}.

Definition Attack : Action :=
  {| category := "Basic";
     name := "Attack";
     rollFormula := "1d100 + MR + WR + other bonuses";
     calculableFormula :=
       {| dice := [group (CountNum 1) 100];
          bonuses := ["MR"; "WR"];
          modifiers := Some [] |} |}.

Definition Recover : Action :=
  {| category := "Basic";
     name := "Recover";
     rollFormula := "1d20 with advantage";
     calculableFormula :=
       {| dice := [advantage 2 20 1];
          bonuses := [];
          modifiers := Some [] |} |}.

Definition Ultra_Counter : Action :=
  {| category := "Defense";
     name := "Ultra Counter";
     rollFormula := "1d100 + [30*] + [x] + MR + WR + other bonuses";
     calculableFormula :=
       {| dice := [group (CountNum 1) 100];
          bonuses := ["MR"; "WR"];
          modifiers :=
            Some
              [Conditional "adjacent" 30;
               SuccessBonus 30 None
                 (rankObject
                    [(rD, 30%Q); (rC, 30%Q); (rB, 40%Q); (rA, 40%Q);
                     (rS, 50%Q)])
                 None] |} |}.

Definition Stable_Attack : Action :=
  {| category := "Offense";
     name := "Stable Attack";
     rollFormula :=
       "7d20 + (1d20 per MR) + WR + other bonuses, EXP on 17-20 (20% explosion)";
     calculableFormula :=
       {| dice := [group (CountNum 7) 20; group (CountVar "MR_LEVEL") 20];
          bonuses := ["WR"];
          modifiers := Some [Explosion 17 (Some 0.2%Q) d20] |} |}.

Definition Sneak_Attack : Action :=
  {| category := "Offense";
     name := "Sneak Attack";
     rollFormula := "1d100 + [*] + MR + WR + other bonuses";
     calculableFormula :=
       {| dice := [group (CountNum 1) 100];
          bonuses := ["MR"; "WR"];
          modifiers :=
            Some
              [SuccessBonus 30
                 (Some
                    (rankObject
                       [(rE, 20%Q); (rD, 20%Q); (rC, 25%Q); (rB, 30%Q);
                        (rA, 35%Q); (rS, 40%Q)]))
                 (rankObject []) (Some 10%Q)] |} |}.

Definition Special_Critical_Attack : Action :=
  {| category := "Offense";
     name := "Special Critical Attack";
     rollFormula := "2d100 + (MR) + (WR) + other bonuses";
     calculableFormula :=
       {| dice := [group (CountNum 2) 100];
          bonuses := ["MR"; "WR"];
          modifiers :=
            Some
              [Multiplier 1.2%Q;
               ThresholdMultiplier 85
                 (Some
                    (rankObject
                       [(rE, 1.5%Q); (rD, 1.5%Q); (rC, 1.6%Q); (rB, 1.7%Q);
                        (rA, 1.8%Q); (rS, 2.0%Q)]))
                 None;
               ThresholdMultiplier 100 None (Some 3.0%Q)] |} |}.

Definition Sharp_Attack : Action :=
  {| category := "Offense";
     name := "Sharp Attack";
     rollFormula := "2d100kh1 + MR + WR + other bonuses";
     calculableFormula :=
       {| dice := [advantage 2 100 1];
          bonuses := ["MR"; "WR"];
          modifiers := Some [BonusConversion 40 d100] |} |}.

Definition Heal : Action :=
  {| category := "Support";
     name := "Heal";
     rollFormula := "2d20 + MR + WR + other bonuses then divide by 3 if AoE";
     calculableFormula :=
       {| dice := [group (CountNum 2) 20];
          bonuses := ["MR"; "WR"];
          modifiers := Some [Explosion 17 (Some 0.2%Q) d20; AoeDivisor 3] |} |}.

Definition Buff : Action :=
  {| category := "Support";
     name := "Buff";
     rollFormula := "1d100 + MR + WR + other bonuses then divide by 3";
     calculableFormula :=
       {| dice := [group (CountNum 1) 100];
          bonuses := ["MR"; "WR"];
          modifiers := Some [Divisor 3] |} |}.

End Actions.

(** ** The calculator ([formula-calculator.js]) *)

(** A computation that calls [Math.random]: from the number of draws made so
    far to a result and the new number of draws. *)
Definition Rand (T : Type) : Type := nat -> T * nat.

Definition ret {T : Type} (x : T) : Rand T := fun pos => (x, pos).

Definition bind {T U : Type} (c : Rand T) (k : T -> Rand U) : Rand U :=
  fun pos => let (x, pos') := c pos in k x pos'.

Declare Scope rand_scope.
Delimit Scope rand_scope with rand.
Notation "x <- c ;; k" := (bind c (fun x => k))
  (at level 61, c at next level, right associativity) : rand_scope.

(** What one dice group leaves in [details.diceGroups]. *)
Record DiceGroup : Type := {
  dg_type : string;
  dg_rolls : list Z;
  dg_sum : Z;
  dg_keepHighest : option Z;
  dg_keepLowest : option Z
}.

Record BonusEntry : Type := {
  be_type : string;
  be_rank : option Rank;
  be_value : JS.num;
  be_display : string
}.

(** The object [applyModifier] returns; [mr_explosionRolls] is present in two
    branches only. *)
Record ModifierResult : Type := {
  mr_result : JS.num;
  mr_details : string;
  mr_multiplier : option JS.num;
  mr_value : option JS.num;
  mr_explosionRolls : option (list Z)
}.

Record ModifierEntry : Type := {
  me_type : string;
  me_description : string;
  me_value : JS.num;
  me_multiplier : JS.num;
  me_explosionRolls : list Z
}.

Record Details : Type := {
  diceGroups : list DiceGroup;
  bonusBreakdown : list BonusEntry;
  modifierBreakdown : list ModifierEntry;
  explosionRolls : list Z;
  rawDiceTotal : Z;
  baseTotal : JS.num;
  finalResult : JS.num;
  breakdown : string
}.

Record RollResult : Type := {
  result : JS.num;
  rawDiceResult : Z;
  details : Details
}.

(** The calculator instance; [rollHistory] is its only field and is
    [undefined] until the first evaluation. *)
Record FormulaCalculator : Type := {
  rollHistory : option (list Z)
}.

Definition new_FormulaCalculator : FormulaCalculator :=
  {| rollHistory := None |}.

(** Number of elements of [rolls] with [roll >= threshold]. *)
Definition count_ge (threshold : Z) (rolls : list Z) : nat :=
  List.length (filter (fun roll => threshold <=? roll) rolls).

(** State of the cascade loop of an explosion. *)
Record Cascade : Type := {
  currentExplosions : nat;
  explosionTotal : Z;
  allExplosionRolls : list Z;
  totalTriggers : nat
}.

Section Calculator.

Local Open Scope string_scope.
Local Open Scope Z_scope.
Local Open Scope rand_scope.

(** [Number.prototype.toString] *)
Variable numberToString : JS.num -> string.

(** [RANK_BONUSES], imported from [actions.js]. *)
Variable RANK_BONUSES : Rank -> Q.

(** The outcomes of [Math.random], in call order. *)
Variable random : nat -> Q.

Definition show_Z (z : Z) : string := numberToString (JS.of_Z z).

(** [rollDie]: [Math.floor(Math.random() * sides) + 1] *)
Definition rollDie (sides : Z) : Rand Z :=
  fun pos => (Qfloor (random pos * inject_Z sides) + 1, S pos).

(** [for (let i = 0; i < n; i++) rolls.push(this.rollDie(sides))] *)
Fixpoint rollMany (n : nat) (sides : Z) : Rand (list Z) :=
  match n with
  | O => ret []
  | S n' =>
      roll <- rollDie sides ;;
      rest <- rollMany n' sides ;;
      ret (roll :: rest)
  end.

(** [resolveCountVariable] *)
Definition resolveCountVariable (countVar : string)
    (weaponRank masteryRank : Rank) : Z :=
  if String.eqb countVar "MR_LEVEL" then getRankLevel masteryRank
  else if String.eqb countVar "WR_LEVEL" then getRankLevel weaponRank
  else if String.eqb countVar "BASE_BY_RANK" then 0
  else if String.eqb countVar "DICE_BY_RANK" then 0
  else 0.

Definition descending (a b : Z) : Z := b - a.
Definition ascending (a b : Z) : Z := a - b.

(** [rollDice] *)
Definition rollDice (diceConfig : DiceConfig) : Rand (list Z) :=
  let actualCount :=
    match dc_count diceConfig with
    | CountVar v => resolveCountVariable v rE rE
    | CountNum n => n
    end in
  if actualCount <=? 0 then ret []
  else
    rolls <- rollMany (Z.to_nat actualCount) (dc_sides diceConfig) ;;
    let lowest_or_all :=
      match dc_keepLowest diceConfig with
      | Some keepLowest =>
          if Z_is_zero keepLowest then rolls
          else JS.slice0 keepLowest (JS.sort ascending rolls)
      | None => rolls
      end in
    match dc_keepHighest diceConfig with
    | Some keepHighest =>
        if Z_is_zero keepHighest then ret lowest_or_all
        else ret (JS.slice0 keepHighest (JS.sort descending rolls))
    | None => ret lowest_or_all
    end.

(** The cascade of an explosion:
    [while (currentExplosions > 0 && maxIterations > 0) { ...; maxIterations-- }].
    The recursion is on the loop's own counter; the result carries what is
    left of it. *)
Fixpoint cascade (threshold sides : Z) (maxIterations : nat) (st : Cascade)
    : Rand (nat * Cascade) :=
  match maxIterations with
  | O => ret (O, st)
  | S remaining =>
      if (0 <? currentExplosions st)%nat then
        newRolls <- rollMany (currentExplosions st) sides ;;
        let triggered := count_ge threshold newRolls in
        cascade threshold sides remaining
          {| currentExplosions := triggered;
             explosionTotal := explosionTotal st + JS.sum newRolls;
             allExplosionRolls := (allExplosionRolls st ++ newRolls)%list;
             totalTriggers := (totalTriggers st + triggered)%nat |}
      else ret (maxIterations, st)
  end.

Definition zero : option JS.num := Some (JS.Fin 0).
Definition one : option JS.num := Some (JS.Fin 1).

(** A result object without [explosionRolls]. *)
Definition plain (result : JS.num) (details : string)
    (multiplier value : option JS.num) : ModifierResult :=
  {| mr_result := result;
     mr_details := details;
     mr_multiplier := multiplier;
     mr_value := value;
     mr_explosionRolls := None |}.

(** [applyModifier] *)
Definition applyModifier (modifier : Modifier) (currentResult : JS.num)
    (allRolls : list Z) (weaponRank masteryRank : Rank) (otherBonuses : Z)
    : Rand ModifierResult :=
  match modifier with
  | Multiplier baseMultiplier =>
      ret (plain (JS.mul currentResult (JS.Fin baseMultiplier))
             ("Base multiplier " ++ numberToString (JS.Fin baseMultiplier) ++ "x")
             (Some (JS.Fin baseMultiplier)) zero)
  | ThresholdMultiplier threshold multiplierByRank multiplier =>
      if JS.ge currentResult (JS.Fin threshold) then
        let multiplier :=
          option_map JS.Fin
            match multiplierByRank with
            | Some table => lookup_or_E Q_is_zero table masteryRank
            | None => multiplier
            end in
        ret (plain (JS.mul currentResult (JS.toNumber multiplier))
               (rank_name masteryRank ++ " Critical") multiplier zero)
      else
        ret (plain currentResult
               ("Threshold " ++ numberToString (JS.Fin threshold) ++ " not met")
               one zero)
  | SuccessBonus threshold successBonusByRank bonusByRank failureBonus =>
      if JS.ge currentResult (JS.Fin threshold) then
        let bonus :=
          option_map JS.Fin
            match successBonusByRank with
            | Some table => lookup_or_E Q_is_zero table masteryRank
            | None => lookup_or_E Q_is_zero bonusByRank masteryRank
            end in
        ret (plain (JS.add currentResult (JS.toNumber bonus))
               "Success bonus" one bonus)
      else if Q_truthy failureBonus then
        let bonus := option_map JS.Fin failureBonus in
        ret (plain (JS.add currentResult (JS.toNumber bonus))
               "Consolation bonus" one bonus)
      else
        ret (plain currentResult
               ("Failed threshold " ++ numberToString (JS.Fin threshold))
               one zero)
  | Explosion threshold chance extraDice =>
      let explosions := count_ge threshold allRolls in
      if (0 <? explosions)%nat then
        final <- cascade threshold (ds_sides extraDice) 10
                   {| currentExplosions := explosions;
                      explosionTotal := 0;
                      allExplosionRolls := [];
                      totalTriggers := explosions |} ;;
        let st := snd final in
        ret {| mr_result := JS.add currentResult (JS.of_Z (explosionTotal st));
               mr_details :=
                 show_Z (Z.of_nat (totalTriggers st)) ++ " explosions";
               mr_multiplier := one;
               mr_value := Some (JS.of_Z (explosionTotal st));
               mr_explosionRolls := Some (allExplosionRolls st) |}
      else
        ret (plain currentResult "No explosions" one zero)
  | Divisor divisor =>
      ret (plain (JS.floor (JS.div currentResult (JS.Fin divisor)))
             ("Divided by " ++ numberToString (JS.Fin divisor))
             (Some (JS.div (JS.Fin 1) (JS.Fin divisor))) zero)
  | AoeDivisor divisor =>
      ret (plain currentResult "Single target" one zero)
  | BonusConversion conversionRate convertToDice =>
      let convertibleBonuses := otherBonuses / Z.pos conversionRate in
      let extraDice := convertibleBonuses * ds_count convertToDice in
      let leftoverBonus := Z.rem otherBonuses (Z.pos conversionRate) in
      if 0 <? extraDice then
        conversionRolls <-
          rollMany (Z.to_nat extraDice) (ds_sides convertToDice) ;;
        let extraTotal := JS.sum conversionRolls in
        ret {| mr_result :=
                 JS.add
                   (JS.add (JS.sub currentResult (JS.of_Z otherBonuses))
                      (JS.of_Z extraTotal))
                   (JS.of_Z leftoverBonus);
               mr_details := "Converted " ++ show_Z extraDice ++ " dice";
               mr_multiplier := one;
               mr_value :=
                 Some (JS.of_Z (extraTotal + leftoverBonus - otherBonuses));
               mr_explosionRolls := Some conversionRolls |}
      else
        ret (plain currentResult "No conversion" one zero)
  | Conditional condition value =>
      ret (plain currentResult "Conditional not met" one zero)
  | Unknown tag =>
      ret (plain currentResult "Unknown modifier" one zero)
  end.

(** The dice count of a group (the head of the dice loop): the [count]
    property, a count variable resolved, overridden by [baseDiceByRank] and
    then by [diceByRank].  [None] is [undefined]. *)
Definition groupCount (diceConfig : DiceConfig)
    (weaponRank masteryRank : Rank) : option Z :=
  let count :=
    match dc_count diceConfig with
    | CountVar v => resolveCountVariable v weaponRank masteryRank
    | CountNum n => n
    end in
  let count :=
    match dc_baseDiceByRank diceConfig with
    | Some table => lookup_or_E Z_is_zero table masteryRank
    | None => Some count
    end in
  match dc_diceByRank diceConfig with
  | Some table => lookup_or_E Z_is_zero table masteryRank
  | None => count
  end.

(** The variables of [calculateActionRoll] the dice loop updates. *)
Record DicePhase : Type := {
  dp_totalResult : JS.num;
  dp_rawDiceTotal : Z;
  dp_diceGroups : list DiceGroup
}.

(** One iteration of [for (const diceConfig of calculableFormula.dice)]. *)
Definition rollGroup (weaponRank masteryRank : Rank) (diceConfig : DiceConfig)
    (st : DicePhase) : Rand DicePhase :=
  match groupCount diceConfig weaponRank masteryRank with
  | Some count =>
      if 0 <? count then
        diceRolls <- rollDice (with_count diceConfig count) ;;
        let diceSum := JS.sum diceRolls in
        let diceGroup :=
          {| dg_type := show_Z count ++ "d" ++ show_Z (dc_sides diceConfig);
             dg_rolls := diceRolls;
             dg_sum := diceSum;
             dg_keepHighest := dc_keepHighest diceConfig;
             dg_keepLowest := dc_keepLowest diceConfig |} in
        ret {| dp_totalResult := JS.add (dp_totalResult st) (JS.of_Z diceSum);
               dp_rawDiceTotal := dp_rawDiceTotal st + diceSum;
               dp_diceGroups := (dp_diceGroups st ++ [diceGroup])%list |}
      else ret st
  | None => ret st
  end.

Fixpoint rollGroups (weaponRank masteryRank : Rank)
    (configs : list DiceConfig) (st : DicePhase) : Rand DicePhase :=
  match configs with
  | [] => ret st
  | diceConfig :: rest =>
      st' <- rollGroup weaponRank masteryRank diceConfig st ;;
      rollGroups weaponRank masteryRank rest st'
  end.

(** One iteration of [for (const bonusType of calculableFormula.bonuses)]. *)
Definition addBonus (weaponRank masteryRank : Rank)
    (st : JS.num * list BonusEntry) (bonusType : string)
    : JS.num * list BonusEntry :=
  let (totalResult, bonusBreakdown) := st in
  if String.eqb bonusType "MR" then
    let bonus := JS.Fin (RANK_BONUSES masteryRank) in
    (JS.add totalResult bonus,
     (bonusBreakdown ++
      [{| be_type := "Mastery Rank";
          be_rank := Some masteryRank;
          be_value := bonus;
          be_display := rank_name masteryRank ++ " MR" |}])%list)
  else if String.eqb bonusType "WR" then
    let bonus := JS.Fin (RANK_BONUSES weaponRank) in
    (JS.add totalResult bonus,
     (bonusBreakdown ++
      [{| be_type := "Weapon Rank";
          be_rank := Some weaponRank;
          be_value := bonus;
          be_display := rank_name weaponRank ++ " WR" |}])%list)
  else st.

(** [if (otherBonuses > 0) { ... }] *)
Definition addOtherBonuses (otherBonuses : Z) (st : JS.num * list BonusEntry)
    : JS.num * list BonusEntry :=
  let (totalResult, bonusBreakdown) := st in
  if 0 <? otherBonuses then
    (JS.add totalResult (JS.of_Z otherBonuses),
     (bonusBreakdown ++
      [{| be_type := "Other";
          be_rank := None;
          be_value := JS.of_Z otherBonuses;
          be_display := "Buff" |}])%list)
  else st.

(** The variables of [calculateActionRoll] the modifier loop updates. *)
Record ModifierPhase : Type := {
  mp_finalResult : JS.num;
  mp_rawDiceTotal : Z;
  mp_modifierBreakdown : list ModifierEntry;
  mp_explosionRolls : list Z
}.

(** The gate in front of [modifierBreakdown.push]. *)
Definition is_recorded (modifier : Modifier) (res : ModifierResult) : bool :=
  JS.strict_neq (mr_value res) 0
  || JS.strict_neq (mr_multiplier res) 1
  || String.eqb (modifier_type modifier) "explosion".

(** What follows the call of [applyModifier] in the modifier loop. *)
Definition recordModifier (modifier : Modifier) (res : ModifierResult)
    (st : ModifierPhase) : ModifierPhase :=
  if is_recorded modifier res then
    let entry :=
      {| me_type := modifier_type modifier;
         me_description := mr_details res;
         me_value := JS.or_default (mr_value res) (JS.Fin 0);
         me_multiplier := JS.or_default (mr_multiplier res) (JS.Fin 1);
         me_explosionRolls :=
           match mr_explosionRolls res with
           | Some rolls => rolls
           | None => []
           end |} in
    {| mp_finalResult := mr_result res;
       mp_rawDiceTotal :=
         match mr_explosionRolls res with
         | Some rolls =>
             if String.eqb (modifier_type modifier) "explosion"
             then mp_rawDiceTotal st + JS.sum rolls
             else mp_rawDiceTotal st
         | None => mp_rawDiceTotal st
         end;
       mp_modifierBreakdown := (mp_modifierBreakdown st ++ [entry])%list;
       mp_explosionRolls :=
         match mr_explosionRolls res with
         | Some rolls => (mp_explosionRolls st ++ rolls)%list
         | None => mp_explosionRolls st
         end |}
  else
    {| mp_finalResult := mr_result res;
       mp_rawDiceTotal := mp_rawDiceTotal st;
       mp_modifierBreakdown := mp_modifierBreakdown st;
       mp_explosionRolls := mp_explosionRolls st |}.

Fixpoint applyModifiers (mods : list Modifier) (allRolls : list Z)
    (weaponRank masteryRank : Rank) (otherBonuses : Z) (st : ModifierPhase)
    : Rand ModifierPhase :=
  match mods with
  | [] => ret st
  | modifier :: rest =>
      modifierResult <-
        applyModifier modifier (mp_finalResult st) allRolls weaponRank
          masteryRank otherBonuses ;;
      applyModifiers rest allRolls weaponRank masteryRank otherBonuses
        (recordModifier modifier modifierResult st)
  end.

(** [generateBreakdownString] *)
Definition joinNumbers (sep : string) (rolls : list Z) : string :=
  JS.join sep (map show_Z rolls).

Definition groupPart (group : DiceGroup) : string :=
  if Z_truthy (dg_keepHighest group) || Z_truthy (dg_keepLowest group) then
    let keptRolls :=
      match dg_keepHighest group, dg_keepLowest group with
      | Some keepHighest, Some keepLowest =>
          if Z_is_zero keepHighest
          then JS.slice0 keepLowest (JS.sort ascending (dg_rolls group))
          else JS.slice0 keepHighest (JS.sort descending (dg_rolls group))
      | Some keepHighest, None =>
          JS.slice0 keepHighest (JS.sort descending (dg_rolls group))
      | None, Some keepLowest =>
          JS.slice0 keepLowest (JS.sort ascending (dg_rolls group))
      | None, None => dg_rolls group
      end in
    dg_type group ++ "[" ++ joinNumbers ", " (dg_rolls group) ++ "→"
      ++ joinNumbers ", " keptRolls ++ "]"
  else
    dg_type group ++ "[" ++ joinNumbers " + " (dg_rolls group) ++ "]".

Definition explosionPart (modifierBreakdown : list ModifierEntry)
    (explosionRolls : list Z) : list string :=
  if (0 <? List.length explosionRolls)%nat then
    let fallback :=
      show_Z (Z.of_nat (List.length explosionRolls)) ++ " explosions" in
    let explosionCount :=
      match find (fun m => String.eqb (me_type m) "explosion")
              modifierBreakdown with
      | Some explosionModifier =>
          if String.eqb (me_description explosionModifier) ""
          then fallback
          else me_description explosionModifier
      | None => fallback
      end in
    ["EXP[" ++ joinNumbers " + " explosionRolls ++ "](" ++ explosionCount
       ++ ")"]
  else [].

Definition bonusParts (bonusBreakdown : list BonusEntry) : list string :=
  map (fun bonus =>
         numberToString (be_value bonus) ++ "(" ++ be_display bonus ++ ")")
    (filter (fun bonus => JS.gt (be_value bonus) (JS.Fin 0)) bonusBreakdown).

Definition appendModifier (result : string) (modifier : ModifierEntry)
    : string :=
  if JS.truthy (Some (me_multiplier modifier))
     && JS.strict_neq (Some (me_multiplier modifier)) 1 then
    "(" ++ result ++ ") × " ++ numberToString (me_multiplier modifier)
      ++ "(" ++ me_description modifier ++ ")"
  else if JS.strict_neq (Some (me_value modifier)) 0
          && negb (String.eqb (me_type modifier) "explosion") then
    result ++ " + " ++ numberToString (me_value modifier)
      ++ "(" ++ me_description modifier ++ ")"
  else result.

Definition generateBreakdownString (diceGroups : list DiceGroup)
    (bonusBreakdown : list BonusEntry)
    (modifierBreakdown : list ModifierEntry) (explosionRolls : list Z)
    (finalResult : JS.num) : string :=
  let parts :=
    (map groupPart diceGroups
     ++ explosionPart modifierBreakdown explosionRolls
     ++ bonusParts bonusBreakdown)%list in
  let baseCalc := JS.join " + " parts in
  fold_left appendModifier modifierBreakdown baseCalc.

(** [calculateActionRoll]; the method assigns [this.rollHistory], so the
    instance is returned as well. *)
Definition calculateActionRoll (this : FormulaCalculator) (action : Action)
    (weaponRank masteryRank : Rank) (otherBonuses : Z)
    : Rand (RollResult * FormulaCalculator) :=
  let formula := calculableFormula action in
  let this := {| rollHistory := Some [] |} in
  rolled <-
    rollGroups weaponRank masteryRank (dice formula)
      {| dp_totalResult := JS.Fin 0;
         dp_rawDiceTotal := 0;
         dp_diceGroups := [] |} ;;
  let diceGroups := dp_diceGroups rolled in
  let (totalResult, bonusBreakdown) :=
    addOtherBonuses otherBonuses
      (fold_left (addBonus weaponRank masteryRank) (bonuses formula)
         (dp_totalResult rolled, [])) in
  modified <-
    applyModifiers
      match modifiers formula with
      | Some mods => mods
      | None => []
      end
      (flat_map dg_rolls diceGroups) weaponRank masteryRank otherBonuses
      {| mp_finalResult := totalResult;
         mp_rawDiceTotal := dp_rawDiceTotal rolled;
         mp_modifierBreakdown := [];
         mp_explosionRolls := [] |} ;;
  let finalResult := mp_finalResult modified in
  let breakdown :=
    generateBreakdownString diceGroups bonusBreakdown
      (mp_modifierBreakdown modified) (mp_explosionRolls modified)
      finalResult in
  ret ({| result := JS.max (JS.Fin 1) (JS.floor finalResult);
          rawDiceResult := mp_rawDiceTotal modified;
          details :=
            {| diceGroups := diceGroups;
               bonusBreakdown := bonusBreakdown;
               modifierBreakdown := mp_modifierBreakdown modified;
               explosionRolls := mp_explosionRolls modified;
               rawDiceTotal := mp_rawDiceTotal modified;
               baseTotal := totalResult;
               finalResult := finalResult;
               breakdown := breakdown |} |},
       this).

(** [getLastRollHistory] returns [null]. *)
Definition getLastRollHistory (this : FormulaCalculator)
    : option (list Z) := None.

End Calculator.

(** ** The cascade loop as a transition system

    The [while] loop of the explosion branch, read without any bound on the
    number of rounds: its variables, with [maxIterations] an ordinary integer
    variable, and the number of draws made so far; its condition; its body;
    and the runs of the loop, counted in rounds. *)

Record LoopState : Type := {
  ls_vars : Cascade;
  ls_maxIterations : Z;
  ls_draws : nat
}.

(** [currentExplosions > 0 && maxIterations > 0] *)
Definition loop_condition (s : LoopState) : bool :=
  (0 <? currentExplosions (ls_vars s))%nat && (0 <? ls_maxIterations s).

Definition loop_body (random : nat -> Q) (threshold sides : Z)
    (s : LoopState) : LoopState :=
  let rolled :=
    rollMany random (currentExplosions (ls_vars s)) sides (ls_draws s) in
  let newRolls := fst rolled in
  let triggered := count_ge threshold newRolls in
  {| ls_vars :=
       {| currentExplosions := triggered;
          explosionTotal := explosionTotal (ls_vars s) + JS.sum newRolls;
          allExplosionRolls := (allExplosionRolls (ls_vars s) ++ newRolls)%list;
          totalTriggers := (totalTriggers (ls_vars s) + triggered)%nat |};
     ls_maxIterations := ls_maxIterations s - 1;
     ls_draws := snd rolled |}.

(** [while_runs n s s']: started in [s], the loop leaves in [s'] after [n]
    rounds. *)
Inductive while_runs (random : nat -> Q) (threshold sides : Z)
    : nat -> LoopState -> LoopState -> Prop :=
| while_exit (s : LoopState) :
    loop_condition s = false -> while_runs random threshold sides O s s
| while_round (n : nat) (s s' : LoopState) :
    loop_condition s = true ->
    while_runs random threshold sides n (loop_body random threshold sides s)
      s' ->
    while_runs random threshold sides (S n) s s'.

(** ** Concrete runtime for the examples *)

(** Decimal digits of an integral number, as [Number.prototype.toString]
    prints it.  A number with a fractional part is written as a fraction;
    no string stated below contains one. *)
Definition decimalString (n : JS.num) : string :=
  match n with
  | JS.Fin q =>
      if Qeq_bool q (inject_Z (Qfloor q))
      then NilZero.string_of_int (Z.to_int (Qfloor q))
      else (NilZero.string_of_int (Z.to_int (Qnum q)) ++ "/"
            ++ NilZero.string_of_int (Z.to_int (Z.pos (Qden q))))%string
  | JS.PosInf => "Infinity"
  | JS.NegInf => "-Infinity"
  | JS.NaN => "NaN"
  end.

(** The [Math.random] outcome that makes a die of [sides] sides show
    [face]. *)
Definition showing (face : Z) (sides : positive) : Q := (face - 1) # sides.

(** A die source that replays [outcomes] and then returns 0. *)
Definition replay (outcomes : list Q) : nat -> Q :=
  fun i => nth i outcomes 0%Q.

(** Evaluation with the catalog's bonus table on a fresh instance. *)
Definition evaluate (random : nat -> Q) (action : Action)
    (weaponRank masteryRank : Rank) (otherBonuses : Z) : RollResult :=
  fst (fst (calculateActionRoll decimalString Actions.RANK_BONUSES random
              new_FormulaCalculator action weaponRank masteryRank
              otherBonuses O)).

(** An action whose only modifier is the rank-S critical of the
    specification's scenario. *)
Definition critical_probe : Action :=
  {| category := "Offense";
     name := "critical probe";
     rollFormula := "1d100";
     calculableFormula :=
       {| dice := [Actions.group (CountNum 1) 100];
          bonuses := [];
          modifiers :=
            Some [ThresholdMultiplier 85 (Some (rankObject [(rS, 2.0%Q)]))
                    None] |} |}.

(** A dice group whose per-rank table has a zero entry. *)
Definition zero_entry_group : DiceConfig :=
  {| dc_count := CountVar "DICE_BY_RANK";
     dc_sides := 100;
     dc_keepHighest := None;
     dc_keepLowest := None;
     dc_baseDiceByRank := None;
     dc_diceByRank := Some (rankObject [(rE, 2); (rD, 0)]) |}.

(** ** Variations of an action, used to compare evaluations *)

Definition with_modifiers (action : Action) (mods : option (list Modifier))
    : Action :=
  {| category := category action;
     name := name action;
     rollFormula := rollFormula action;
     calculableFormula :=
       {| dice := dice (calculableFormula action);
          bonuses := bonuses (calculableFormula action);
          modifiers := mods |} |}.

Definition with_dice (action : Action) (configs : list DiceConfig) : Action :=
  {| category := category action;
     name := name action;
     rollFormula := rollFormula action;
     calculableFormula :=
       {| dice := configs;
          bonuses := bonuses (calculableFormula action);
          modifiers := modifiers (calculableFormula action) |} |}.


(** The modifier is a [bonus_conversion]. *)
Definition is_conversion (m : Modifier) : bool :=
  match m with
  | BonusConversion _ _ => true
  | _ => false
  end.

(** The faces a modifier breakdown attributes to explosion modifiers. *)
Definition explosionFaces (entries : list ModifierEntry) : list Z :=
  flat_map
    (fun entry =>
       if String.eqb (me_type entry) "explosion"
       then me_explosionRolls entry
       else [])
    entries.

(** Invariant of the dice loop: each recorded group sums its recorded rolls,
    and the raw dice total is the sum of all recorded rolls. *)
Definition dice_consistent (st : DicePhase) : Prop :=
  Forall (fun group => dg_sum group = JS.sum (dg_rolls group))
    (dp_diceGroups st)
  /\ dp_rawDiceTotal st = JS.sum (flat_map dg_rolls (dp_diceGroups st)).

(** ** Die sources *)

(** A well-formed outcome of [Math.random] lies in [0, 1). *)
Definition unit_interval (random : nat -> Q) : Prop :=
  forall i : nat, (0 <= random i)%Q /\ (random i < 1)%Q.

(** Two die sources, read from positions [p1] and [p2], deliver the same
    outcomes from there on. *)
Definition agree (random1 random2 : nat -> Q) (p1 p2 : nat) : Prop :=
  forall i : nat, random1 (p1 + i)%nat = random2 (p2 + i)%nat.

(** Two computations return the same value after the same number of draws
    whenever their die sources agree. *)
Definition same_run {T : Type} (random1 random2 : nat -> Q)
    (c1 c2 : Rand T) : Prop :=
  forall p1 p2 : nat,
    agree random1 random2 p1 p2 ->
    fst (c1 p1) = fst (c2 p2)
    /\ exists k : nat, snd (c1 p1) = (p1 + k)%nat /\ snd (c2 p2) = (p2 + k)%nat.

(** A bonus conversion followed by an explosion, on one d20. *)
Definition conversion_then_explosion : Action :=
  {| category := "Offense";
     name := "conversion then explosion";
     rollFormula := "1d20";
     calculableFormula :=
       {| dice := [Actions.group (CountNum 1) 20];
          bonuses := [];
          modifiers :=
            Some [BonusConversion 40 Actions.d100;
                  Explosion 17 None Actions.d20] |} |}.

(** Two d20 of which the highest is kept, with an explosion. *)
Definition advantage_then_explosion : Action :=
  {| category := "Offense";
     name := "advantage then explosion";
     rollFormula := "2d20kh1";
     calculableFormula :=
       {| dice := [Actions.advantage 2 20 1];
          bonuses := [];
          modifiers := Some [Explosion 17 None Actions.d20] |} |}.

(** The specification's plain scenario: one d20, no bonus, no modifier. *)
Definition single_d20 : Action :=
  {| category := "Basic";
     name := "single d20";
     rollFormula := "1d20";
     calculableFormula :=
       {| dice := [Actions.group (CountNum 1) 20];
          bonuses := [];
          modifiers := Some [] |} |}.

(** ** Vocabulary for the further properties *)

(** The count the dice loop resolves for a group, 0 standing for
    [undefined]. *)
Definition resolvedCount (weaponRank masteryRank : Rank)
    (diceConfig : DiceConfig) : Z :=
  match groupCount diceConfig weaponRank masteryRank with
  | Some count => count
  | None => 0
  end.

(** The groups the dice loop rolls: those with a positive count. *)
Definition rolledConfigs (weaponRank masteryRank : Rank)
    (configs : list DiceConfig) : list DiceConfig :=
  filter (fun diceConfig => 0 <? resolvedCount weaponRank masteryRank diceConfig)
    configs.

(** The number of dice the dice loop draws. *)
Definition diceDrawn (weaponRank masteryRank : Rank)
    (configs : list DiceConfig) : nat :=
  list_sum
    (map (fun diceConfig =>
            Z.to_nat (resolvedCount weaponRank masteryRank diceConfig))
       configs).

(** The modifiers that call [rollDie]. *)
Definition rolls_dice (m : Modifier) : bool :=
  match m with
  | Explosion _ _ _ | BonusConversion _ _ => true
  | _ => false
  end.

(** The value of a bonus entry as a rational (0 when it is not finite). *)
Definition entryValue (entry : BonusEntry) : Q :=
  match be_value entry with
  | JS.Fin v => v
  | _ => 0%Q
  end.

Definition sumQ (l : list Q) : Q := fold_right Qplus 0%Q l.

Definition is_finite (a : JS.num) : Prop := exists q : Q, a = JS.Fin q.

(** Every number the modifier reads at mastery rank [masteryRank] is there:
    the factor of a [threshold_multiplier] and the bonus of a
    [success_bonus] resolve to an entry, a [divisor] is not 0. *)
Definition modifier_defined (masteryRank : Rank) (m : Modifier) : bool :=
  match m with
  | ThresholdMultiplier _ multiplierByRank multiplier =>
      match
        match multiplierByRank with
        | Some table => lookup_or_E Q_is_zero table masteryRank
        | None => multiplier
        end
      with
      | Some _ => true
      | None => false
      end
  | SuccessBonus _ successBonusByRank bonusByRank _ =>
      match
        match successBonusByRank with
        | Some table => lookup_or_E Q_is_zero table masteryRank
        | None => lookup_or_E Q_is_zero bonusByRank masteryRank
        end
      with
      | Some _ => true
      | None => false
      end
  | Divisor divisor => negb (Qeq_bool divisor 0)
  | _ => true
  end.

Definition modifiers_of (action : Action) : list Modifier :=
  match modifiers (calculableFormula action) with
  | Some mods => mods
  | None => []
  end.

(** The bonus loop keeps the total equal to its start plus the values it
    records, all of them finite. *)
Definition bonus_consistent (base : Q) (st : JS.num * list BonusEntry)
    : Prop :=
  (exists q, fst st = JS.Fin q
             /\ (q == base + sumQ (map entryValue (snd st)))%Q)
  /\ Forall (fun entry => is_finite (be_value entry)) (snd st).

(** What the dice loop records for a rolled group, read off its
    configuration. *)
Definition group_of (numberToString : JS.num -> string)
    (weaponRank masteryRank : Rank) (group : DiceGroup)
    (diceConfig : DiceConfig) : Prop :=
  dg_type group
  = (show_Z numberToString (resolvedCount weaponRank masteryRank diceConfig)
     ++ "d" ++ show_Z numberToString (dc_sides diceConfig))%string
  /\ dg_keepHighest group = dc_keepHighest diceConfig
  /\ dg_keepLowest group = dc_keepLowest diceConfig
  /\ Z.of_nat (List.length (dg_rolls group))
     <= resolvedCount weaponRank masteryRank diceConfig
  /\ dg_sum group = JS.sum (dg_rolls group).

(** ** The rest of the catalog and [ACTIONS] *)

Module Catalog.

Local Open Scope string_scope.

Definition plain_d100 (category name : string) : Action :=
  {| category := category;
     name := name;
     rollFormula := "1d100 + MR + WR + other bonuses";
     calculableFormula :=
       {| dice := [Actions.group (CountNum 1) 100];
          bonuses := ["MR"; "WR"];
          modifiers := Some [] |} |}.

Definition Protect : Action := plain_d100 "Defense" "Protect".
Definition Ultra_Protect : Action := plain_d100 "Defense" "Ultra Protect".
Definition Counter : Action := plain_d100 "Defense" "Counter".

Definition Special_Burst_Attack : Action :=
  {| category := "Offense";
     name := "Special Burst Attack";
     rollFormula :=
       "12d20 + (1d20 per MR) + WR + other bonuses, EXP on 16-20 (25% explosion)";
     calculableFormula :=
       {| dice :=
            [{| dc_count := CountVar "BASE_BY_RANK";
                dc_sides := 20;
                dc_keepHighest := None;
                dc_keepLowest := None;
                dc_baseDiceByRank :=
                  Some
                    (rankObject
                       [(rE, 12); (rD, 12); (rC, 12); (rB, 13); (rA, 13);
                        (rS, 14)]);
                dc_diceByRank := None |};
             Actions.group (CountVar "MR_LEVEL") 20];
          bonuses := ["WR"];
          modifiers := Some [Explosion 16 (Some 0.25%Q) Actions.d20] |} |}.

Definition Special_Reckless_Attack : Action :=
  {| category := "Offense";
     name := "Special Reckless Attack";
     rollFormula :=
       "E, D, C: 1d200 + 1d100 + MR + WR + other bonuses
B, A, S: 1d200 + 1d100 + 1d100 + MR + WR + other bonuses";
     calculableFormula :=
       {| dice :=
            [Actions.group (CountNum 1) 200;
             {| dc_count := CountVar "DICE_BY_RANK";
                dc_sides := 100;
                dc_keepHighest := None;
                dc_keepLowest := None;
                dc_baseDiceByRank := None;
                dc_diceByRank :=
                  Some
                    (rankObject
                       [(rE, 1); (rD, 1); (rC, 1); (rB, 2); (rA, 2);
                        (rS, 2)]) |}];
          bonuses := ["MR"; "WR"];
          modifiers := Some [BonusConversion 40 Actions.d100] |} |}.

Definition Power_Heal : Action :=
  {| category := "Support";
     name := "Power Heal";
     rollFormula := "4d20 + MR + WR + other bonuses then divide by 3 if AoE";
     calculableFormula :=
       {| dice := [Actions.group (CountNum 4) 20];
          bonuses := ["MR"; "WR"];
          modifiers :=
            Some [Explosion 15 (Some 0.3%Q) Actions.d20; AoeDivisor 3] |} |}.

Definition Power_Buff : Action :=
  {| category := "Support";
     name := "Power Buff";
     rollFormula := "2d100 + MR + WR + other bonuses then divide by 3";
     calculableFormula :=
       {| dice := [Actions.group (CountNum 2) 100];
          bonuses := ["MR"; "WR"];
          modifiers := Some [Divisor 3] |} |}.

(** [ACTIONS], in the order of the source. *)
Definition ACTIONS : list Action :=
  [Actions.Attack; Actions.Recover; Protect; Ultra_Protect; Counter;
   Actions.Ultra_Counter; Actions.Stable_Attack; Special_Burst_Attack;
   Actions.Sneak_Attack; Actions.Special_Critical_Attack;
   Actions.Sharp_Attack; Special_Reckless_Attack; Actions.Heal; Power_Heal;
   Actions.Buff; Power_Buff].

(** [ACTIONS.find(a => a.name === actionName)] *)
Definition findAction (actionName : string) : option Action :=
  find (fun a => String.eqb (name a) actionName) ACTIONS.

Definition ranks : list Rank := [rE; rD; rC; rB; rA; rS].

End Catalog.

(** The modifier types [applyModifier] has a case for. *)
Definition known_modifier_types : list string :=
  ["multiplier"; "threshold_multiplier"; "success_bonus"; "explosion";
   "divisor"; "aoe_divisor"; "bonus_conversion"; "conditional"]%string.

(** ** The rate limiter ([rateLimit] in [server.js])

    [requestCounts] is a [Map] from the client id to an object with the
    fields [count] and [resetTime]; [Date.now()] is an argument.  The client
    id is [req.ip || req.connection.remoteAddress], a string or
    [undefined]. *)

Module RateLimit.

Definition RATE_LIMIT_WINDOW : Z := 60000.
Definition MAX_REQUESTS_PER_WINDOW : Z := 100.

Record Request : Type := {
  ip : option string;
  remoteAddress : option string
}.

Definition ClientId : Type := option string.

Definition clientId_eqb (a b : ClientId) : bool :=
  match a, b with
  | Some x, Some y => String.eqb x y
  | None, None => true
  | _, _ => false
  end.

(** [req.ip || req.connection.remoteAddress]: an empty or missing [ip] is
    falsy. *)
Definition clientId_of (req : Request) : ClientId :=
  match ip req with
  | Some address =>
      if String.eqb address "" then remoteAddress req else Some address
  | None => remoteAddress req
  end.

Record ClientData : Type := {
  count : Z;
  resetTime : Z
}.

Definition RequestCounts : Type := ClientId -> option ClientData.

(** [new Map()] *)
Definition empty : RequestCounts := fun _ => None.

(** [requestCounts.set(clientId, data)], also the effect of assigning to the
    fields of the stored object. *)
Definition set (requestCounts : RequestCounts) (clientId : ClientId)
    (data : ClientData) : RequestCounts :=
  fun other => if clientId_eqb clientId other then Some data
               else requestCounts other.

(** [next()] or the response with status 429. *)
Inductive Outcome : Type := Next | TooManyRequests.

Definition outcome_eqb (a b : Outcome) : bool :=
  match a, b with
  | Next, Next | TooManyRequests, TooManyRequests => true
  | _, _ => false
  end.

(** [rateLimit] *)
Definition rateLimit (requestCounts : RequestCounts) (req : Request)
    (now : Z) : Outcome * RequestCounts :=
  let clientId := clientId_of req in
  match requestCounts clientId with
  | None =>
      (Next,
       set requestCounts clientId
         {| count := 1; resetTime := now + RATE_LIMIT_WINDOW |})
  | Some clientData =>
      if resetTime clientData <? now then
        (Next,
         set requestCounts clientId
           {| count := 1; resetTime := now + RATE_LIMIT_WINDOW |})
      else if MAX_REQUESTS_PER_WINDOW <=? count clientData then
        (TooManyRequests, requestCounts)
      else
        (Next,
         set requestCounts clientId
           {| count := count clientData + 1;
              resetTime := resetTime clientData |})
  end.

(** The middleware over a sequence of requests with their arrival times:
    the outcomes in order and the final map. *)
Fixpoint serve (requestCounts : RequestCounts)
    (requests : list (Request * Z)) : list Outcome * RequestCounts :=
  match requests with
  | [] => ([], requestCounts)
  | (req, now) :: rest =>
      let (outcome, requestCounts') := rateLimit requestCounts req now in
      let (outcomes, final) := serve requestCounts' rest in
      (outcome :: outcomes, final)
  end.

(** The requests of [clientId] among [requests], and how many of them were
    passed on. *)
Fixpoint requestsOf (clientId : ClientId) (requests : list (Request * Z))
    : Z :=
  match requests with
  | [] => 0
  | (req, _) :: rest =>
      (if clientId_eqb clientId (clientId_of req) then 1 else 0)
      + requestsOf clientId rest
  end.

Fixpoint passedOf (clientId : ClientId) (requests : list (Request * Z))
    (outcomes : list Outcome) : Z :=
  match requests, outcomes with
  | (req, _) :: rest, outcome :: outcomes' =>
      (if clientId_eqb clientId (clientId_of req) && outcome_eqb outcome Next
       then 1 else 0)
      + passedOf clientId rest outcomes'
  | _, _ => 0
  end.

(** Every stored count lies between 1 and the maximum. *)
Definition counts_bounded (requestCounts : RequestCounts) : Prop :=
  forall (clientId : ClientId) (data : ClientData),
    requestCounts clientId = Some data ->
    1 <= count data <= MAX_REQUESTS_PER_WINDOW.

(** All requests of [clientId] among [requests] arrive no later than
    [deadline]. *)
Definition within (clientId : ClientId) (deadline : Z)
    (requests : list (Request * Z)) : Prop :=
  Forall
    (fun request =>
       clientId_eqb clientId (clientId_of (fst request)) = true ->
       snd request <= deadline)
    requests.

End RateLimit.

(** ** The room registry of the WebSocket server ([server.js])

    [roomConnections] maps a room id to the [Set] of its sockets and
    [connectionRooms] maps a socket to its room id.  A socket is identified
    by a number, a [Set] is the list of its elements in insertion order, a
    room id is a string, and a payload is an object with an optional
    [userName].  What the code sends is returned as the list of the calls of
    [send], in order, and [send] is taken to return.  [db.getRoomById] and
    [readyState] are parameters.  Messages whose [roomId] is not a string, or
    whose [payload] is not an object, are outside the model. *)

Module Rooms.

Definition Ws : Type := nat.

Record Payload : Type := {
  userName : option string
}.

Inductive ServerMessage : Type :=
| ErrorMessage (message : string)
| JoinedRoom (roomId : string) (payload : Payload)
| LeftRoom (roomId : string)
| UserJoined (roomId : string) (userName : string)
| Pong
| RoomEvent (type : string) (roomId : string).

(** A parsed client message: [type], [roomId] and [payload] may be
    missing. *)
Record ClientMessage : Type := {
  type : option string;
  roomId : option string;
  payload : option Payload
}.

Record Registry : Type := {
  roomConnections : string -> option (list Ws);
  connectionRooms : Ws -> option string
}.

Definition empty : Registry :=
  {| roomConnections := fun _ => None; connectionRooms := fun _ => None |}.

(** A room id is truthy when it is there and not the empty string. *)
Definition truthy (v : option string) : bool :=
  match v with
  | Some text => negb (String.eqb text "")
  | None => false
  end.

Definition setRoom (rooms : string -> option (list Ws)) (roomId : string)
    (sockets : option (list Ws)) : string -> option (list Ws) :=
  fun other => if String.eqb roomId other then sockets else rooms other.

Definition setSocket (sockets : Ws -> option string) (ws : Ws)
    (roomId : option string) : Ws -> option string :=
  fun other => if Nat.eqb ws other then roomId else sockets other.

(** [Set.prototype.add] and [Set.prototype.delete] *)
Definition add (ws : Ws) (sockets : list Ws) : list Ws :=
  if existsb (Nat.eqb ws) sockets then sockets else (sockets ++ [ws])%list.

Definition delete (ws : Ws) (sockets : list Ws) : list Ws :=
  filter (fun other => negb (Nat.eqb ws other)) sockets.

Section Server.

(** [db.getRoomById]: [None] when it throws, otherwise whether a room was
    found. *)
Variable getRoomById : string -> option bool.

(** [readyState === WebSocket.OPEN] *)
Variable isOpen : Ws -> bool.

(** [leaveRoom] *)
Definition leaveRoom (reg : Registry) (ws : Ws) (roomId : string)
    : Registry * list (Ws * ServerMessage) :=
  let rooms :=
    match roomConnections reg roomId with
    | Some sockets =>
        let remaining := delete ws sockets in
        if (List.length remaining =? 0)%nat
        then setRoom (roomConnections reg) roomId None
        else setRoom (roomConnections reg) roomId (Some remaining)
    | None => roomConnections reg
    end in
  ({| roomConnections := rooms;
      connectionRooms := setSocket (connectionRooms reg) ws None |},
   [(ws, LeftRoom roomId)]).

(** [broadcastToRoom] *)
Definition broadcastToRoom (reg : Registry) (roomId : string)
    (message : ServerMessage) (excludeWs : option Ws)
    : list (Ws * ServerMessage) :=
  match roomConnections reg roomId with
  | None => []
  | Some connections =>
      map (fun clientWs => (clientWs, message))
        (filter
           (fun clientWs =>
              negb match excludeWs with
                   | Some excluded => Nat.eqb clientWs excluded
                   | None => false
                   end
              && isOpen clientWs)
           connections)
  end.

(** [joinRoom] *)
Definition joinRoom (reg : Registry) (ws : Ws) (roomId : string)
    (payload : option Payload) : Registry * list (Ws * ServerMessage) :=
  let payload :=
    match payload with
    | Some given => given
    | None => {| userName := None |}
    end in
  match getRoomById roomId with
  | None => (reg, [(ws, ErrorMessage "Invalid room ID")])
  | Some false => (reg, [(ws, ErrorMessage "Room not found")])
  | Some true =>
      let (left, farewell) :=
        match connectionRooms reg ws with
        | Some currentRoomId =>
            if truthy (Some currentRoomId)
            then leaveRoom reg ws currentRoomId
            else (reg, [])
        | None => (reg, [])
        end in
      let sockets :=
        match roomConnections left roomId with
        | Some sockets => sockets
        | None => []
        end in
      let joined :=
        {| roomConnections :=
             setRoom (roomConnections left) roomId (Some (add ws sockets));
           connectionRooms :=
             setSocket (connectionRooms left) ws (Some roomId) |} in
      (joined,
       (farewell ++ [(ws, JoinedRoom roomId payload)]
        ++ match userName payload with
           | Some name =>
               if truthy (Some name)
               then broadcastToRoom joined roomId (UserJoined roomId name)
                      (Some ws)
               else []
           | None => []
           end)%list)
  end.

(** [handleWebSocketMessage] *)
Definition handleWebSocketMessage (reg : Registry) (ws : Ws)
    (data : ClientMessage) : Registry * list (Ws * ServerMessage) :=
  match type data with
  | Some kind =>
      if String.eqb kind "join_room" then
        match roomId data with
        | Some room =>
            if truthy (Some room) then joinRoom reg ws room (payload data)
            else (reg, [(ws, ErrorMessage "Room ID required")])
        | None => (reg, [(ws, ErrorMessage "Room ID required")])
        end
      else if String.eqb kind "leave_room" then
        match roomId data with
        | Some room =>
            if truthy (Some room) then leaveRoom reg ws room else (reg, [])
        | None => (reg, [])
        end
      else if String.eqb kind "ping" then (reg, [(ws, Pong)])
      else (reg, [(ws, ErrorMessage "Unknown message type")])
  | None => (reg, [(ws, ErrorMessage "Unknown message type")])
  end.

(** The handler of the [close] event. *)
Definition onClose (reg : Registry) (ws : Ws)
    : Registry * list (Ws * ServerMessage) :=
  match connectionRooms reg ws with
  | Some room => if truthy (Some room) then leaveRoom reg ws room else (reg, [])
  | None => (reg, [])
  end.

End Server.

(** What happens to the registry: a message of a socket, or its closing. *)
Inductive Event : Type :=
| Message (ws : Ws) (data : ClientMessage)
| Close (ws : Ws).

(** The registry after a sequence of events, and everything sent. *)
Fixpoint run (getRoomById : string -> option bool) (isOpen : Ws -> bool)
    (reg : Registry) (events : list Event)
    : Registry * list (Ws * ServerMessage) :=
  match events with
  | [] => (reg, [])
  | event :: rest =>
      let (reg', sent) :=
        match event with
        | Message ws data =>
            handleWebSocketMessage getRoomById isOpen reg ws data
        | Close ws => onClose reg ws
        end in
      let (final, sent') := run getRoomById isOpen reg' rest in
      (final, (sent ++ sent')%list)
  end.

(** What the registry keeps true: the room of a socket lists that socket,
    and a listed room has at least one socket and no socket twice. *)
Definition consistent (reg : Registry) : Prop :=
  (forall (ws : Ws) (room : string),
      connectionRooms reg ws = Some room ->
      exists sockets : list Ws,
        roomConnections reg room = Some sockets /\ In ws sockets)
  /\ (forall (room : string) (sockets : list Ws),
         roomConnections reg room = Some sockets ->
         sockets <> [] /\ NoDup sockets).

End Rooms.

(** ** The dice an evaluation draws, read off the die source *)

(** The faces that the draws [pos], [pos + 1], ... of the die source show on
    dice with the given numbers of sides. *)
Fixpoint facesFrom (random : nat -> Q) (sides : list Z) (pos : nat)
    : list Z :=
  match sides with
  | [] => []
  | s :: rest => fst (rollDie random s pos) :: facesFrom random rest (S pos)
  end.

(** The sides of the dice that the dice loop rolls, one per die, in roll
    order. *)
Definition naturalSides (weaponRank masteryRank : Rank)
    (configs : list DiceConfig) : list Z :=
  flat_map
    (fun diceConfig =>
       repeat (dc_sides diceConfig)
         (Z.to_nat (resolvedCount weaponRank masteryRank diceConfig)))
    configs.

(** The group has no keep option in force: [rollDice] returns every die it
    rolls. *)
Definition keeps_all (diceConfig : DiceConfig) : bool :=
  negb (Z_truthy (dc_keepHighest diceConfig))
  && negb (Z_truthy (dc_keepLowest diceConfig)).

(** The modifier is an [explosion]. *)
Definition is_explosion (m : Modifier) : bool :=
  match m with
  | Explosion _ _ _ => true
  | _ => false
  end.

(** The die a modifier rolls: its sides, and whether it is an explosion die
    ([true]) or a die converted from the bonus ([false]). *)
Definition draw_of (m : Modifier) : option (Z * bool) :=
  match m with
  | Explosion _ _ extraDice => Some (ds_sides extraDice, true)
  | BonusConversion _ convertToDice => Some (ds_sides convertToDice, false)
  | _ => None
  end.

(** The draw is one of a modifier of the list. *)
Definition modifier_draw (mods : list Modifier) (draw : Z * bool) : Prop :=
  exists m : Modifier, In m mods /\ draw_of m = Some draw.

(** The faces of the explosion dice among the draws [pos], [pos + 1], ... of
    the modifier loop. *)
Fixpoint countedFaces (random : nat -> Q) (draws : list (Z * bool))
    (pos : nat) : list Z :=
  match draws with
  | [] => []
  | (s, counted) :: rest =>
      ((if counted then [fst (rollDie random s pos)] else [])
       ++ countedFaces random rest (S pos))%list
  end.

(** Some [bonus_conversion] comes before some [explosion] in the list. *)
Fixpoint conversion_before_explosion (mods : list Modifier) : bool :=
  match mods with
  | [] => false
  | m :: rest =>
      (is_conversion m && existsb is_explosion rest)
      || conversion_before_explosion rest
  end.

(** The number of dice a modifier converts from the bonus:
    [Math.floor(otherBonuses / conversionRate) * convertToDice.count] when
    positive. *)
Definition conversionDice (m : Modifier) (otherBonuses : Z) : nat :=
  match m with
  | BonusConversion conversionRate convertToDice =>
      Z.to_nat (otherBonuses / Z.pos conversionRate * ds_count convertToDice)
  | _ => O
  end.

(** Under the two bonuses, every modifier that is followed by an explosion
    converts the same number of dice. *)
Fixpoint conversions_draw_alike (mods : list Modifier) (bonus1 bonus2 : Z)
    : bool :=
  match mods with
  | [] => true
  | m :: rest =>
      (negb (existsb is_explosion rest)
       || Nat.eqb (conversionDice m bonus1) (conversionDice m bonus2))
      && conversions_draw_alike rest bonus1 bonus2
  end.

(** ** Where the code's arithmetic is exact

    The code computes in binary64.  Every integer of magnitude up to 2^53 is
    a binary64 number, and a sum of such integers that stays within 2^53 is
    computed without rounding. *)

Definition MAX_EXACT : Z := 2 ^ 53.

(** An upper bound of the base total: every die on its highest face, every
    rank bonus at most 50 (the largest entry of [RANK_BONUSES]), and the
    bonus when it is positive. *)
Definition baseCeiling (weaponRank masteryRank : Rank) (action : Action)
    (otherBonuses : Z) : Z :=
  JS.sum
    (map (fun diceConfig =>
            Z.max 0 (resolvedCount weaponRank masteryRank diceConfig)
            * dc_sides diceConfig)
       (dice (calculableFormula action)))
  + 50 * Z.of_nat (List.length (bonuses (calculableFormula action)))
  + Z.max 0 otherBonuses.

(** The largest bonus the statements about the whole catalog consider. *)
Definition BONUS_LIMIT : Z := 1000000.

(** ** Properties *)

(** *** Generic facts about the random-draw computations *)

Lemma bind_eq {T U : Type} (c : Rand T) (k : T -> Rand U) (pos : nat) :
  bind c k pos = k (fst (c pos)) (snd (c pos)).
Proof. unfold bind. destruct (c pos); reflexivity. Qed.

Lemma sum_from (l : list Z) (a : Z) : fold_left Z.add l a = a + JS.sum l.
Proof.
  unfold JS.sum. revert a.
  induction l as [|x l IH]; intro a; simpl.
  - lia.
  - rewrite (IH (a + x)), (IH x). lia.
Qed.

Lemma sum_cons (x : Z) (l : list Z) : JS.sum (x :: l) = x + JS.sum l.
Proof. unfold JS.sum at 1. simpl. rewrite sum_from. lia. Qed.

Lemma sum_app (l1 l2 : list Z) : JS.sum (l1 ++ l2) = JS.sum l1 + JS.sum l2.
Proof.
  induction l1 as [|x l1 IH]; simpl.
  - reflexivity.
  - rewrite !sum_cons, IH. lia.
Qed.

(** *** The final clamp *)

Lemma clamp_finite (q : Q) :
  JS.is_positive_integer (JS.max (JS.Fin 1) (JS.floor (JS.Fin q))).
Proof.
  unfold JS.is_positive_integer, JS.floor, JS.of_Z, JS.max.
  destruct (Qle_bool 1 (inject_Z (Qfloor q))) eqn:Hle.
  - exists (Qfloor q). split; [reflexivity|].
    apply Qle_bool_iff in Hle.
    change 1%Q with (inject_Z 1) in Hle.
    now rewrite <- Zle_Qle in Hle.
  - exists 1. split; [reflexivity | lia].
Qed.

Lemma result_is_clamped numberToString RANK_BONUSES random this action
    weaponRank masteryRank otherBonuses pos :
  let r :=
    fst (fst (calculateActionRoll numberToString RANK_BONUSES random this
                action weaponRank masteryRank otherBonuses pos)) in
  result r = JS.max (JS.Fin 1) (JS.floor (finalResult (details r))).
Proof.
  unfold calculateActionRoll. rewrite bind_eq.
  destruct (addOtherBonuses _ _) as [totalResult bonusBreakdown].
  rewrite bind_eq. reflexivity.
Qed.

(** C1: [calculateActionRoll] does not always return an integer [>= 1].  On
    the catalog's Ultra Counter at mastery rank E, with the d100 showing 30,
    the success bonus is read from a [bonusByRank] table that has no E entry,
    the running total becomes NaN and so does [result]. *)
Theorem C1_ultra_counter_rank_E_result_is_NaN :
  result (evaluate (replay [showing 30 100]) Actions.Ultra_Counter rE rE 0)
  = JS.NaN
  /\ ~ JS.is_positive_integer
         (result
            (evaluate (replay [showing 30 100]) Actions.Ultra_Counter rE rE 0)).
Proof.
  assert (H : result
                (evaluate (replay [showing 30 100]) Actions.Ultra_Counter
                   rE rE 0) = JS.NaN) by (vm_compute; reflexivity).
  split; [exact H|].
  rewrite H. intros [z [Hz _]]. discriminate Hz.
Qed.

(** *** Evaluations of concrete rolls *)

(** C3: the kept subset and the sum are as claimed, but the raw rolls are not
    kept.  On the catalog's Recover (2d20, keep highest 1) with the dice
    showing 5 then 18, [rollDice] hands back the kept subset only: the group
    records [rolls = [18]], [sum = 18], and the breakdown reads
    [2d20[18→18]]; the raw 5 appears nowhere in the result. *)
Theorem C3_recover_records_kept_rolls_only :
  let random := replay [showing 5 20; showing 18 20] in
  let run :=
    calculateActionRoll decimalString Actions.RANK_BONUSES random
      new_FormulaCalculator Actions.Recover rE rE 0 O in
  let r := fst (fst run) in
  fst (rollDie random 20 0%nat) = 5
  /\ fst (rollDie random 20 1%nat) = 18
  /\ snd run = 2%nat
  /\ map dg_rolls (diceGroups (details r)) = [[18]]
  /\ map dg_sum (diceGroups (details r)) = [18]
  /\ ~ In 5 (flat_map dg_rolls (diceGroups (details r)))
  /\ breakdown (details r) = "2d20[18→18]"%string.
Proof.
  vm_compute.
  repeat split; try reflexivity.
  intros [H|[]]. discriminate H.
Qed.

(** C2, as stated, fails: on Recover with the dice showing 5 then 18 the
    evaluation rolls two dice, whose faces sum to 23, and reports a raw dice
    total of 18. *)
Lemma C2_counterexample :
  let random := replay [showing 5 20; showing 18 20] in
  let run :=
    calculateActionRoll decimalString Actions.RANK_BONUSES random
      new_FormulaCalculator Actions.Recover rE rE 0 O in
  snd run = 2%nat
  /\ fst (rollDie random 20 0%nat) + fst (rollDie random 20 1%nat) = 23
  /\ rawDiceResult (fst (fst run)) = 18
  /\ rawDiceTotal (details (fst (fst run))) = 18.
Proof. vm_compute. repeat split; reflexivity. Qed.

(** C4, as stated, fails below the threshold: with the d100 showing 50 the
    total stays 50 and the modifier breakdown is empty, so the modifier is not
    recorded as "threshold not met". *)
Lemma C4_counterexample :
  let r := evaluate (replay [showing 50 100]) critical_probe rS rS 0 in
  finalResult (details r) = JS.Fin 50
  /\ modifierBreakdown (details r) = []
  /\ breakdown (details r) = "1d100[50]"%string.
Proof. vm_compute. repeat split; reflexivity. Qed.

(** C6, as stated, fails when the target dice count is not positive: rate 40
    and bonus 85 give [k = 2 > 0], but with [convertToDice.count = 0] no die
    is rolled and the total stays 100 instead of becoming 100 - 85 + 0 + 5. *)
Lemma C6_counterexample :
  let run :=
    applyModifier decimalString (replay [])
      (BonusConversion 40 {| ds_count := 0; ds_sides := 100 |})
      (JS.Fin 100) [] rE rE 85 O in
  0 < 85 / 40
  /\ mr_result (fst run) = JS.Fin 100
  /\ snd run = O
  /\ ~ (100 == 100 - 85 + 0 + inject_Z (Z.rem 85 40))%Q.
Proof.
  vm_compute. repeat split; try reflexivity. discriminate.
Qed.

(** C7, as stated, fails on a zero entry: at mastery rank D the table's D
    entry is present and equal to 0, yet the count resolves to the E entry 2
    and two dice are rolled. *)
Lemma C7_counterexample :
  let random := replay [showing 7 100; showing 9 100] in
  let run :=
    rollGroup decimalString random rE rD zero_entry_group
      {| dp_totalResult := JS.Fin 0;
         dp_rawDiceTotal := 0;
         dp_diceGroups := [] |} O in
  rankObject [(rE, 2); (rD, 0)] rD = Some 0
  /\ groupCount zero_entry_group rE rD = Some 2
  /\ map dg_rolls (dp_diceGroups (fst run)) = [[7; 9]]
  /\ dp_rawDiceTotal (fst run) = 16.
Proof. vm_compute. repeat split; reflexivity. Qed.

(** *** Rolling dice *)

Section Rolling.

Variable random : nat -> Q.

Lemma rollMany_length (n : nat) (sides : Z) (pos : nat) :
  List.length (fst (rollMany random n sides pos)) = n
  /\ snd (rollMany random n sides pos) = (pos + n)%nat.
Proof.
  revert pos. induction n as [|n IH]; intro pos; simpl.
  - split; [reflexivity | lia].
  - rewrite bind_eq. cbn [rollDie fst snd]. rewrite bind_eq.
    destruct (IH (S pos)) as [Hlen Hpos].
    unfold ret; cbn [fst snd List.length]. rewrite Hlen, Hpos. split; lia.
Qed.

Lemma count_ge_le_length (threshold : Z) (rolls : list Z) :
  (count_ge threshold rolls <= List.length rolls)%nat.
Proof. unfold count_ge. apply filter_length_le. Qed.

(** Every roll of a die with at least one side lies in [1, sides]. *)
Lemma rollDie_range (sides : Z) (pos : nat) :
  unit_interval random -> 1 <= sides ->
  1 <= fst (rollDie random sides pos) <= sides.
Proof.
  intros Hunit Hsides. destruct (Hunit pos) as [H0 H1]. cbn [rollDie fst].
  assert (Hs : (0 < inject_Z sides)%Q).
  { change 0%Q with (inject_Z 0). rewrite <- Zlt_Qlt. lia. }
  assert (Hlo : (0 <= random pos * inject_Z sides)%Q).
  { apply Qmult_le_0_compat; [exact H0 | apply Qlt_le_weak, Hs]. }
  assert (Hhi : (random pos * inject_Z sides < inject_Z sides)%Q).
  { rewrite <- (Qmult_1_l (inject_Z sides)) at 2.
    apply Qmult_lt_compat_r; assumption. }
  split.
  - apply Qfloor_resp_le in Hlo. change (Qfloor 0) with 0 in Hlo. lia.
  - pose proof (Qfloor_le (random pos * inject_Z sides)) as Hfl.
    assert (Hlt : (inject_Z (Qfloor (random pos * inject_Z sides))
                   < inject_Z sides)%Q)
      by (eapply Qle_lt_trans; eassumption).
    rewrite <- Zlt_Qlt in Hlt. lia.
Qed.

Lemma rollMany_one_sided (n : nat) (pos : nat) :
  unit_interval random -> fst (rollMany random n 1 pos) = repeat 1 n.
Proof.
  intro Hunit. revert pos. induction n as [|n IH]; intro pos; simpl.
  - reflexivity.
  - rewrite bind_eq, bind_eq. unfold ret; cbn [fst snd].
    rewrite IH. f_equal.
    pose proof (rollDie_range 1 pos Hunit ltac:(lia)). lia.
Qed.

Lemma count_ge_repeat (threshold face : Z) (n : nat) :
  threshold <= face -> count_ge threshold (repeat face n) = n.
Proof.
  intro H. unfold count_ge. induction n as [|n IH]; simpl.
  - reflexivity.
  - destruct (Z.leb_spec threshold face); [simpl; now rewrite IH | lia].
Qed.

(** The cascade loop leaves with its condition false, after at most
    [maxIterations] rounds, each of which rolls no more dice than the round
    before. *)
Lemma cascade_bound (threshold sides : Z) (maxIterations : nat) :
  forall (st : Cascade) (pos : nat),
    let run := cascade random threshold sides maxIterations st pos in
    let remaining := fst (fst run) in
    let st' := snd (fst run) in
    (remaining <= maxIterations)%nat
    /\ (currentExplosions st' = 0 \/ remaining = 0)%nat
    /\ (snd run
        <= pos + (maxIterations - remaining) * currentExplosions st)%nat
    /\ (List.length (allExplosionRolls st')
        = List.length (allExplosionRolls st) + (snd run - pos))%nat
    /\ (pos <= snd run)%nat.
Proof.
  induction maxIterations as [|m IH]; intros st pos; cbn zeta.
  - cbn [cascade]; unfold ret; cbn [fst snd]. repeat split; lia.
  - cbn [cascade].
    destruct (Nat.ltb_spec 0 (currentExplosions st)) as [Hpos|Hzero].
    + rewrite bind_eq.
      destruct (rollMany_length (currentExplosions st) sides pos)
        as [Hlen Hnext].
      set (newRolls := fst (rollMany random (currentExplosions st) sides pos))
        in *.
      rewrite Hnext.
      match goal with
      | |- context [cascade random threshold sides m ?s ?p] =>
          specialize (IH s p); cbn zeta in IH;
          destruct (cascade random threshold sides m s p)
            as [[remaining st'] pos'] eqn:Hrun
      end.
      cbn [fst snd currentExplosions allExplosionRolls] in *.
      destruct IH as (Hrem & Hexit & Hdraws & Hrolls & Hmono).
      rewrite length_app, Hlen in Hrolls.
      pose proof (count_ge_le_length threshold newRolls) as Hle.
      rewrite Hlen in Hle.
      assert (Hmul : ((m - remaining) * count_ge threshold newRolls
                      <= (m - remaining) * currentExplosions st)%nat)
        by (apply Nat.mul_le_mono_l; exact Hle).
      replace (S m - remaining)%nat with (S (m - remaining)) by lia.
      cbn [Nat.mul].
      repeat split; lia.
    + unfold ret; cbn [fst snd]. repeat split; lia.
Qed.

(** With a one-sided extra die and a threshold of at most 1 every extra roll
    explodes again: the loop uses all of its rounds. *)
Lemma cascade_one_sided (threshold : Z) (maxIterations : nat) :
  unit_interval random -> threshold <= 1 ->
  forall (st : Cascade) (pos : nat),
    (0 < currentExplosions st)%nat ->
    let run := cascade random threshold 1 maxIterations st pos in
    fst (fst run) = O
    /\ snd run = (pos + maxIterations * currentExplosions st)%nat
    /\ allExplosionRolls (snd (fst run))
       = (allExplosionRolls st
          ++ repeat 1 (maxIterations * currentExplosions st))%list.
Proof.
  intros Hunit Hthr.
  induction maxIterations as [|m IH]; intros st pos Hpos; cbn zeta.
  - cbn [cascade]; unfold ret; cbn [fst snd Nat.mul repeat]. rewrite app_nil_r.
    repeat split; lia.
  - cbn [cascade].
    destruct (Nat.ltb_spec 0 (currentExplosions st)) as [_|Hzero]; [|lia].
    rewrite bind_eq.
    destruct (rollMany_length (currentExplosions st) 1 pos) as [_ Hnext].
    rewrite Hnext, (rollMany_one_sided _ pos Hunit).
    rewrite (count_ge_repeat threshold 1 _ Hthr).
    match goal with
    | |- context [cascade random threshold 1 m ?s ?p] =>
        specialize (IH s p); cbn zeta in IH
    end.
    cbn [currentExplosions allExplosionRolls] in IH.
    destruct (IH Hpos) as (Hrem & Hdraws & Hrolls).
    rewrite Hrem, Hdraws, Hrolls.
    repeat split; try lia.
    rewrite <- app_assoc, <- repeat_app. reflexivity.
Qed.

(** [cascade] computes the run of the loop started with
    [maxIterations] rounds left: the loop leaves after
    [maxIterations - remaining] rounds in the state [cascade] returns. *)
Lemma cascade_runs (threshold sides : Z) (maxIterations : nat) :
  forall (st : Cascade) (pos : nat),
    let run := cascade random threshold sides maxIterations st pos in
    while_runs random threshold sides (maxIterations - fst (fst run))
      {| ls_vars := st;
         ls_maxIterations := Z.of_nat maxIterations;
         ls_draws := pos |}
      {| ls_vars := snd (fst run);
         ls_maxIterations := Z.of_nat (fst (fst run));
         ls_draws := snd run |}.
Proof.
  induction maxIterations as [|m IH]; intros st pos; cbn zeta.
  - cbn [cascade]. unfold ret. cbn [fst snd Nat.sub].
    apply while_exit. unfold loop_condition. cbn [ls_maxIterations].
    apply andb_false_r.
  - pose proof (cascade_bound threshold sides (S m) st pos) as Hbound.
    cbn zeta in Hbound. destruct Hbound as (Hrem & _).
    revert Hrem. cbn [cascade].
    destruct (Nat.ltb_spec 0 (currentExplosions st)) as [Hpos|Hzero].
    + rewrite bind_eq. intro Hrem.
      match goal with
      | |- context [cascade random threshold sides m ?s ?p] =>
          set (next := s) in *; set (pos' := p) in *
      end.
      specialize (IH next pos'). cbn zeta in IH.
      pose proof (cascade_bound threshold sides m next pos') as Hm.
      cbn zeta in Hm. destruct Hm as (Hle & _).
      replace (S m - fst (fst (cascade random threshold sides m next pos')))%nat
        with (S (m - fst (fst (cascade random threshold sides m next pos'))))
        by lia.
      apply while_round.
      * unfold loop_condition. cbn [ls_vars ls_maxIterations].
        apply andb_true_intro. split.
        -- now apply Nat.ltb_lt.
        -- apply Z.ltb_lt. lia.
      * unfold loop_body. cbn [ls_vars ls_maxIterations ls_draws].
        replace (Z.of_nat (S m) - 1) with (Z.of_nat m) by lia.
        exact IH.
    + unfold ret. cbn [fst snd]. intros _. rewrite Nat.sub_diag.
      apply while_exit. unfold loop_condition. cbn [ls_vars].
      destruct (Nat.ltb_spec 0 (currentExplosions st)); [lia|reflexivity].
Qed.

Lemma while_runs_exit (threshold sides : Z) (n : nat) (s s' : LoopState) :
  while_runs random threshold sides n s s' -> loop_condition s' = false.
Proof. induction 1; assumption. Qed.

(** The loop is deterministic: a start state has one run. *)
Lemma while_runs_unique (threshold sides : Z) (n1 n2 : nat)
    (s s1 s2 : LoopState) :
  while_runs random threshold sides n1 s s1 ->
  while_runs random threshold sides n2 s s2 ->
  n1 = n2 /\ s1 = s2.
Proof.
  intro H1. revert n2 s2.
  induction H1 as [s Hexit | n s s1 Hcond _ IH]; intros n2 s2 H2.
  - destruct H2 as [s _ | n2 s s2 Hcond _]; [split; reflexivity|].
    rewrite Hexit in Hcond. discriminate.
  - destruct H2 as [s Hexit | n2 s s2 _ H2].
    + rewrite Hexit in Hcond. discriminate.
    + destruct (IH n2 s2 H2) as [-> ->]. split; reflexivity.
Qed.

End Rolling.

(** C5: the cascade of an explosion runs at most 10 rounds and
    [applyModifier] returns on every explosion modifier.  Started with
    [maxIterations = 10] in any state of its variables, the [while] loop
    leaves after at most 10 rounds, in the state the calculator goes on
    with; the whole call rolls at most 10 extra dice per triggering die; and
    when every extra die explodes again (one side, threshold at most 1) it
    stops after exactly 10 rounds of rolls. *)
Theorem C5_explosion_cascade_terminates
    (numberToString : JS.num -> string) (random : nat -> Q)
    (threshold : Z) (chance : option Q) (extraDice : DiceSpec)
    (currentResult : JS.num) (allRolls : list Z)
    (weaponRank masteryRank : Rank) (otherBonuses : Z) (pos : nat) :
  let explosions := count_ge threshold allRolls in
  let run :=
    applyModifier numberToString random
      (Explosion threshold chance extraDice) currentResult allRolls
      weaponRank masteryRank otherBonuses pos in
  let rolls :=
    match mr_explosionRolls (fst run) with
    | Some rolls => rolls
    | None => []
    end in
  (forall (st : Cascade) (p : nat),
      exists (rounds : nat) (final : LoopState),
        while_runs random threshold (ds_sides extraDice) rounds
          {| ls_vars := st; ls_maxIterations := 10; ls_draws := p |} final
        /\ (rounds <= 10)%nat
        /\ loop_condition final = false
        /\ (ls_draws final <= p + rounds * currentExplosions st)%nat
        /\ cascade random threshold (ds_sides extraDice) 10 st p
           = (Z.to_nat (ls_maxIterations final), ls_vars final,
              ls_draws final))
  /\ (pos <= snd run <= pos + 10 * explosions)%nat
  /\ List.length rolls = (snd run - pos)%nat
  /\ (unit_interval random -> ds_sides extraDice = 1 -> threshold <= 1 ->
      snd run = (pos + 10 * explosions)%nat
      /\ rolls = repeat 1 (10 * explosions)).
Proof.
  cbn zeta. split.
  { intros st p.
    pose proof (cascade_bound random threshold (ds_sides extraDice) 10 st p)
      as Hbound.
    pose proof (cascade_runs random threshold (ds_sides extraDice) 10 st p)
      as Hruns.
    cbn zeta in Hbound, Hruns.
    destruct (cascade random threshold (ds_sides extraDice) 10 st p)
      as [[remaining st'] p'].
    cbn [fst snd] in Hbound, Hruns.
    destruct Hbound as (Hrem & _ & Hdraws & _).
    eexists. eexists. split; [exact Hruns|].
    cbn [ls_draws ls_maxIterations ls_vars].
    split; [lia|].
    split; [exact (while_runs_exit _ _ _ _ _ _ Hruns)|].
    split; [exact Hdraws|].
    now rewrite Nat2Z.id. }
  unfold applyModifier.
  destruct (Nat.ltb_spec 0 (count_ge threshold allRolls)) as [Hpos|Hzero].
  - rewrite bind_eq. unfold ret. cbn [fst snd mr_explosionRolls].
    match goal with
    | |- context [cascade random threshold _ 10 ?s pos] =>
        pose proof (cascade_bound random threshold (ds_sides extraDice) 10
                      s pos) as H;
        pose proof (fun Hu Ht =>
                      cascade_one_sided random threshold 10 Hu Ht s pos)
          as Hone
    end.
    cbn zeta in H, Hone. cbn [currentExplosions allExplosionRolls] in H, Hone.
    destruct H as (Hrem & _ & Hdraws & Hrolls & Hmono).
    cbn [List.length Nat.add] in Hrolls.
    match type of Hdraws with
    | (_ <= _ + (10 - ?r) * ?c)%nat =>
        assert (Hmul : ((10 - r) * c <= 10 * c)%nat)
          by (apply Nat.mul_le_mono_r; lia)
    end.
    split; [lia|]. split; [lia|].
    intros Hunit Hsides Hthr. rewrite Hsides.
    destruct (Hone Hunit Hthr Hpos) as (_ & Hd & Hr).
    split; assumption.
  - unfold ret, plain. cbn [fst snd mr_explosionRolls List.length].
    assert (Hnone : count_ge threshold allRolls = O) by lia.
    rewrite Hnone. repeat split; lia.
Qed.

Lemma replay_nothing_unit_interval : unit_interval (replay []).
Proof.
  intro i. unfold replay. destruct i; cbn [nth]; split;
    solve [apply Qle_refl | reflexivity].
Qed.

(** Two triggering dice, a one-sided extra die and threshold 1: twenty extra
    dice are rolled, ten rounds of two. *)
Lemma C5_witness :
  snd (applyModifier decimalString (replay [])
         (Explosion 1 None {| ds_count := 1; ds_sides := 1 |})
         (JS.Fin 2) [1; 1] rE rE 0 O) = 20%nat.
Proof.
  refine (proj1 (proj2 (proj2 (proj2
    (C5_explosion_cascade_terminates decimalString (replay []) 1 None
       {| ds_count := 1; ds_sides := 1 |} (JS.Fin 2) [1; 1] rE rE 0 O)))
    replay_nothing_unit_interval eq_refl _)).
  lia.
Defined.

(** *** The modifier loop *)

Section ModifierLoop.

Variable numberToString : JS.num -> string.
Variable random : nat -> Q.

Lemma applyModifiers_app (before after : list Modifier) (allRolls : list Z)
    (weaponRank masteryRank : Rank) (otherBonuses : Z) :
  forall (st : ModifierPhase) (pos : nat),
    applyModifiers numberToString random (before ++ after) allRolls
      weaponRank masteryRank otherBonuses st pos
    = applyModifiers numberToString random after allRolls weaponRank
        masteryRank otherBonuses
        (fst (applyModifiers numberToString random before allRolls
                weaponRank masteryRank otherBonuses st pos))
        (snd (applyModifiers numberToString random before allRolls
                weaponRank masteryRank otherBonuses st pos)).
Proof.
  induction before as [|m before IH]; intros st pos.
  - reflexivity.
  - cbn [app applyModifiers]. rewrite !bind_eq. apply IH.
Qed.

(** Recording a result that keeps the total, with value 0 and multiplier 1,
    for a modifier that is not an explosion, changes nothing. *)
Lemma recordModifier_unchanged (m : Modifier) (text : string)
    (st : ModifierPhase) :
  String.eqb (modifier_type m) "explosion" = false ->
  recordModifier m (plain (mp_finalResult st) text one zero) st = st.
Proof.
  intro Htype. unfold recordModifier, is_recorded. rewrite Htype.
  destruct st; reflexivity.
Qed.

End ModifierLoop.

(** C9: an [aoe_divisor] and a [conditional] modifier are no-ops.  Each
    returns the running total it was given without drawing a die, and an
    action evaluates to the same result record, on the same instance and
    with the same draws, with or without such a modifier in its list. *)
Theorem C9_aoe_divisor_and_conditional_are_noops
    (numberToString : JS.num -> string) (RANK_BONUSES : Rank -> Q)
    (random : nat -> Q) (this : FormulaCalculator) (action : Action)
    (before after : list Modifier) (divisor : Q) (condition : string)
    (value : Q) (weaponRank masteryRank : Rank) (otherBonuses : Z)
    (pos : nat) :
  (forall (currentResult : JS.num) (allRolls : list Z) (p : nat),
      let aoe :=
        applyModifier numberToString random (AoeDivisor divisor)
          currentResult allRolls weaponRank masteryRank otherBonuses p in
      let cond :=
        applyModifier numberToString random (Conditional condition value)
          currentResult allRolls weaponRank masteryRank otherBonuses p in
      mr_result (fst aoe) = currentResult /\ snd aoe = p
      /\ mr_result (fst cond) = currentResult /\ snd cond = p)
  /\ calculateActionRoll numberToString RANK_BONUSES random this
       (with_modifiers action (Some (before ++ AoeDivisor divisor :: after)))
       weaponRank masteryRank otherBonuses pos
     = calculateActionRoll numberToString RANK_BONUSES random this
         (with_modifiers action (Some (before ++ after)))
         weaponRank masteryRank otherBonuses pos
  /\ calculateActionRoll numberToString RANK_BONUSES random this
       (with_modifiers action
          (Some (before ++ Conditional condition value :: after)))
       weaponRank masteryRank otherBonuses pos
     = calculateActionRoll numberToString RANK_BONUSES random this
         (with_modifiers action (Some (before ++ after)))
         weaponRank masteryRank otherBonuses pos.
Proof.
  split; [intros; cbn; tauto|].
  assert (Hskip : forall m text,
             String.eqb (modifier_type m) "explosion" = false ->
             (forall cur allRolls p,
                 applyModifier numberToString random m cur allRolls
                   weaponRank masteryRank otherBonuses p
                 = (plain cur text one zero, p)) ->
             forall allRolls st p,
               applyModifiers numberToString random (before ++ m :: after)
                 allRolls weaponRank masteryRank otherBonuses st p
               = applyModifiers numberToString random (before ++ after)
                   allRolls weaponRank masteryRank otherBonuses st p).
  { intros m text Htype Hstep allRolls st p.
    rewrite !applyModifiers_app. cbn [applyModifiers].
    rewrite bind_eq, Hstep. cbn [fst snd].
    now rewrite recordModifier_unchanged. }
  unfold calculateActionRoll, with_modifiers.
  cbn [calculableFormula dice bonuses modifiers].
  split.
  - rewrite !bind_eq.
    destruct (addOtherBonuses _ _) as [totalResult bonusBreakdown].
    rewrite !bind_eq.
    now rewrite (Hskip (AoeDivisor divisor) "Single target"%string).
  - rewrite !bind_eq.
    destruct (addOtherBonuses _ _) as [totalResult bonusBreakdown].
    rewrite !bind_eq.
    now rewrite (Hskip (Conditional condition value)
                   "Conditional not met"%string).
Qed.

(** *** Evaluation depends on the die source through its outcomes only *)

Section TwoSources.

Variable numberToString : JS.num -> string.
Variables random1 random2 : nat -> Q.

Local Abbreviation same := (same_run random1 random2).

Lemma agree_advance (p1 p2 k : nat) :
  agree random1 random2 p1 p2 ->
  agree random1 random2 (p1 + k) (p2 + k).
Proof.
  intros H i. rewrite <- !Nat.add_assoc. apply H.
Qed.

Lemma same_ret {T : Type} (x : T) : same (ret x) (ret x).
Proof.
  intros p1 p2 _. split; [reflexivity|].
  exists O. unfold ret. cbn [snd]. split; lia.
Qed.

Lemma same_bind {T U : Type} (c1 c2 : Rand T) (k1 k2 : T -> Rand U) :
  same c1 c2 -> (forall x, same (k1 x) (k2 x)) ->
  same (bind c1 k1) (bind c2 k2).
Proof.
  intros Hc Hk p1 p2 Hagree.
  destruct (Hc p1 p2 Hagree) as (Hval & n & Hp1 & Hp2).
  rewrite !bind_eq, Hp1, Hp2, Hval.
  destruct (Hk (fst (c2 p2)) _ _ (agree_advance p1 p2 n Hagree))
    as (Hval' & n' & Hq1 & Hq2).
  split; [exact Hval'|].
  exists (n + n')%nat. rewrite Hq1, Hq2. split; lia.
Qed.

Lemma same_rollDie (sides : Z) :
  same (rollDie random1 sides) (rollDie random2 sides).
Proof.
  intros p1 p2 Hagree. cbn [rollDie fst snd].
  pose proof (Hagree O) as H0. rewrite !Nat.add_0_r in H0. rewrite H0.
  split; [reflexivity|]. exists 1%nat. split; lia.
Qed.

Lemma same_rollMany (n : nat) (sides : Z) :
  same (rollMany random1 n sides) (rollMany random2 n sides).
Proof.
  induction n as [|n IH]; cbn [rollMany].
  - apply same_ret.
  - apply same_bind; [apply same_rollDie|]. intro roll.
    apply same_bind; [exact IH|]. intro rest. apply same_ret.
Qed.

Lemma same_rollDice (diceConfig : DiceConfig) :
  same (rollDice random1 diceConfig) (rollDice random2 diceConfig).
Proof.
  unfold rollDice.
  destruct (_ <=? 0); [apply same_ret|].
  apply same_bind; [apply same_rollMany|]. intro rolls.
  destruct (dc_keepHighest diceConfig) as [k|];
    [destruct (Z_is_zero k)|]; apply same_ret.
Qed.

Lemma same_cascade (threshold sides : Z) (maxIterations : nat) :
  forall st : Cascade,
    same (cascade random1 threshold sides maxIterations st)
      (cascade random2 threshold sides maxIterations st).
Proof.
  induction maxIterations as [|m IH]; intro st; cbn [cascade].
  - apply same_ret.
  - destruct (0 <? currentExplosions st)%nat; [|apply same_ret].
    apply same_bind; [apply same_rollMany|]. intro newRolls. apply IH.
Qed.

Lemma same_applyModifier (modifier : Modifier) (currentResult : JS.num)
    (allRolls : list Z) (weaponRank masteryRank : Rank) (otherBonuses : Z) :
  same
    (applyModifier numberToString random1 modifier currentResult allRolls
       weaponRank masteryRank otherBonuses)
    (applyModifier numberToString random2 modifier currentResult allRolls
       weaponRank masteryRank otherBonuses).
Proof.
  destruct modifier; cbn [applyModifier]; try apply same_ret.
  - destruct (JS.ge currentResult _); apply same_ret.
  - destruct (JS.ge currentResult _); [apply same_ret|].
    destruct (Q_truthy failureBonus); apply same_ret.
  - destruct (0 <? count_ge threshold allRolls)%nat; [|apply same_ret].
    apply same_bind; [apply same_cascade|]. intro final. apply same_ret.
  - destruct (0 <? _); [|apply same_ret].
    apply same_bind; [apply same_rollMany|]. intro rolls. apply same_ret.
Qed.

Lemma same_applyModifiers (mods : list Modifier) (allRolls : list Z)
    (weaponRank masteryRank : Rank) (otherBonuses : Z) :
  forall st : ModifierPhase,
    same
      (applyModifiers numberToString random1 mods allRolls weaponRank
         masteryRank otherBonuses st)
      (applyModifiers numberToString random2 mods allRolls weaponRank
         masteryRank otherBonuses st).
Proof.
  induction mods as [|m mods IH]; intro st; cbn [applyModifiers].
  - apply same_ret.
  - apply same_bind; [apply same_applyModifier|]. intro res. apply IH.
Qed.

Lemma same_rollGroup (weaponRank masteryRank : Rank)
    (diceConfig : DiceConfig) (st : DicePhase) :
  same (rollGroup numberToString random1 weaponRank masteryRank diceConfig st)
    (rollGroup numberToString random2 weaponRank masteryRank diceConfig st).
Proof.
  unfold rollGroup.
  destruct (groupCount diceConfig weaponRank masteryRank) as [count|];
    [|apply same_ret].
  destruct (0 <? count); [|apply same_ret].
  apply same_bind; [apply same_rollDice|]. intro rolls. apply same_ret.
Qed.

Lemma same_rollGroups (weaponRank masteryRank : Rank)
    (configs : list DiceConfig) :
  forall st : DicePhase,
    same
      (rollGroups numberToString random1 weaponRank masteryRank configs st)
      (rollGroups numberToString random2 weaponRank masteryRank configs st).
Proof.
  induction configs as [|cfg configs IH]; intro st; cbn [rollGroups].
  - apply same_ret.
  - apply same_bind; [apply same_rollGroup|]. intro st'. apply IH.
Qed.

Lemma same_calculateActionRoll (RANK_BONUSES : Rank -> Q)
    (this1 this2 : FormulaCalculator) (action : Action)
    (weaponRank masteryRank : Rank) (otherBonuses : Z) :
  same
    (calculateActionRoll numberToString RANK_BONUSES random1 this1 action
       weaponRank masteryRank otherBonuses)
    (calculateActionRoll numberToString RANK_BONUSES random2 this2 action
       weaponRank masteryRank otherBonuses).
Proof.
  unfold calculateActionRoll.
  apply same_bind; [apply same_rollGroups|]. intro rolled.
  destruct (addOtherBonuses _ _) as [totalResult bonusBreakdown].
  apply same_bind; [apply same_applyModifiers|]. intro modified.
  apply same_ret.
Qed.

End TwoSources.

(** C8: evaluation is deterministic given the die source.  Two calls with the
    same action, ranks and bonus, on any two calculator instances (whatever
    earlier calls left in them) and any two die sources that deliver the same
    outcomes from the positions at which the calls start, return the same
    result record, leave the instance in the same state and draw the same
    number of dice. *)
Theorem C8_evaluation_is_deterministic
    (numberToString : JS.num -> string) (RANK_BONUSES : Rank -> Q)
    (random1 random2 : nat -> Q) (this1 this2 : FormulaCalculator)
    (action : Action) (weaponRank masteryRank : Rank) (otherBonuses : Z)
    (p1 p2 : nat) :
  agree random1 random2 p1 p2 ->
  let run1 :=
    calculateActionRoll numberToString RANK_BONUSES random1 this1 action
      weaponRank masteryRank otherBonuses p1 in
  let run2 :=
    calculateActionRoll numberToString RANK_BONUSES random2 this2 action
      weaponRank masteryRank otherBonuses p2 in
  fst (fst run1) = fst (fst run2)
  /\ snd (fst run1) = snd (fst run2)
  /\ (snd run1 - p1 = snd run2 - p2)%nat.
Proof.
  intros Hagree run1 run2.
  destruct (same_calculateActionRoll numberToString random1 random2
              RANK_BONUSES this1 this2 action weaponRank masteryRank
              otherBonuses p1 p2 Hagree) as (Hval & k & Hp1 & Hp2).
  fold run1 in Hval, Hp1. fold run2 in Hval, Hp2.
  rewrite Hval, Hp1, Hp2. repeat split; lia.
Qed.

(** The same two dice, read by a fresh instance from the start of one source
    and by a used instance from the third draw of another. *)
Lemma C8_witness :
  fst (fst (calculateActionRoll decimalString Actions.RANK_BONUSES
              (replay [showing 5 20; showing 18 20]) new_FormulaCalculator
              Actions.Recover rE rE 0 0%nat))
  = fst (fst (calculateActionRoll decimalString Actions.RANK_BONUSES
                (replay [showing 3 20; showing 11 20; showing 5 20;
                         showing 18 20])
                {| rollHistory := Some [4; 2] |}
                Actions.Recover rE rE 0 2%nat)).
Proof.
  refine (proj1
    (C8_evaluation_is_deterministic decimalString Actions.RANK_BONUSES
       (replay [showing 5 20; showing 18 20])
       (replay [showing 3 20; showing 11 20; showing 5 20; showing 18 20])
       new_FormulaCalculator {| rollHistory := Some [4; 2] |}
       Actions.Recover rE rE 0 0%nat 2%nat _)).
  intro i. reflexivity.
Defined.

(** *** The [chance] of an explosion *)



(** The first round of the cascade rolls one die for each pending
    explosion, and no round removes a roll. *)
Lemma cascade_first_round (random : nat -> Q) (threshold sides : Z)
    (m : nat) (st : Cascade) (pos : nat) :
  (List.length (allExplosionRolls st) + currentExplosions st
   <= List.length
        (allExplosionRolls
           (snd (fst (cascade random threshold sides (S m) st pos)))))%nat.
Proof.
  cbn [cascade].
  destruct (Nat.ltb_spec 0 (currentExplosions st)) as [Hpos|Hzero].
  - rewrite bind_eq.
    destruct (rollMany_length random (currentExplosions st) sides pos)
      as [Hlen Hnext].
    match goal with
    | |- context [cascade random threshold sides m ?s ?p] =>
        pose proof (cascade_bound random threshold sides m s p) as H
    end.
    cbn zeta in H. cbn [currentExplosions allExplosionRolls] in H.
    destruct H as (_ & _ & _ & Hrolls & _).
    rewrite Hrolls, length_app, Hlen. lia.
  - unfold ret. cbn [fst snd]. lia.
Qed.

(** At least one extra die is rolled for each die that triggers. *)
Lemma explosion_rolls_per_trigger (numberToString : JS.num -> string)
    (random : nat -> Q) (threshold : Z) (chance : option Q)
    (extraDice : DiceSpec) (currentResult : JS.num) (allRolls : list Z)
    (weaponRank masteryRank : Rank) (otherBonuses : Z) (pos : nat) :
  let run :=
    applyModifier numberToString random
      (Explosion threshold chance extraDice) currentResult allRolls
      weaponRank masteryRank otherBonuses pos in
  (count_ge threshold allRolls
   <= List.length
        match mr_explosionRolls (fst run) with
        | Some rolls => rolls
        | None => []
        end)%nat.
Proof.
  cbn zeta. unfold applyModifier.
  destruct (Nat.ltb_spec 0 (count_ge threshold allRolls)) as [Hpos|Hzero].
  - rewrite bind_eq. unfold ret. cbn [fst snd mr_explosionRolls].
    match goal with
    | |- context [cascade random threshold ?sides 10 ?s ?p] =>
        pose proof (cascade_first_round random threshold sides 9 s p) as H
    end.
    cbn [currentExplosions allExplosionRolls List.length Nat.add] in H.
    exact H.
  - unfold ret, plain. cbn [fst mr_explosionRolls List.length]. lia.
Qed.

(** *** Single modifiers *)

(** C4 (amended): a [threshold_multiplier] draws no die.  When the running
    total is at or above the threshold it is multiplied by the factor, which
    for a per-rank map is the entry of the mastery rank if present and
    non-zero and the E entry otherwise; the result is described as
    "<rank> Critical" and, when the factor differs from 1, pushed on the
    modifier breakdown.  Below the threshold the total is unchanged, the
    result object is described as "Threshold <n> not met", and nothing is
    pushed on the modifier breakdown. *)
Theorem C4_threshold_multiplier
    (numberToString : JS.num -> string) (random : nat -> Q)
    (threshold : Q) (multiplierByRank : option (RankMap Q))
    (multiplier : option Q) (currentResult : JS.num) (allRolls : list Z)
    (weaponRank masteryRank : Rank) (otherBonuses : Z) (pos : nat)
    (st : ModifierPhase) :
  let m := ThresholdMultiplier threshold multiplierByRank multiplier in
  let factor : option JS.num :=
    option_map JS.Fin
      match multiplierByRank with
      | Some table =>
          match table masteryRank with
          | Some entry => if Qeq_bool entry 0 then table rE else Some entry
          | None => table rE
          end
      | None => multiplier
      end in
  let run :=
    applyModifier numberToString random m currentResult allRolls weaponRank
      masteryRank otherBonuses pos in
  let recorded := recordModifier m (fst run) st in
  snd run = pos
  /\ (JS.ge currentResult (JS.Fin threshold) = true ->
      mr_result (fst run) = JS.mul currentResult (JS.toNumber factor)
      /\ mp_finalResult recorded = JS.mul currentResult (JS.toNumber factor)
      /\ mr_details (fst run) = (rank_name masteryRank ++ " Critical")%string
      /\ (JS.strict_neq factor 1 = true ->
          mp_modifierBreakdown recorded
          = (mp_modifierBreakdown st
             ++ [{| me_type := "threshold_multiplier";
                    me_description :=
                      (rank_name masteryRank ++ " Critical")%string;
                    me_value := JS.Fin 0;
                    me_multiplier := JS.or_default factor (JS.Fin 1);
                    me_explosionRolls := [] |}])%list))
  /\ (JS.ge currentResult (JS.Fin threshold) = false ->
      mr_result (fst run) = currentResult
      /\ mp_finalResult recorded = currentResult
      /\ mr_details (fst run)
         = ("Threshold " ++ numberToString (JS.Fin threshold)
            ++ " not met")%string
      /\ mp_modifierBreakdown recorded = mp_modifierBreakdown st).
Proof.
  cbn zeta. unfold applyModifier.
  destruct (JS.ge currentResult (JS.Fin threshold)); unfold ret;
    cbn [fst snd].
  - split; [reflexivity|]. split; [|discriminate].
    intros _. unfold recordModifier, is_recorded, plain.
    cbn [mr_result mr_details mr_value mr_multiplier mr_explosionRolls
         modifier_type].
    change (lookup_or_E Q_is_zero) with
      (fun (table : RankMap Q) (rank : Rank) =>
         match table rank with
         | Some entry => if Qeq_bool entry 0 then table rE else Some entry
         | None => table rE
         end).
    cbn beta.
    set (factor := option_map JS.Fin _).
    change (JS.strict_neq zero 0) with false.
    change (String.eqb "threshold_multiplier" "explosion") with false.
    rewrite orb_false_r. cbn [orb].
    split; [reflexivity|].
    split; [destruct (JS.strict_neq factor 1); reflexivity|].
    split; [reflexivity|].
    intro Hrec. rewrite Hrec. reflexivity.
  - split; [reflexivity|]. split; [discriminate|].
    intros _. unfold recordModifier, is_recorded, plain.
    cbn [mr_result mr_details mr_value mr_multiplier mr_explosionRolls
         modifier_type].
    repeat split; reflexivity.
Qed.

(** The specification's scenario (total 90, threshold 85, factor 2.0 at rank
    S) and the same modifier on a total of 50. *)
Lemma C4_witness :
  let m := ThresholdMultiplier 85 (Some (rankObject [(rS, 2.0%Q)])) None in
  let start :=
    {| mp_finalResult := JS.Fin 90;
       mp_rawDiceTotal := 90;
       mp_modifierBreakdown := [];
       mp_explosionRolls := [] |} in
  mr_result
    (fst (applyModifier decimalString (replay []) m (JS.Fin 90) [90] rS rS 0
            O))
  = JS.mul (JS.Fin 90) (JS.Fin 2.0)
  /\ mp_modifierBreakdown
       (recordModifier m
          (fst (applyModifier decimalString (replay []) m (JS.Fin 50) [50]
                  rS rS 0 O))
          start)
     = [].
Proof.
  intros m start. split.
  - refine (proj1 (proj1 (proj2
      (C4_threshold_multiplier decimalString (replay []) 85
         (Some (rankObject [(rS, 2.0%Q)])) None (JS.Fin 90) [90] rS rS 0 O
         start)) _)).
    reflexivity.
  - refine (proj2 (proj2 (proj2 (proj2 (proj2
      (C4_threshold_multiplier decimalString (replay []) 85
         (Some (rankObject [(rS, 2.0%Q)])) None (JS.Fin 50) [50] rS rS 0 O
         start)) _)))).
    reflexivity.
Defined.

(** C6 (amended): for a [bonus_conversion] with rate [r] and a bonus
    [b >= 0], let [k = floor(b / r)].  If [k * convertToDice.count > 0] the
    new total is the old total minus [b], plus the sum of
    [k * convertToDice.count] freshly rolled dice of the target sides, plus
    [b mod r]; otherwise (in particular when [k = 0]) the total is unchanged
    and no die is rolled. *)
Theorem C6_bonus_conversion
    (numberToString : JS.num -> string) (random : nat -> Q)
    (conversionRate : positive) (convertToDice : DiceSpec)
    (currentResult : JS.num) (allRolls : list Z)
    (weaponRank masteryRank : Rank) (otherBonuses : Z) (pos : nat) :
  0 <= otherBonuses ->
  let k := otherBonuses / Z.pos conversionRate in
  let extraDice := k * ds_count convertToDice in
  let run :=
    applyModifier numberToString random
      (BonusConversion conversionRate convertToDice) currentResult allRolls
      weaponRank masteryRank otherBonuses pos in
  let rolls :=
    fst (rollMany random (Z.to_nat extraDice) (ds_sides convertToDice) pos) in
  (0 < extraDice ->
   mr_result (fst run)
   = JS.add
       (JS.add (JS.sub currentResult (JS.of_Z otherBonuses))
          (JS.of_Z (JS.sum rolls)))
       (JS.of_Z (otherBonuses mod Z.pos conversionRate))
   /\ (forall total : Q,
          currentResult = JS.Fin total ->
          mr_result (fst run)
          = JS.Fin (total - inject_Z otherBonuses + inject_Z (JS.sum rolls)
                    + inject_Z (otherBonuses mod Z.pos conversionRate)))
   /\ mr_explosionRolls (fst run) = Some rolls
   /\ Z.of_nat (List.length rolls) = extraDice
   /\ snd run = (pos + List.length rolls)%nat)
  /\ (extraDice <= 0 ->
      mr_result (fst run) = currentResult
      /\ mr_explosionRolls (fst run) = None
      /\ snd run = pos)
  /\ (k = 0 -> mr_result (fst run) = currentResult /\ snd run = pos).
Proof.
  intros Hb k extraDice run rolls.
  assert (Hrem : Z.rem otherBonuses (Z.pos conversionRate)
                 = otherBonuses mod Z.pos conversionRate)
    by (apply Z.rem_mod_nonneg; lia).
  assert (Hskip : extraDice <= 0 ->
                  mr_result (fst run) = currentResult
                  /\ mr_explosionRolls (fst run) = None
                  /\ snd run = pos).
  { intro Hle. subst run. unfold applyModifier. fold k. fold extraDice.
    destruct (Z.ltb_spec 0 extraDice) as [Hlt|_]; [lia|].
    unfold ret, plain. cbn [fst snd mr_result mr_explosionRolls].
    repeat split; reflexivity. }
  split; [|split].
  - intro Hpos. subst run. unfold applyModifier. fold k. fold extraDice.
    destruct (Z.ltb_spec 0 extraDice) as [_|Hle]; [|lia].
    rewrite bind_eq. unfold ret.
    cbn [fst snd mr_result mr_explosionRolls]. fold rolls. rewrite Hrem.
    destruct (rollMany_length random (Z.to_nat extraDice)
                (ds_sides convertToDice) pos) as [Hlen Hnext].
    fold rolls in Hlen. rewrite Hnext, Hlen.
    split; [reflexivity|].
    split; [intros total ->; reflexivity|].
    split; [reflexivity|].
    split; [lia | reflexivity].
  - exact Hskip.
  - intro Hk. assert (Hle : extraDice <= 0) by (subst extraDice; lia).
    destruct (Hskip Hle) as (Hres & _ & Hpos). split; assumption.
Qed.

(** The specification's scenario: rate 40 and a bonus of 85 on a total of
    150 convert into two d100, showing 7 and 9, with 5 left over. *)
Lemma C6_witness :
  mr_result
    (fst (applyModifier decimalString
            (replay [showing 7 100; showing 9 100])
            (BonusConversion 40 Actions.d100) (JS.Fin 150) [] rE rE 85 O))
  = JS.Fin (150 - inject_Z 85 + inject_Z (7 + 9) + inject_Z 5).
Proof.
  refine (proj1 (proj2 (proj1
    (C6_bonus_conversion decimalString
       (replay [showing 7 100; showing 9 100]) 40 Actions.d100 (JS.Fin 150)
       [] rE rE 85 O _) _)) 150%Q eq_refl).
  - lia.
  - reflexivity.
Defined.

(** *** The dice loop *)

Lemma rollGroups_app (numberToString : JS.num -> string) (random : nat -> Q)
    (weaponRank masteryRank : Rank) (before after : list DiceConfig) :
  forall (st : DicePhase) (pos : nat),
    rollGroups numberToString random weaponRank masteryRank
      (before ++ after) st pos
    = rollGroups numberToString random weaponRank masteryRank after
        (fst (rollGroups numberToString random weaponRank masteryRank before
                st pos))
        (snd (rollGroups numberToString random weaponRank masteryRank before
                st pos)).
Proof.
  induction before as [|cfg before IH]; intros st pos.
  - reflexivity.
  - cbn [app rollGroups]. rewrite !bind_eq. apply IH.
Qed.

(** C7 (amended): [MR_LEVEL] resolves to the level of the mastery rank and
    [WR_LEVEL] to the level of the weapon rank, E..S being 0..5.  A per-rank
    table ([diceByRank], else [baseDiceByRank]) resolves to the entry of the
    mastery rank when that entry is present and non-zero, and to the table's
    E entry otherwise; without a table the count is the [count] property.  A
    group whose count is undefined or [<= 0] is skipped: the loop state and
    the draw position are unchanged, and the whole evaluation is the one of
    the action without that group. *)
Theorem C7_dice_count_resolution
    (numberToString : JS.num -> string) (RANK_BONUSES : Rank -> Q)
    (random : nat -> Q) (this : FormulaCalculator) (action : Action)
    (before after : list DiceConfig) (diceConfig : DiceConfig)
    (weaponRank masteryRank : Rank) (otherBonuses : Z) (pos : nat) :
  (resolveCountVariable "MR_LEVEL" weaponRank masteryRank
   = getRankLevel masteryRank
   /\ resolveCountVariable "WR_LEVEL" weaponRank masteryRank
      = getRankLevel weaponRank
   /\ map getRankLevel [rE; rD; rC; rB; rA; rS] = [0; 1; 2; 3; 4; 5])
  /\ (forall table : RankMap Z,
         dc_diceByRank diceConfig = Some table
         \/ (dc_diceByRank diceConfig = None
             /\ dc_baseDiceByRank diceConfig = Some table) ->
         groupCount diceConfig weaponRank masteryRank
         = match table masteryRank with
           | Some entry => if entry =? 0 then table rE else Some entry
           | None => table rE
           end)
  /\ (dc_diceByRank diceConfig = None ->
      dc_baseDiceByRank diceConfig = None ->
      groupCount diceConfig weaponRank masteryRank
      = Some
          match dc_count diceConfig with
          | CountNum n => n
          | CountVar v => resolveCountVariable v weaponRank masteryRank
          end)
  /\ (match groupCount diceConfig weaponRank masteryRank with
      | Some count => count <= 0
      | None => True
      end ->
      (forall (st : DicePhase) (p : nat),
          rollGroup numberToString random weaponRank masteryRank diceConfig
            st p = (st, p))
      /\ calculateActionRoll numberToString RANK_BONUSES random this
           (with_dice action (before ++ diceConfig :: after)) weaponRank
           masteryRank otherBonuses pos
         = calculateActionRoll numberToString RANK_BONUSES random this
             (with_dice action (before ++ after)) weaponRank masteryRank
             otherBonuses pos).
Proof.
  split; [repeat split; reflexivity|].
  split.
  { intros table [Hdice | [Hdice Hbase]]; unfold groupCount;
      rewrite Hdice; [|rewrite Hbase]; reflexivity. }
  split.
  { intros Hdice Hbase. unfold groupCount. rewrite Hdice, Hbase.
    destruct (dc_count diceConfig); reflexivity. }
  intro Hskip.
  assert (Hgroup : forall st p,
             rollGroup numberToString random weaponRank masteryRank
               diceConfig st p = (st, p)).
  { intros st p. unfold rollGroup.
    destruct (groupCount diceConfig weaponRank masteryRank) as [count|];
      [|reflexivity].
    destruct (Z.ltb_spec 0 count); [lia | reflexivity]. }
  split; [exact Hgroup|].
  unfold calculateActionRoll, with_dice.
  cbn [calculableFormula dice bonuses modifiers].
  rewrite !bind_eq, !rollGroups_app. cbn [rollGroups].
  rewrite bind_eq, Hgroup. reflexivity.
Qed.

(** Stable Attack at mastery rank E: the [MR_LEVEL] group has count 0 and the
    evaluation is the one of the seven base dice alone. *)
Lemma C7_witness :
  calculateActionRoll decimalString Actions.RANK_BONUSES
    (replay [showing 20 20; showing 3 20]) new_FormulaCalculator
    Actions.Stable_Attack rE rE 0 O
  = calculateActionRoll decimalString Actions.RANK_BONUSES
      (replay [showing 20 20; showing 3 20]) new_FormulaCalculator
      (with_dice Actions.Stable_Attack [Actions.group (CountNum 7) 20])
      rE rE 0 O
  /\ groupCount zero_entry_group rE rD = Some 2.
Proof.
  split.
  - refine (proj2 (proj2 (proj2 (proj2
      (C7_dice_count_resolution decimalString Actions.RANK_BONUSES
         (replay [showing 20 20; showing 3 20]) new_FormulaCalculator
         Actions.Stable_Attack [Actions.group (CountNum 7) 20] []
         (Actions.group (CountVar "MR_LEVEL") 20) rE rE 0 O))) _)).
    cbn. lia.
  - refine (proj1 (proj2
      (C7_dice_count_resolution decimalString Actions.RANK_BONUSES
         (replay []) new_FormulaCalculator Actions.Stable_Attack [] []
         zero_entry_group rE rD 0 O)) _ (or_introl eq_refl)).
Defined.

(** *** The raw dice total *)

Section RawDiceTotal.

Variable numberToString : JS.num -> string.
Variable random : nat -> Q.

(** What a modifier adds to the raw dice total: the rolls of its result when
    its type is [explosion]. *)
Lemma recordModifier_raw (m : Modifier) (res : ModifierResult)
    (st : ModifierPhase) :
  mp_rawDiceTotal (recordModifier m res st)
  = mp_rawDiceTotal st
    + if String.eqb (modifier_type m) "explosion"
      then match mr_explosionRolls res with
           | Some rolls => JS.sum rolls
           | None => 0
           end
      else 0.
Proof.
  unfold recordModifier, is_recorded.
  destruct (String.eqb (modifier_type m) "explosion").
  - rewrite orb_true_r. cbn [mp_rawDiceTotal].
    destruct (mr_explosionRolls res); lia.
  - rewrite orb_false_r.
    destruct (_ || _); cbn [mp_rawDiceTotal];
      [destruct (mr_explosionRolls res)|]; lia.
Qed.

Lemma explosionFaces_app (l1 l2 : list ModifierEntry) :
  explosionFaces (l1 ++ l2) = (explosionFaces l1 ++ explosionFaces l2)%list.
Proof. unfold explosionFaces. apply flat_map_app. Qed.

(** The raw dice total and the faces of the explosion entries grow
    together. *)
Lemma recordModifier_faces (m : Modifier) (res : ModifierResult)
    (st : ModifierPhase) :
  mp_rawDiceTotal (recordModifier m res st)
  - JS.sum (explosionFaces (mp_modifierBreakdown (recordModifier m res st)))
  = mp_rawDiceTotal st - JS.sum (explosionFaces (mp_modifierBreakdown st)).
Proof.
  rewrite recordModifier_raw.
  unfold recordModifier, is_recorded.
  destruct (String.eqb (modifier_type m) "explosion") eqn:Htype.
  - rewrite orb_true_r. cbn [mp_modifierBreakdown].
    rewrite explosionFaces_app, sum_app.
    unfold explosionFaces at 2. cbn [flat_map me_type me_explosionRolls].
    rewrite Htype, app_nil_r.
    destruct (mr_explosionRolls res); [lia|].
    change (JS.sum []) with 0. lia.
  - rewrite orb_false_r.
    destruct (_ || _); cbn [mp_modifierBreakdown]; [|lia].
    rewrite explosionFaces_app, sum_app.
    unfold explosionFaces at 2. cbn [flat_map me_type me_explosionRolls].
    rewrite Htype. change (JS.sum ([] ++ [])) with 0. lia.
Qed.

Lemma applyModifiers_faces (mods : list Modifier) (allRolls : list Z)
    (weaponRank masteryRank : Rank) (otherBonuses : Z) :
  forall (st : ModifierPhase) (pos : nat),
    let st' :=
      fst (applyModifiers numberToString random mods allRolls weaponRank
             masteryRank otherBonuses st pos) in
    mp_rawDiceTotal st' - JS.sum (explosionFaces (mp_modifierBreakdown st'))
    = mp_rawDiceTotal st - JS.sum (explosionFaces (mp_modifierBreakdown st)).
Proof.
  induction mods as [|m mods IH]; intros st pos; cbn zeta.
  - reflexivity.
  - cbn [applyModifiers]. rewrite bind_eq.
    specialize (IH (recordModifier m
                      (fst (applyModifier numberToString random m
                              (mp_finalResult st) allRolls weaponRank
                              masteryRank otherBonuses pos)) st)
                  (snd (applyModifier numberToString random m
                          (mp_finalResult st) allRolls weaponRank
                          masteryRank otherBonuses pos))).
    cbn zeta in IH. rewrite IH. apply recordModifier_faces.
Qed.

Lemma rollGroup_consistent (weaponRank masteryRank : Rank)
    (diceConfig : DiceConfig) (st : DicePhase) (pos : nat) :
  dice_consistent st ->
  dice_consistent
    (fst (rollGroup numberToString random weaponRank masteryRank diceConfig
            st pos)).
Proof.
  intros [Hgroups Hraw]. unfold rollGroup.
  destruct (groupCount diceConfig weaponRank masteryRank) as [count|];
    [|split; assumption].
  destruct (0 <? count); [|split; assumption].
  rewrite bind_eq. unfold ret, dice_consistent.
  cbn [fst dp_diceGroups dp_rawDiceTotal]. split.
  - apply Forall_app. split; [exact Hgroups|].
    constructor; [reflexivity | constructor].
  - rewrite flat_map_app, sum_app. cbn [flat_map dg_rolls].
    rewrite app_nil_r, Hraw. reflexivity.
Qed.

Lemma rollGroups_consistent (weaponRank masteryRank : Rank)
    (configs : list DiceConfig) :
  forall (st : DicePhase) (pos : nat),
    dice_consistent st ->
    dice_consistent
      (fst (rollGroups numberToString random weaponRank masteryRank configs
              st pos)).
Proof.
  induction configs as [|cfg configs IH]; intros st pos Hst.
  - exact Hst.
  - cbn [rollGroups]. rewrite bind_eq. apply IH.
    now apply rollGroup_consistent.
Qed.

(** The draws of a modifier and what it adds to the raw dice total do not
    depend on the running total, and depend on the bonus for a
    [bonus_conversion] only. *)
Lemma applyModifier_insensitive (m : Modifier) (total1 total2 : JS.num)
    (allRolls : list Z) (weaponRank masteryRank : Rank) (bonus1 bonus2 : Z)
    (pos : nat) :
  bonus1 = bonus2 \/ is_conversion m = false ->
  let run1 :=
    applyModifier numberToString random m total1 allRolls weaponRank
      masteryRank bonus1 pos in
  let run2 :=
    applyModifier numberToString random m total2 allRolls weaponRank
      masteryRank bonus2 pos in
  snd run1 = snd run2
  /\ (String.eqb (modifier_type m) "explosion" = true ->
      mr_explosionRolls (fst run1) = mr_explosionRolls (fst run2)).
Proof.
  intros Hbonus. destruct m; cbn [applyModifier modifier_type]; cbn zeta;
    try (split; [reflexivity | discriminate]).
  - destruct (JS.ge total1 _), (JS.ge total2 _);
      split; solve [reflexivity | discriminate].
  - destruct (JS.ge total1 _), (JS.ge total2 _), (Q_truthy failureBonus);
      split; solve [reflexivity | discriminate].
  - destruct (0 <? count_ge threshold allRolls)%nat.
    + rewrite !bind_eq. unfold ret. cbn [fst snd mr_explosionRolls].
      split; reflexivity.
    + split; reflexivity.
  - destruct Hbonus as [->|Hconv]; [|discriminate Hconv].
    destruct (0 <? _).
    + rewrite !bind_eq. unfold ret. cbn [fst snd]. split;
        [reflexivity | discriminate].
    + split; [reflexivity | discriminate].
  - split; [reflexivity|]. intros _. reflexivity.
Qed.

Lemma applyModifiers_insensitive (mods : list Modifier) (allRolls : list Z)
    (weaponRank masteryRank : Rank) (bonus1 bonus2 : Z) :
  bonus1 = bonus2 \/ existsb is_conversion mods = false ->
  forall (st1 st2 : ModifierPhase) (pos : nat),
    mp_rawDiceTotal st1 = mp_rawDiceTotal st2 ->
    let run1 :=
      applyModifiers numberToString random mods allRolls weaponRank
        masteryRank bonus1 st1 pos in
    let run2 :=
      applyModifiers numberToString random mods allRolls weaponRank
        masteryRank bonus2 st2 pos in
    mp_rawDiceTotal (fst run1) = mp_rawDiceTotal (fst run2)
    /\ snd run1 = snd run2.
Proof.
  induction mods as [|m mods IH]; intros Hbonus st1 st2 pos Hraw; cbn zeta.
  - split; [exact Hraw | reflexivity].
  - cbn [applyModifiers]. rewrite !bind_eq.
    assert (Hm : bonus1 = bonus2 \/ is_conversion m = false).
    { destruct Hbonus as [Heq|Hnone]; [now left|].
      right. cbn [existsb] in Hnone.
      now apply orb_false_iff in Hnone. }
    assert (Hmods : bonus1 = bonus2 \/ existsb is_conversion mods = false).
    { destruct Hbonus as [Heq|Hnone]; [now left|].
      right. cbn [existsb] in Hnone.
      now apply orb_false_iff in Hnone. }
    destruct (applyModifier_insensitive m (mp_finalResult st1)
                (mp_finalResult st2) allRolls weaponRank masteryRank
                bonus1 bonus2 pos Hm) as [Hpos Hrolls].
    rewrite Hpos. apply (IH Hmods).
    rewrite !recordModifier_raw, Hraw.
    destruct (String.eqb (modifier_type m) "explosion");
      [rewrite (Hrolls eq_refl)|]; reflexivity.
Qed.

End RawDiceTotal.

(** *** Keep highest, keep lowest *)

Lemma insert_by_perm (cmp : Z -> Z -> Z) (x : Z) (l : list Z) :
  Permutation (JS.insert_by cmp x l) (x :: l).
Proof.
  induction l as [|y l IH]; cbn [JS.insert_by].
  - apply Permutation_refl.
  - destruct (cmp x y <=? 0); [apply Permutation_refl|].
    eapply perm_trans; [apply perm_skip, IH | apply perm_swap].
Qed.

Lemma sort_perm (cmp : Z -> Z -> Z) (l : list Z) :
  Permutation (JS.sort cmp l) l.
Proof.
  induction l as [|x l IH]; cbn [JS.sort].
  - apply perm_nil.
  - eapply perm_trans; [apply insert_by_perm | apply perm_skip, IH].
Qed.

Lemma insert_descending_sorted (x : Z) (l : list Z) :
  Sorted (fun a b => b <= a) l ->
  Sorted (fun a b => b <= a) (JS.insert_by descending x l).
Proof.
  induction 1 as [|y l Hsorted IH Hhd]; cbn [JS.insert_by].
  - repeat constructor.
  - unfold descending at 1.
    destruct (Z.leb_spec (y - x) 0) as [Hle|Hgt].
    + constructor; [now constructor|]. constructor. lia.
    + constructor; [exact IH|].
      destruct l as [|z l]; cbn [JS.insert_by].
      * constructor. lia.
      * unfold descending at 1.
        destruct (Z.leb_spec (z - x) 0); constructor; [lia|].
        now inversion Hhd.
Qed.

Lemma sort_descending_sorted (l : list Z) :
  StronglySorted (fun a b => b <= a) (JS.sort descending l).
Proof.
  apply Sorted_StronglySorted.
  - intros a b c Hab Hbc. lia.
  - induction l as [|x l IH]; cbn [JS.sort].
    + constructor.
    + now apply insert_descending_sorted.
Qed.

Lemma in_rest (n : nat) (l : list Z) (b : Z) : In b (skipn n l) -> In b l.
Proof.
  intro H. rewrite <- (firstn_skipn n l). apply in_or_app. now right.
Qed.

(** In a sorted list every element of a prefix is related to every element
    of the rest. *)
Lemma prefix_dominates (R : Z -> Z -> Prop) (l : list Z) :
  StronglySorted R l ->
  forall (n : nat) (a b : Z),
    In a (firstn n l) -> In b (skipn n l) -> R a b.
Proof.
  induction 1 as [|x l Hsorted IH Hall]; intros n a b Ha Hb.
  - destruct n; contradiction.
  - destruct n as [|n]; [contradiction|].
    cbn [firstn skipn] in Ha, Hb. destruct Ha as [<-|Ha].
    + rewrite Forall_forall in Hall. apply Hall.
      apply (in_rest n). exact Hb.
    + eapply IH; eassumption.
Qed.

(** What [rollDice] returns for a keep-highest group: the first
    [keepHighest] of the rolls sorted in descending order, a selection from
    the rolls in which every kept roll is at least every dropped one. *)
Lemma rollDice_keepHighest (random : nat -> Q) (diceConfig : DiceConfig)
    (count keepHighest : Z) (pos : nat) :
  dc_count diceConfig = CountNum count -> 0 < count ->
  dc_keepHighest diceConfig = Some keepHighest -> 0 < keepHighest ->
  let rolls :=
    fst (rollMany random (Z.to_nat count) (dc_sides diceConfig) pos) in
  let sorted := JS.sort descending rolls in
  let kept := fst (rollDice random diceConfig pos) in
  kept = firstn (Z.to_nat keepHighest) sorted
  /\ Permutation (kept ++ skipn (Z.to_nat keepHighest) sorted) rolls
  /\ forall a b : Z,
       In a kept -> In b (skipn (Z.to_nat keepHighest) sorted) -> b <= a.
Proof.
  intros Hcount Hpos Hkeep Hk rolls sorted kept.
  assert (Hkept : kept = firstn (Z.to_nat keepHighest) sorted).
  { subst kept. unfold rollDice. rewrite Hcount, Hkeep.
    destruct (Z.leb_spec count 0); [lia|].
    rewrite bind_eq. fold rolls. fold sorted.
    unfold Z_is_zero. destruct (Z.eqb_spec keepHighest 0); [lia|].
    unfold ret. cbn [fst]. unfold JS.slice0.
    destruct (Z.ltb_spec keepHighest 0); [lia|].
    destruct (Z.min_spec keepHighest (Z.of_nat (List.length sorted)))
      as [[_ ->]|[Hlen ->]]; [reflexivity|].
    rewrite Nat2Z.id, firstn_all.
    symmetry. apply firstn_all2. lia. }
  split; [exact Hkept|]. rewrite Hkept. split.
  - rewrite firstn_skipn. apply sort_perm.
  - intros a b Ha Hb.
    exact (prefix_dominates _ sorted (sort_descending_sorted rolls)
             (Z.to_nat keepHighest) a b Ha Hb).
Qed.

(** *** Further facts and the specification's scenarios *)

(** Whenever the running total after the modifiers is a finite number, the
    result is an integer at least 1. *)
Lemma result_positive_integer_when_finite
    (numberToString : JS.num -> string) (RANK_BONUSES : Rank -> Q)
    (random : nat -> Q) (this : FormulaCalculator) (action : Action)
    (weaponRank masteryRank : Rank) (otherBonuses : Z) (pos : nat) (q : Q) :
  let r :=
    fst (fst (calculateActionRoll numberToString RANK_BONUSES random this
                action weaponRank masteryRank otherBonuses pos)) in
  finalResult (details r) = JS.Fin q -> JS.is_positive_integer (result r).
Proof.
  intros r Hfinal. subst r. rewrite result_is_clamped, Hfinal.
  apply clamp_finite.
Qed.

(** With a [bonus_conversion] in front of an explosion the raw dice total
    does depend on the bonus: the conversion draws a die and the explosion
    reads the next outcome of the source. *)
Lemma raw_dice_total_with_conversion_depends_on_bonus :
  let random := replay [showing 20 20; showing 5 20; showing 9 20] in
  rawDiceResult (evaluate random conversion_then_explosion rE rE 0) = 25
  /\ rawDiceResult (evaluate random conversion_then_explosion rE rE 40) = 29.
Proof. vm_compute. split; reflexivity. Qed.

Example scenario_single_d20 :
  let r := evaluate (replay [showing 15 20]) single_d20 rE rE 0 in
  result r = JS.Fin 15
  /\ rawDiceResult r = 15
  /\ List.length (diceGroups (details r)) = 1%nat.
Proof. vm_compute. repeat split; reflexivity. Qed.

Example scenario_explosion :
  let r :=
    evaluate (replay [showing 20 20; showing 3 20; showing 5 20])
      Actions.Heal rE rE 0 in
  explosionRolls (details r) = [5]
  /\ rawDiceResult r = 28
  /\ result r = JS.Fin 28
  /\ breakdown (details r)
     = "2d20[20 + 3] + EXP[5](1 explosions)"%string.
Proof. vm_compute. repeat split; reflexivity. Qed.

Example scenario_sharp_attack_conversion :
  let r :=
    evaluate
      (replay [showing 90 100; showing 80 100; showing 7 100; showing 9 100])
      Actions.Sharp_Attack rE rE 85 in
  baseTotal (details r) = JS.Fin 175
  /\ finalResult (details r) = JS.Fin 111
  /\ explosionRolls (details r) = [7; 9]
  /\ rawDiceResult r = 90.
Proof. vm_compute. repeat split; reflexivity. Qed.

Example scenario_attack :
  let r := evaluate (replay [showing 42 100]) Actions.Attack rB rA 0 in
  result r = JS.Fin 112
  /\ rawDiceResult r = 42
  /\ breakdown (details r) = "1d100[42] + 40(A MR) + 30(B WR)"%string.
Proof. vm_compute. repeat split; reflexivity. Qed.

Example scenario_buff_divisor :
  let r := evaluate (replay [showing 50 100]) Actions.Buff rE rE 0 in
  result r = JS.Fin 16 /\ rawDiceResult r = 50.
Proof. vm_compute. split; reflexivity. Qed.

Example scenario_sneak_attack_consolation :
  let r := evaluate (replay [showing 20 100]) Actions.Sneak_Attack rE rE 0 in
  result r = JS.Fin 30
  /\ map me_description (modifierBreakdown (details r))
     = ["Consolation bonus"%string].
Proof. vm_compute. split; reflexivity. Qed.

Example scenario_special_critical_attack :
  let r :=
    evaluate (replay [showing 90 100; showing 80 100])
      Actions.Special_Critical_Attack rE rE 0 in
  result r = JS.Fin 918
  /\ map me_type (modifierBreakdown (details r))
     = ["multiplier"%string; "threshold_multiplier"%string;
        "threshold_multiplier"%string].
Proof. vm_compute. split; reflexivity. Qed.

(** *** The die source of the examples *)

(** The outcome [showing face sides] makes a die of [sides] sides show
    [face]. *)
Lemma rollDie_showing (random : nat -> Q) (face : Z) (sides : positive)
    (pos : nat) :
  random pos = showing face sides ->
  fst (rollDie random (Z.pos sides) pos) = face.
Proof.
  intro Hpos. cbn [rollDie fst]. rewrite Hpos.
  unfold showing, Qfloor, Qmult, inject_Z. cbn [Qnum Qden].
  rewrite Pos.mul_1_r, Z.div_mul by lia. lia.
Qed.

Lemma rollMany_range (random : nat -> Q) (n : nat) (sides : Z) :
  unit_interval random -> 1 <= sides ->
  forall pos : nat,
    Forall (fun roll => 1 <= roll <= sides)
      (fst (rollMany random n sides pos)).
Proof.
  intros Hunit Hsides. induction n as [|n IH]; intro pos; cbn [rollMany].
  - constructor.
  - rewrite bind_eq, bind_eq. unfold ret. cbn [fst].
    constructor; [now apply rollDie_range | apply IH].
Qed.

Lemma count_ge_app (threshold : Z) (l1 l2 : list Z) :
  count_ge threshold (l1 ++ l2)
  = (count_ge threshold l1 + count_ge threshold l2)%nat.
Proof. unfold count_ge. now rewrite filter_app, length_app. Qed.

(** *** The dice drawn from the die source *)

Lemma facesFrom_app (random : nat -> Q) (l1 l2 : list Z) (pos : nat) :
  facesFrom random (l1 ++ l2) pos
  = (facesFrom random l1 pos
     ++ facesFrom random l2 (pos + List.length l1))%list.
Proof.
  revert pos. induction l1 as [|s l1 IH]; intro pos; cbn [facesFrom app].
  - cbn [List.length]. now rewrite Nat.add_0_r.
  - rewrite IH. cbn [List.length].
    now replace (S pos + List.length l1)%nat
      with (pos + S (List.length l1))%nat by lia.
Qed.

Lemma facesFrom_length (random : nat -> Q) (sides : list Z) (pos : nat) :
  List.length (facesFrom random sides pos) = List.length sides.
Proof.
  revert pos. induction sides as [|s sides IH]; intro pos; cbn;
    [reflexivity | now rewrite IH].
Qed.

(** [n] dice of the same kind show the faces of the next [n] draws. *)
Lemma rollMany_faces (random : nat -> Q) (n : nat) (sides : Z) (pos : nat) :
  rollMany random n sides pos
  = (facesFrom random (repeat sides n) pos, (pos + n)%nat).
Proof.
  revert pos. induction n as [|n IH]; intro pos; cbn [rollMany repeat facesFrom].
  - unfold ret. now rewrite Nat.add_0_r.
  - rewrite !bind_eq. unfold ret. cbn [rollDie fst snd]. rewrite IH.
    cbn [fst snd]. f_equal. lia.
Qed.

Lemma countedFaces_app (random : nat -> Q) (l1 l2 : list (Z * bool))
    (pos : nat) :
  countedFaces random (l1 ++ l2) pos
  = (countedFaces random l1 pos
     ++ countedFaces random l2 (pos + List.length l1))%list.
Proof.
  revert pos. induction l1 as [|[s c] l1 IH]; intro pos;
    cbn [countedFaces app List.length].
  - now rewrite Nat.add_0_r.
  - rewrite IH, <- app_assoc.
    now replace (S pos + List.length l1)%nat
      with (pos + S (List.length l1))%nat by lia.
Qed.

Lemma countedFaces_explosion (random : nat -> Q) (sides : Z) (n pos : nat) :
  countedFaces random (repeat (sides, true) n) pos
  = facesFrom random (repeat sides n) pos.
Proof.
  revert pos. induction n as [|n IH]; intro pos;
    cbn [repeat countedFaces facesFrom app]; [reflexivity | now rewrite IH].
Qed.

Lemma countedFaces_conversion (random : nat -> Q) (sides : Z) (n pos : nat) :
  countedFaces random (repeat (sides, false) n) pos = [].
Proof.
  revert pos. induction n as [|n IH]; intro pos;
    cbn [repeat countedFaces app]; [reflexivity | apply IH].
Qed.

Lemma naturalSides_length (weaponRank masteryRank : Rank)
    (configs : list DiceConfig) :
  List.length (naturalSides weaponRank masteryRank configs)
  = diceDrawn weaponRank masteryRank configs.
Proof.
  unfold naturalSides, diceDrawn.
  induction configs as [|cfg configs IH]; cbn [flat_map map list_sum];
    [reflexivity|].
  now rewrite length_app, repeat_length, IH.
Qed.

Lemma sum_perm (l1 l2 : list Z) :
  Permutation l1 l2 -> JS.sum l1 = JS.sum l2.
Proof.
  induction 1 as [|x l l' _ IH|x y l|l l' l'' _ IH1 _ IH2].
  - reflexivity.
  - rewrite !sum_cons. lia.
  - rewrite !sum_cons. lia.
  - congruence.
Qed.

(** What [rollDice] returns, against the dice it draws: the dice returned
    and the dice dropped are together the faces of the next [count] draws,
    and nothing is dropped when no keep option is in force. *)
Lemma rollDice_drawn (random : nat -> Q) (diceConfig : DiceConfig)
    (count : Z) (pos : nat) :
  dc_count diceConfig = CountNum count -> 0 < count ->
  let faces :=
    facesFrom random (repeat (dc_sides diceConfig) (Z.to_nat count)) pos in
  exists dropped : list Z,
    Permutation (fst (rollDice random diceConfig pos) ++ dropped) faces
    /\ snd (rollDice random diceConfig pos) = (pos + Z.to_nat count)%nat
    /\ (keeps_all diceConfig = true ->
        dropped = [] /\ fst (rollDice random diceConfig pos) = faces).
Proof.
  intros Hcount Hpos faces. unfold rollDice. rewrite Hcount.
  destruct (Z.leb_spec count 0) as [Hle|_]; [lia|].
  rewrite bind_eq, rollMany_faces. cbn [fst snd]. fold faces.
  assert (Hslice : forall (k : Z) (cmp : Z -> Z -> Z),
             exists dropped : list Z,
               Permutation (JS.slice0 k (JS.sort cmp faces) ++ dropped)
                 faces).
  { intros k cmp. unfold JS.slice0.
    match goal with
    | |- context [firstn ?j _] =>
        exists (skipn j (JS.sort cmp faces))
    end.
    rewrite firstn_skipn. apply sort_perm. }
  assert (Hall : exists dropped : list Z,
             Permutation (faces ++ dropped) faces
             /\ (dropped = [] /\ faces = faces)).
  { exists []. rewrite app_nil_r. repeat split. apply Permutation_refl. }
  unfold keeps_all, Z_truthy.
  destruct (dc_keepHighest diceConfig) as [keepHighest|];
    [destruct (Z_is_zero keepHighest)|];
    destruct (dc_keepLowest diceConfig) as [keepLowest|];
    try destruct (Z_is_zero keepLowest);
    unfold ret; cbn [fst snd negb andb];
    try (destruct Hall as (dropped & Hperm & Hnone); exists dropped;
         split; [exact Hperm | split; [reflexivity | intros _; exact Hnone]]);
    match goal with
    | |- context [JS.slice0 ?k (JS.sort ?cmp faces)] =>
        destruct (Hslice k cmp) as (dropped & Hperm); exists dropped;
        split; [exact Hperm | split; [reflexivity | discriminate]]
    end.
Qed.

Section DrawnByTheDiceLoop.

Variable numberToString : JS.num -> string.
Variable random : nat -> Q.
Variables weaponRank masteryRank : Rank.

(** The dice loop against the die source: the rolls it records and the dice
    its groups dropped are together the faces of the draws it made, on the
    dice of the groups in order. *)
Lemma rollGroups_drawn (configs : list DiceConfig) :
  forall (st : DicePhase) (pos : nat),
    let run :=
      rollGroups numberToString random weaponRank masteryRank configs st pos
    in
    let faces :=
      facesFrom random (naturalSides weaponRank masteryRank configs) pos in
    exists kept dropped : list Z,
      flat_map dg_rolls (dp_diceGroups (fst run))
      = (flat_map dg_rolls (dp_diceGroups st) ++ kept)%list
      /\ Permutation (kept ++ dropped) faces
      /\ snd run
         = (pos
            + List.length (naturalSides weaponRank masteryRank configs))%nat
      /\ (forallb keeps_all configs = true -> dropped = [] /\ kept = faces).
Proof.
  induction configs as [|cfg configs IH]; intros st pos; cbn zeta.
  - exists [], []. cbn [rollGroups naturalSides flat_map facesFrom List.length].
    unfold ret. cbn [fst snd]. rewrite app_nil_r, Nat.add_0_r.
    repeat split. apply Permutation_refl.
  - cbn [rollGroups]. rewrite bind_eq.
    assert (Hgroup :
              exists kept dropped : list Z,
                flat_map dg_rolls
                  (dp_diceGroups
                     (fst (rollGroup numberToString random weaponRank
                             masteryRank cfg st pos)))
                = (flat_map dg_rolls (dp_diceGroups st) ++ kept)%list
                /\ Permutation (kept ++ dropped)
                     (facesFrom random
                        (repeat (dc_sides cfg)
                           (Z.to_nat
                              (resolvedCount weaponRank masteryRank cfg)))
                        pos)
                /\ snd (rollGroup numberToString random weaponRank
                          masteryRank cfg st pos)
                   = (pos
                      + Z.to_nat (resolvedCount weaponRank masteryRank cfg))%nat
                /\ (keeps_all cfg = true ->
                    dropped = []
                    /\ kept
                       = facesFrom random
                           (repeat (dc_sides cfg)
                              (Z.to_nat
                                 (resolvedCount weaponRank masteryRank cfg)))
                           pos)).
    { unfold rollGroup, resolvedCount.
      destruct (groupCount cfg weaponRank masteryRank) as [count|].
      - destruct (Z.ltb_spec 0 count) as [Hpos|Hle].
        + rewrite bind_eq. unfold ret. cbn [fst snd dp_diceGroups].
          destruct (rollDice_drawn random (with_count cfg count) count pos
                      eq_refl Hpos) as (dropped & Hperm & Hnext & Hall).
          exists (fst (rollDice random (with_count cfg count) pos)), dropped.
          rewrite flat_map_app. cbn [flat_map dg_rolls].
          rewrite app_nil_r.
          split; [reflexivity|]. split; [exact Hperm|].
          split; [exact Hnext | exact Hall].
        + exists [], []. unfold ret. cbn [fst snd].
          replace (Z.to_nat count) with O by lia.
          cbn [repeat facesFrom]. rewrite app_nil_r, Nat.add_0_r.
          repeat split. apply Permutation_refl.
      - exists [], []. unfold ret. cbn [fst snd Z.to_nat repeat facesFrom].
        rewrite app_nil_r, Nat.add_0_r.
        repeat split. apply Permutation_refl. }
    destruct Hgroup as (kept1 & dropped1 & Hrolls1 & Hperm1 & Hnext1 & Hall1).
    destruct (IH (fst (rollGroup numberToString random weaponRank
                         masteryRank cfg st pos))
                (snd (rollGroup numberToString random weaponRank
                        masteryRank cfg st pos)))
      as (kept2 & dropped2 & Hrolls2 & Hperm2 & Hnext2 & Hall2).
    exists (kept1 ++ kept2)%list, (dropped1 ++ dropped2)%list.
    change (naturalSides weaponRank masteryRank (cfg :: configs))
      with (repeat (dc_sides cfg)
              (Z.to_nat (resolvedCount weaponRank masteryRank cfg))
            ++ naturalSides weaponRank masteryRank configs)%list.
    rewrite facesFrom_app, length_app, repeat_length.
    rewrite Hnext1 in Hrolls2, Hperm2, Hnext2, Hall2. rewrite Hnext1.
    split; [rewrite Hrolls2, Hrolls1; now rewrite app_assoc|].
    split.
    { eapply perm_trans; [|apply Permutation_app; eassumption].
      rewrite <- !app_assoc. apply Permutation_app_head.
      rewrite !app_assoc. apply Permutation_app_tail.
      apply Permutation_app_comm. }
    split; [rewrite Hnext2; lia|].
    cbn [forallb]. intro Hkeep. apply andb_true_iff in Hkeep.
    destruct Hkeep as [Hcfg Hrest].
    destruct (Hall1 Hcfg) as [-> ->]. destruct (Hall2 Hrest) as [-> ->].
    split; reflexivity.
Qed.

End DrawnByTheDiceLoop.

(** The cascade against the die source.  It rolls [k] dice, the next [k]
    draws; each pending explosion and each new roll at or above the
    threshold is answered by one roll, except those still pending when the
    loop stops, and explosions are left pending only when every allowed round
    was used. *)
Lemma cascade_drawn (random : nat -> Q) (threshold sides : Z)
    (maxIterations : nat) :
  forall (st : Cascade) (pos : nat),
    let run := cascade random threshold sides maxIterations st pos in
    let st' := snd (fst run) in
    exists k : nat,
      let newRolls := facesFrom random (repeat sides k) pos in
      allExplosionRolls st' = (allExplosionRolls st ++ newRolls)%list
      /\ snd run = (pos + k)%nat
      /\ explosionTotal st' = explosionTotal st + JS.sum newRolls
      /\ totalTriggers st'
         = (totalTriggers st + count_ge threshold newRolls)%nat
      /\ (k + currentExplosions st'
          = currentExplosions st + count_ge threshold newRolls)%nat
      /\ ((0 < currentExplosions st')%nat -> (maxIterations <= k)%nat)
      /\ ((0 < maxIterations)%nat -> (currentExplosions st <= k)%nat)
      /\ (k <= maxIterations * currentExplosions st)%nat.
Proof.
  induction maxIterations as [|m IH]; intros st pos; cbn zeta.
  - exists O. cbn [cascade repeat facesFrom]. unfold ret. cbn [fst snd].
    change (count_ge threshold []) with O. change (JS.sum []) with 0.
    rewrite app_nil_r. repeat split; lia.
  - cbn [cascade].
    destruct (Nat.ltb_spec 0 (currentExplosions st)) as [Hpos|Hzero].
    + rewrite bind_eq, rollMany_faces. cbn [fst snd].
      set (new1 := facesFrom random (repeat sides (currentExplosions st)) pos).
      match goal with
      | |- context [cascade random threshold sides m ?s ?p] =>
          destruct (IH s p) as (k2 & Hrolls & Hnext & Htotal & Htrig & Hserved
                                & Hpending & _ & Hbound)
      end.
      cbn [allExplosionRolls explosionTotal totalTriggers currentExplosions]
        in Hrolls, Htotal, Htrig, Hserved, Hbound.
      set (new2 := facesFrom random (repeat sides k2)
                     (pos + currentExplosions st)) in *.
      exists (currentExplosions st + k2)%nat.
      assert (Hnew : facesFrom random
                       (repeat sides (currentExplosions st + k2)) pos
                     = (new1 ++ new2)%list).
      { rewrite repeat_app, facesFrom_app, repeat_length. reflexivity. }
      assert (Hlen1 : List.length new1 = currentExplosions st).
      { unfold new1. now rewrite facesFrom_length, repeat_length. }
      pose proof (count_ge_le_length threshold new1) as Hle.
      rewrite Hnew, Hrolls, Hnext, Htotal, Htrig, sum_app, count_ge_app,
        <- app_assoc.
      split; [reflexivity|]. split; [lia|]. split; [lia|]. split; [lia|].
      split; [lia|]. split; [intro Hp; specialize (Hpending Hp); lia|].
      split; [lia|].
      assert (m * count_ge threshold new1 <= m * currentExplosions st)%nat
        by (apply Nat.mul_le_mono_l; lia).
      lia.
    + exists O. cbn [repeat facesFrom]. unfold ret. cbn [fst snd].
      change (count_ge threshold []) with O. change (JS.sum []) with 0.
      rewrite app_nil_r. repeat split; lia.
Qed.

Section DrawnByTheModifierLoop.

Variable numberToString : JS.num -> string.
Variable random : nat -> Q.

(** One modifier against the die source: the dice it draws are dice of its
    own kind, and it adds to the raw dice total the faces of its explosion
    dice. *)
Lemma modifier_drawn (m : Modifier) (currentResult : JS.num)
    (allRolls : list Z) (weaponRank masteryRank : Rank) (otherBonuses : Z)
    (pos : nat) (st : ModifierPhase) :
  let run :=
    applyModifier numberToString random m currentResult allRolls weaponRank
      masteryRank otherBonuses pos in
  exists draws : list (Z * bool),
    Forall (fun draw => draw_of m = Some draw) draws
    /\ snd run = (pos + List.length draws)%nat
    /\ mp_rawDiceTotal (recordModifier m (fst run) st)
       = mp_rawDiceTotal st + JS.sum (countedFaces random draws pos).
Proof.
  cbn zeta. rewrite recordModifier_raw.
  assert (Hnone : forall res : ModifierResult,
             mr_explosionRolls res = None ->
             exists draws : list (Z * bool),
               Forall (fun draw => draw_of m = Some draw) draws
               /\ pos = (pos + List.length draws)%nat
               /\ mp_rawDiceTotal st
                  + (if String.eqb (modifier_type m) "explosion"
                     then match mr_explosionRolls res with
                          | Some rolls => JS.sum rolls
                          | None => 0
                          end
                     else 0)
                  = mp_rawDiceTotal st
                    + JS.sum (countedFaces random draws pos)).
  { intros res Hres. exists []. rewrite Hres.
    cbn [List.length countedFaces]. change (JS.sum []) with 0.
    split; [constructor|]. split; [lia|].
    destruct (String.eqb _ _); reflexivity. }
  destruct m; cbn [applyModifier]; cbn zeta;
    try (unfold ret; cbn [fst snd]; apply Hnone; reflexivity).
  - destruct (JS.ge currentResult _); unfold ret; cbn [fst snd];
      apply Hnone; reflexivity.
  - destruct (JS.ge currentResult _); [|destruct (Q_truthy failureBonus)];
      unfold ret; cbn [fst snd]; apply Hnone; reflexivity.
  - destruct (0 <? count_ge threshold allRolls)%nat;
      [|unfold ret; cbn [fst snd]; apply Hnone; reflexivity].
    rewrite bind_eq. unfold ret. cbn [fst snd mr_explosionRolls].
    match goal with
    | |- context [cascade random threshold ?sides 10 ?s ?p] =>
        destruct (cascade_drawn random threshold sides 10 s p)
          as (k & Hrolls & Hnext & _)
    end.
    cbn [allExplosionRolls app] in Hrolls.
    exists (repeat (ds_sides extraDice, true) k).
    rewrite Hrolls, Hnext, repeat_length, countedFaces_explosion.
    cbn [modifier_type]. change (String.eqb "explosion" "explosion") with true.
    split; [|split; reflexivity].
    apply Forall_forall. intros draw Hin. apply repeat_spec in Hin.
    now subst draw.
  - destruct (0 <? _);
      [|unfold ret; cbn [fst snd]; apply Hnone; reflexivity].
    rewrite bind_eq, rollMany_faces. unfold ret.
    cbn [fst snd mr_explosionRolls modifier_type].
    change (String.eqb "bonus_conversion" "explosion") with false.
    match goal with
    | |- context [(pos + ?n)%nat] =>
        exists (repeat (ds_sides convertToDice, false) n)
    end.
    rewrite repeat_length, countedFaces_conversion.
    change (JS.sum []) with 0.
    split; [|split; reflexivity].
    apply Forall_forall. intros draw Hin. apply repeat_spec in Hin.
    now subst draw.
Qed.

(** The modifier loop against the die source. *)
Lemma applyModifiers_drawn (mods : list Modifier) (allRolls : list Z)
    (weaponRank masteryRank : Rank) (otherBonuses : Z) :
  forall (st : ModifierPhase) (pos : nat),
    let run :=
      applyModifiers numberToString random mods allRolls weaponRank
        masteryRank otherBonuses st pos in
    exists draws : list (Z * bool),
      Forall (modifier_draw mods) draws
      /\ snd run = (pos + List.length draws)%nat
      /\ mp_rawDiceTotal (fst run)
         = mp_rawDiceTotal st + JS.sum (countedFaces random draws pos).
Proof.
  induction mods as [|m mods IH]; intros st pos; cbn zeta.
  - exists []. cbn [applyModifiers List.length countedFaces]. unfold ret.
    cbn [fst snd]. change (JS.sum []) with 0.
    split; [constructor|]. split; lia.
  - cbn [applyModifiers]. rewrite bind_eq.
    destruct (modifier_drawn m (mp_finalResult st) allRolls weaponRank
                masteryRank otherBonuses pos st)
      as (draws1 & Hkind1 & Hnext1 & Hraw1).
    match goal with
    | |- context [applyModifiers numberToString random mods allRolls _ _ _
                    ?s ?p] =>
        destruct (IH s p) as (draws2 & Hkind2 & Hnext2 & Hraw2)
    end.
    rewrite Hnext1 in Hnext2, Hraw2. rewrite Hnext1.
    exists (draws1 ++ draws2)%list.
    rewrite countedFaces_app, sum_app, length_app, Hnext2, Hraw2, Hraw1.
    split; [|split; lia].
    apply Forall_app. split.
    + eapply Forall_impl; [|exact Hkind1].
      intros draw Hdraw. exists m. split; [now left | exact Hdraw].
    + eapply Forall_impl; [|exact Hkind2].
      intros draw (m' & Hin & Hdraw). exists m'. split; [now right | exact Hdraw].
Qed.

(** Without an explosion, the modifier loop leaves the raw dice total as it
    is. *)
Lemma applyModifiers_raw_without_explosion (mods : list Modifier)
    (allRolls : list Z) (weaponRank masteryRank : Rank) (otherBonuses : Z)
    (st : ModifierPhase) (pos : nat) :
  existsb is_explosion mods = false ->
  mp_rawDiceTotal
    (fst (applyModifiers numberToString random mods allRolls weaponRank
            masteryRank otherBonuses st pos))
  = mp_rawDiceTotal st.
Proof.
  intro Hnone.
  destruct (applyModifiers_drawn mods allRolls weaponRank masteryRank
              otherBonuses st pos) as (draws & Hkind & _ & Hraw).
  rewrite Hraw. clear Hraw.
  assert (Hfaces : forall p : nat, countedFaces random draws p = []).
  { induction Hkind as [|[s counted] draws (m & Hin & Hdraw) _ IH];
      intro p; cbn [countedFaces]; [reflexivity|].
    rewrite IH.
    destruct counted; [|reflexivity].
    assert (Hm : is_explosion m = true)
      by (destruct m; try discriminate Hdraw; reflexivity).
    assert (Hsome : existsb is_explosion mods = true)
      by (apply existsb_exists; now exists m).
    congruence. }
  rewrite Hfaces. change (JS.sum []) with 0. lia.
Qed.

(** The draws of a [bonus_conversion] are the dice it converts. *)
Lemma conversion_draws (conversionRate : positive) (convertToDice : DiceSpec)
    (currentResult : JS.num) (allRolls : list Z)
    (weaponRank masteryRank : Rank) (otherBonuses : Z) (pos : nat) :
  snd (applyModifier numberToString random
         (BonusConversion conversionRate convertToDice) currentResult
         allRolls weaponRank masteryRank otherBonuses pos)
  = (pos
     + conversionDice (BonusConversion conversionRate convertToDice)
         otherBonuses)%nat.
Proof.
  cbn [applyModifier conversionDice]. cbn zeta.
  destruct (Z.ltb_spec 0
              (otherBonuses / Z.pos conversionRate * ds_count convertToDice))
    as [Hpos|Hle].
  - rewrite bind_eq, rollMany_faces. reflexivity.
  - unfold ret. cbn [snd]. lia.
Qed.

(** The raw dice total does not depend on the running total, and not on the
    bonus as long as the conversions that come before an explosion draw the
    same number of dice. *)
Lemma applyModifiers_independent (mods : list Modifier) (allRolls : list Z)
    (weaponRank masteryRank : Rank) (bonus1 bonus2 : Z) :
  conversions_draw_alike mods bonus1 bonus2 = true ->
  forall (st1 st2 : ModifierPhase) (pos : nat),
    mp_rawDiceTotal st1 = mp_rawDiceTotal st2 ->
    mp_rawDiceTotal
      (fst (applyModifiers numberToString random mods allRolls weaponRank
              masteryRank bonus1 st1 pos))
    = mp_rawDiceTotal
        (fst (applyModifiers numberToString random mods allRolls weaponRank
                masteryRank bonus2 st2 pos)).
Proof.
  induction mods as [|m mods IH]; intros Hmods st1 st2 pos Hraw.
  - exact Hraw.
  - cbn [conversions_draw_alike] in Hmods.
    apply andb_true_iff in Hmods. destruct Hmods as [Hm Hrest].
    destruct (is_conversion m) eqn:Hconv.
    + destruct m; try discriminate Hconv.
      destruct (existsb is_explosion mods) eqn:Hlater.
      * cbn [negb orb] in Hm. apply Nat.eqb_eq in Hm.
        cbn [applyModifiers]. rewrite !bind_eq, !conversion_draws, Hm.
        apply (IH Hrest).
        rewrite !recordModifier_raw. cbn [modifier_type].
        change (String.eqb "bonus_conversion" "explosion") with false.
        cbn iota. lia.
      * rewrite !applyModifiers_raw_without_explosion
          by (cbn [existsb is_explosion orb]; exact Hlater).
        exact Hraw.
    + cbn [applyModifiers]. rewrite !bind_eq.
      destruct (applyModifier_insensitive numberToString random m
                  (mp_finalResult st1) (mp_finalResult st2) allRolls
                  weaponRank masteryRank bonus1 bonus2 pos
                  (or_intror Hconv)) as [Hpos Hrolls].
      rewrite Hpos. apply (IH Hrest).
      rewrite !recordModifier_raw, Hraw.
      destruct (String.eqb (modifier_type m) "explosion");
        [rewrite (Hrolls eq_refl)|]; reflexivity.
Qed.

End DrawnByTheModifierLoop.

(** Without a conversion in front of an explosion, the condition holds for
    every pair of bonuses. *)
Lemma conversions_draw_alike_without (mods : list Modifier)
    (bonus1 bonus2 : Z) :
  conversion_before_explosion mods = false ->
  conversions_draw_alike mods bonus1 bonus2 = true.
Proof.
  induction mods as [|m mods IH]; intro Hmods; [reflexivity|].
  cbn [conversion_before_explosion] in Hmods.
  apply orb_false_iff in Hmods. destruct Hmods as [Hm Hrest].
  cbn [conversions_draw_alike]. rewrite (IH Hrest), andb_true_r.
  destruct (existsb is_explosion mods); [|reflexivity].
  rewrite andb_true_r in Hm.
  destruct m; try discriminate Hm; reflexivity.
Qed.

(** C2 (amended): the raw dice total is the sum of the faces of the dice
    drawn by the dice loop, less the dice that a keep-highest or keep-lowest
    group dropped, plus the faces of the dice drawn by the explosion
    modifiers.  Read off the die source: the dice loop makes the first draws
    of the evaluation, one per die of each group with a positive count; the
    rolls recorded for the groups and the dice dropped are together the
    faces of these draws, and nothing is dropped when no group has a keep
    option in force; every later draw is a die of an explosion or of a
    [bonus_conversion] of the action, and the faces of the explosion dice
    are added, those of the converted dice are not.  In terms of the result
    record, this is the sum of the rolls recorded for the groups plus the
    rolls of the explosion entries.  The raw dice total does not depend on
    the rank-bonus table.  It is the same under two bonuses whenever every
    [bonus_conversion] that comes before an [explosion] converts the same
    number of dice under both; in particular it does not depend on the bonus
    at all unless a [bonus_conversion] comes before an [explosion] in the
    modifier list. *)
Theorem C2_raw_dice_total
    (numberToString : JS.num -> string) (RANK_BONUSES : Rank -> Q)
    (random : nat -> Q) (this : FormulaCalculator) (action : Action)
    (weaponRank masteryRank : Rank) (otherBonuses : Z) (pos : nat) :
  let evaluation (table : Rank -> Q) (bonus : Z) : RollResult :=
    fst (fst (calculateActionRoll numberToString table random this action
                weaponRank masteryRank bonus pos)) in
  let run :=
    calculateActionRoll numberToString RANK_BONUSES random this action
      weaponRank masteryRank otherBonuses pos in
  let r := evaluation RANK_BONUSES otherBonuses in
  let configs := dice (calculableFormula action) in
  let natural :=
    facesFrom random (naturalSides weaponRank masteryRank configs) pos in
  (rawDiceResult r = rawDiceTotal (details r)
   /\ Forall (fun group => dg_sum group = JS.sum (dg_rolls group))
        (diceGroups (details r))
   /\ rawDiceResult r
      = JS.sum (flat_map dg_rolls (diceGroups (details r)))
        + JS.sum (explosionFaces (modifierBreakdown (details r))))
  /\ (exists (dropped : list Z) (draws : list (Z * bool)),
         Permutation (flat_map dg_rolls (diceGroups (details r)) ++ dropped)
           natural
         /\ (forallb keeps_all configs = true ->
             dropped = []
             /\ flat_map dg_rolls (diceGroups (details r)) = natural)
         /\ Forall (modifier_draw (modifiers_of action)) draws
         /\ snd run = (pos + List.length natural + List.length draws)%nat
         /\ rawDiceResult r
            = JS.sum natural - JS.sum dropped
              + JS.sum
                  (countedFaces random draws (pos + List.length natural)))
  /\ (forall table : Rank -> Q,
         rawDiceResult (evaluation table otherBonuses) = rawDiceResult r)
  /\ (forall bonus : Z,
         conversions_draw_alike (modifiers_of action) otherBonuses bonus
         = true ->
         rawDiceResult (evaluation RANK_BONUSES bonus) = rawDiceResult r)
  /\ (conversion_before_explosion (modifiers_of action) = false ->
      forall bonus : Z,
        rawDiceResult (evaluation RANK_BONUSES bonus) = rawDiceResult r).
Proof.
  cbn zeta.
  assert (Hstart : dice_consistent
                     {| dp_totalResult := JS.Fin 0;
                        dp_rawDiceTotal := 0;
                        dp_diceGroups := [] |})
    by (split; [constructor | reflexivity]).
  pose proof (rollGroups_consistent numberToString random weaponRank
                masteryRank (dice (calculableFormula action)) _ pos Hstart)
    as [Hgroups Hraw].
  destruct (rollGroups_drawn numberToString random weaponRank masteryRank
              (dice (calculableFormula action))
              {| dp_totalResult := JS.Fin 0;
                 dp_rawDiceTotal := 0;
                 dp_diceGroups := [] |} pos)
    as (kept & dropped & Hkept & Hperm & Hnext & Hall).
  cbn [dp_diceGroups flat_map app] in Hkept.
  assert (Halike : forall bonus : Z,
             conversions_draw_alike (modifiers_of action) otherBonuses bonus
             = true ->
             rawDiceResult
               (fst (fst (calculateActionRoll numberToString RANK_BONUSES
                            random this action weaponRank masteryRank bonus
                            pos)))
             = rawDiceResult
                 (fst (fst (calculateActionRoll numberToString RANK_BONUSES
                              random this action weaponRank masteryRank
                              otherBonuses pos)))).
  { intros bonus Hbonus. unfold calculateActionRoll. rewrite !bind_eq.
    destruct (addOtherBonuses bonus _) as [total1 breakdown1].
    destruct (addOtherBonuses otherBonuses _) as [total2 breakdown2].
    rewrite !bind_eq. unfold ret. cbn [fst rawDiceResult].
    symmetry. apply applyModifiers_independent; [exact Hbonus | reflexivity]. }
  split; [|split; [|split; [|split]]].
  - unfold calculateActionRoll. rewrite !bind_eq.
    destruct (addOtherBonuses otherBonuses _) as [total breakdown].
    rewrite !bind_eq. unfold ret.
    cbn [fst rawDiceResult details rawDiceTotal diceGroups modifierBreakdown].
    split; [reflexivity|]. split; [exact Hgroups|].
    match goal with
    | |- context [applyModifiers numberToString random ?mods ?rolls _ _ _
                    ?st ?p] =>
        pose proof (applyModifiers_faces numberToString random mods rolls
                      weaponRank masteryRank otherBonuses st p) as Hfaces
    end.
    cbn zeta in Hfaces. cbn [mp_rawDiceTotal mp_modifierBreakdown] in Hfaces.
    change (JS.sum (explosionFaces [])) with 0 in Hfaces.
    rewrite <- Hraw. lia.
  - unfold calculateActionRoll, modifiers_of. rewrite !bind_eq.
    destruct (addOtherBonuses otherBonuses _) as [total breakdown].
    rewrite !bind_eq. unfold ret.
    cbn [fst snd rawDiceResult details diceGroups].
    match goal with
    | |- context [applyModifiers numberToString random ?mods ?rolls _ _ _
                    ?st ?p] =>
        destruct (applyModifiers_drawn numberToString random mods rolls
                    weaponRank masteryRank otherBonuses st p)
          as (draws & Hkind & Hdraws & Hsum)
    end.
    cbn [mp_rawDiceTotal] in Hsum.
    exists dropped, draws.
    rewrite Hdraws, Hsum, Hnext, Hraw, !Hkept, facesFrom_length.
    split; [exact Hperm|]. split; [exact Hall|]. split; [exact Hkind|].
    split; [reflexivity|].
    apply sum_perm in Hperm. rewrite sum_app in Hperm. lia.
  - intro table. unfold calculateActionRoll. rewrite !bind_eq.
    destruct (addOtherBonuses otherBonuses
                (fold_left (addBonus table weaponRank masteryRank) _ _))
      as [total1 breakdown1].
    destruct (addOtherBonuses otherBonuses _) as [total2 breakdown2].
    rewrite !bind_eq. unfold ret. cbn [fst rawDiceResult].
    apply applyModifiers_insensitive; [now left | reflexivity].
  - exact Halike.
  - intros Hnone bonus. apply Halike.
    now apply conversions_draw_alike_without.
Qed.

(** Sharp Attack has a [bonus_conversion] and no explosion: with a bonus of
    85, which converts into two dice, the raw dice total of the same two
    natural dice is the one without bonus.  And with a conversion in front
    of an explosion, bonuses of 10 and 30, too small to convert a die, give
    the same raw dice total. *)
Lemma C2_witness :
  rawDiceResult
    (fst (fst (calculateActionRoll decimalString Actions.RANK_BONUSES
                 (replay [showing 90 100; showing 80 100; showing 7 100;
                          showing 9 100])
                 new_FormulaCalculator Actions.Sharp_Attack rE rE 85 O)))
  = rawDiceResult
      (fst (fst (calculateActionRoll decimalString Actions.RANK_BONUSES
                   (replay [showing 90 100; showing 80 100; showing 7 100;
                            showing 9 100])
                   new_FormulaCalculator Actions.Sharp_Attack rE rE 0 O)))
  /\ rawDiceResult
       (fst (fst (calculateActionRoll decimalString Actions.RANK_BONUSES
                    (replay [showing 20 20; showing 5 20])
                    new_FormulaCalculator conversion_then_explosion rE rE 30
                    O)))
     = rawDiceResult
         (fst (fst (calculateActionRoll decimalString Actions.RANK_BONUSES
                      (replay [showing 20 20; showing 5 20])
                      new_FormulaCalculator conversion_then_explosion rE rE
                      10 O))).
Proof.
  split.
  - refine (proj2 (proj2 (proj2 (proj2
      (C2_raw_dice_total decimalString Actions.RANK_BONUSES
         (replay [showing 90 100; showing 80 100; showing 7 100;
                  showing 9 100])
         new_FormulaCalculator Actions.Sharp_Attack rE rE 0 O)))) _ 85).
    reflexivity.
  - refine (proj1 (proj2 (proj2 (proj2
      (C2_raw_dice_total decimalString Actions.RANK_BONUSES
         (replay [showing 20 20; showing 5 20])
         new_FormulaCalculator conversion_then_explosion rE rE 10 O)))) 30 _).
    reflexivity.
Defined.

(** *** The [chance] of an explosion, and which dice explode *)

Section ServedExplosions.

Variable numberToString : JS.num -> string.
Variable random : nat -> Q.



End ServedExplosions.


(** A die that a keep option dropped does not explode either: of two dice
    showing 20 and 19 with the highest kept, both at or above the threshold
    17, only the kept one gets an extra roll. *)
Example scenario_dropped_die_does_not_explode :
  let run :=
    calculateActionRoll decimalString Actions.RANK_BONUSES
      (replay [showing 20 20; showing 19 20; showing 5 20])
      new_FormulaCalculator advantage_then_explosion rE rE 0 O in
  let r := fst (fst run) in
  flat_map dg_rolls (diceGroups (details r)) = [20]
  /\ explosionRolls (details r) = [5]
  /\ snd run = 3%nat.
Proof. vm_compute. repeat split; reflexivity. Qed.



(** ** Further properties of the calculator *)

(** *** [rollDie] and [rollDice] *)

Lemma insert_ascending_sorted (x : Z) (l : list Z) :
  Sorted (fun a b => a <= b) l ->
  Sorted (fun a b => a <= b) (JS.insert_by ascending x l).
Proof.
  induction 1 as [|y l Hsorted IH Hhd]; cbn [JS.insert_by].
  - repeat constructor.
  - unfold ascending at 1.
    destruct (Z.leb_spec (x - y) 0) as [Hle|Hgt].
    + constructor; [now constructor|]. constructor. lia.
    + constructor; [exact IH|].
      destruct l as [|z l]; cbn [JS.insert_by].
      * constructor. lia.
      * unfold ascending at 1.
        destruct (Z.leb_spec (x - z) 0); constructor; [lia|].
        now inversion Hhd.
Qed.

Lemma sort_ascending_sorted (l : list Z) :
  StronglySorted (fun a b => a <= b) (JS.sort ascending l).
Proof.
  apply Sorted_StronglySorted.
  - intros a b c Hab Hbc. lia.
  - induction l as [|x l IH]; cbn [JS.sort].
    + constructor.
    + now apply insert_ascending_sorted.
Qed.

(** [slice(0, k)] with [k > 0] keeps the first [min k length] elements. *)
Lemma slice0_positive {A : Type} (k : Z) (l : list A) :
  0 < k ->
  JS.slice0 k l = firstn (Z.to_nat k) l
  /\ Z.of_nat (List.length (JS.slice0 k l))
     = Z.min k (Z.of_nat (List.length l)).
Proof.
  intro Hk. unfold JS.slice0.
  destruct (Z.ltb_spec k 0); [lia|].
  destruct (Z.min_spec k (Z.of_nat (List.length l))) as [[Hlt ->]|[Hge ->]].
  - split; [reflexivity|]. rewrite length_firstn. lia.
  - rewrite Nat2Z.id, firstn_all. split; [|reflexivity].
    symmetry. apply firstn_all2. lia.
Qed.

(** Whatever the keep options, a group with a positive count draws exactly
    [count] dice. *)
Lemma rollDice_draws (random : nat -> Q) (diceConfig : DiceConfig)
    (count : Z) (pos : nat) :
  dc_count diceConfig = CountNum count -> 0 < count ->
  snd (rollDice random diceConfig pos) = (pos + Z.to_nat count)%nat.
Proof.
  intros Hcount Hpos. unfold rollDice. rewrite Hcount.
  destruct (Z.leb_spec count 0); [lia|].
  rewrite bind_eq.
  destruct (rollMany_length random (Z.to_nat count) (dc_sides diceConfig)
              pos) as [_ Hnext].
  destruct (dc_keepHighest diceConfig) as [k|];
    [destruct (Z_is_zero k)|]; unfold ret; cbn [snd]; exact Hnext.
Qed.

(** X1: a die of at least one side, rolled on an outcome of [Math.random]
    in [0, 1), shows a face between 1 and its number of sides, and the roll
    consumes exactly one outcome. *)
Theorem X1_rollDie_within_sides (random : nat -> Q) (sides : Z)
    (pos : nat) :
  unit_interval random -> 1 <= sides ->
  1 <= fst (rollDie random sides pos) <= sides
  /\ snd (rollDie random sides pos) = S pos.
Proof.
  intros Hunit Hsides. split; [now apply rollDie_range | reflexivity].
Qed.

Lemma X1_witness :
  1 <= fst (rollDie (replay [showing 18 20]) 20 O) <= 20
  /\ snd (rollDie (replay [showing 18 20]) 20 O) = 1%nat.
Proof.
  apply (X1_rollDie_within_sides (replay [showing 18 20]) 20 O).
  - intro i. unfold replay.
    destruct i as [|[|i]]; cbn [nth showing]; split;
      solve [apply Qle_refl | reflexivity | discriminate].
  - lia.
Defined.

Lemma sorted_prefix (R : Z -> Z -> Prop) (l : list Z) :
  StronglySorted R l -> forall n : nat, StronglySorted R (firstn n l).
Proof.
  induction 1 as [|x l Hsorted IH Hall]; intro n.
  - rewrite firstn_nil. constructor.
  - destruct n as [|n]; cbn [firstn]; constructor; [apply IH|].
    rewrite Forall_forall in *. intros y Hy. apply Hall.
    rewrite <- (firstn_skipn n l). apply in_or_app. now left.
Qed.

Lemma kept_within_range (sides : Z) (kept rest rolls : list Z) :
  Permutation (kept ++ rest) rolls ->
  Forall (fun roll => 1 <= roll <= sides) rolls ->
  Forall (fun roll => 1 <= roll <= sides) kept.
Proof.
  intros Hperm Hrange. rewrite Forall_forall in *. intros x Hx.
  apply Hrange. eapply Permutation_in; [exact Hperm|].
  apply in_or_app. now left.
Qed.

(** X2: without a keep option [rollDice] returns the dice in the order they
    were rolled: a count [<= 0] gives the empty list without a draw, a
    positive count gives exactly [count] faces for [count] draws, each
    between 1 and [sides] on a well-formed die source. *)
Theorem X2_rollDice_without_keep (random : nat -> Q)
    (diceConfig : DiceConfig) (count : Z) (pos : nat) :
  dc_count diceConfig = CountNum count ->
  Z_truthy (dc_keepHighest diceConfig) = false ->
  Z_truthy (dc_keepLowest diceConfig) = false ->
  let run := rollDice random diceConfig pos in
  (count <= 0 -> run = ([], pos))
  /\ (0 < count ->
      fst run = fst (rollMany random (Z.to_nat count) (dc_sides diceConfig)
                       pos)
      /\ Z.of_nat (List.length (fst run)) = count
      /\ snd run = (pos + Z.to_nat count)%nat
      /\ (unit_interval random -> 1 <= dc_sides diceConfig ->
          Forall (fun roll => 1 <= roll <= dc_sides diceConfig) (fst run))).
Proof.
  intros Hcount Hhigh Hlow run. split.
  - intro Hle. subst run. unfold rollDice. rewrite Hcount.
    destruct (Z.leb_spec count 0); [reflexivity | lia].
  - intro Hpos.
    assert (Hrolls : fst run
                     = fst (rollMany random (Z.to_nat count)
                              (dc_sides diceConfig) pos)).
    { subst run. unfold rollDice. rewrite Hcount.
      destruct (Z.leb_spec count 0); [lia|].
      rewrite bind_eq. unfold Z_truthy in Hhigh, Hlow.
      destruct (dc_keepHighest diceConfig) as [k|],
               (dc_keepLowest diceConfig) as [k'|];
        try (apply negb_false_iff in Hhigh; rewrite Hhigh);
        try (apply negb_false_iff in Hlow; rewrite Hlow);
        reflexivity. }
    destruct (rollMany_length random (Z.to_nat count) (dc_sides diceConfig)
                pos) as [Hlen _].
    rewrite Hrolls, Hlen.
    split; [reflexivity|]. split; [lia|].
    split; [now apply rollDice_draws|].
    intros Hunit Hsides. now apply rollMany_range.
Qed.

Lemma X2_witness :
  fst (rollDice (replay [showing 90 100; showing 80 100])
         (Actions.group (CountNum 2) 100) O)
  = fst (rollMany (replay [showing 90 100; showing 80 100]) 2 100 O).
Proof.
  refine (proj1 (proj2
    (X2_rollDice_without_keep (replay [showing 90 100; showing 80 100])
       (Actions.group (CountNum 2) 100) 2 O eq_refl eq_refl eq_refl) _)).
  lia.
Defined.

(** X3: with [keepHighest = k > 0] on a positive count, [rollDice] still
    draws [count] dice and returns [min k count] of them, sorted from the
    highest: together with the dropped dice they are the dice rolled, no
    dropped die is higher than a kept one, and every kept die lies between 1
    and [sides] on a well-formed source.  [keepLowest] is not consulted. *)
Theorem X3_rollDice_keepHighest (random : nat -> Q)
    (diceConfig : DiceConfig) (count keepHighest : Z) (pos : nat) :
  dc_count diceConfig = CountNum count -> 0 < count ->
  dc_keepHighest diceConfig = Some keepHighest -> 0 < keepHighest ->
  let rolls :=
    fst (rollMany random (Z.to_nat count) (dc_sides diceConfig) pos) in
  let run := rollDice random diceConfig pos in
  Z.of_nat (List.length (fst run)) = Z.min keepHighest count
  /\ snd run = (pos + Z.to_nat count)%nat
  /\ StronglySorted (fun a b => b <= a) (fst run)
  /\ (exists dropped : list Z,
         Permutation (fst run ++ dropped) rolls
         /\ forall a b : Z, In a (fst run) -> In b dropped -> b <= a)
  /\ (unit_interval random -> 1 <= dc_sides diceConfig ->
      Forall (fun roll => 1 <= roll <= dc_sides diceConfig) (fst run)).
Proof.
  intros Hcount Hpos Hkeep Hk rolls run.
  destruct (rollDice_keepHighest random diceConfig count keepHighest pos
              Hcount Hpos Hkeep Hk) as (Hkept & Hperm & Hdom).
  fold rolls in Hkept, Hperm, Hdom. fold run in Hkept, Hperm, Hdom.
  destruct (rollMany_length random (Z.to_nat count) (dc_sides diceConfig)
              pos) as [Hlen _].
  fold rolls in Hlen.
  assert (Hsortlen : List.length (JS.sort descending rolls)
                     = Z.to_nat count).
  { rewrite (Permutation_length (sort_perm descending rolls)). exact Hlen. }
  split.
  { rewrite Hkept, length_firstn, Hsortlen. lia. }
  split; [now apply rollDice_draws|].
  split.
  { rewrite Hkept. apply sorted_prefix, sort_descending_sorted. }
  split.
  { exists (skipn (Z.to_nat keepHighest) (JS.sort descending rolls)).
    split; assumption. }
  intros Hunit Hsides.
  eapply kept_within_range; [exact Hperm|].
  now apply rollMany_range.
Qed.

Lemma X3_witness :
  Z.of_nat
    (List.length
       (fst (rollDice (replay [showing 5 20; showing 18 20])
               (Actions.advantage 2 20 1) O)))
  = Z.min 1 2
  /\ snd (rollDice (replay [showing 5 20; showing 18 20])
            (Actions.advantage 2 20 1) O) = 2%nat.
Proof.
  pose proof (X3_rollDice_keepHighest
                (replay [showing 5 20; showing 18 20])
                (Actions.advantage 2 20 1) 2 1 O eq_refl eq_refl eq_refl
                eq_refl) as (Hlen & Hdraws & _).
  split; [exact Hlen | exact Hdraws].
Defined.

(** X4: with no (or a zero) [keepHighest] and [keepLowest = k > 0] on a
    positive count, [rollDice] draws [count] dice and returns [min k count]
    of them, sorted from the lowest: together with the dropped dice they are
    the dice rolled, and no dropped die is lower than a kept one. *)
Theorem X4_rollDice_keepLowest (random : nat -> Q)
    (diceConfig : DiceConfig) (count keepLowest : Z) (pos : nat) :
  dc_count diceConfig = CountNum count -> 0 < count ->
  Z_truthy (dc_keepHighest diceConfig) = false ->
  dc_keepLowest diceConfig = Some keepLowest -> 0 < keepLowest ->
  let rolls :=
    fst (rollMany random (Z.to_nat count) (dc_sides diceConfig) pos) in
  let run := rollDice random diceConfig pos in
  fst run = firstn (Z.to_nat keepLowest) (JS.sort ascending rolls)
  /\ Z.of_nat (List.length (fst run)) = Z.min keepLowest count
  /\ snd run = (pos + Z.to_nat count)%nat
  /\ StronglySorted (fun a b => a <= b) (fst run)
  /\ (exists dropped : list Z,
         Permutation (fst run ++ dropped) rolls
         /\ forall a b : Z, In a (fst run) -> In b dropped -> a <= b).
Proof.
  intros Hcount Hpos Hhigh Hkeep Hk rolls run.
  assert (Hkept : fst run
                  = firstn (Z.to_nat keepLowest) (JS.sort ascending rolls)).
  { subst run. unfold rollDice. rewrite Hcount, Hkeep.
    destruct (Z.leb_spec count 0); [lia|].
    rewrite bind_eq. fold rolls. cbn zeta.
    assert (Hnonzero : Z_is_zero keepLowest = false)
      by (apply Z.eqb_neq; lia).
    rewrite Hnonzero. unfold Z_truthy in Hhigh.
    destruct (dc_keepHighest diceConfig) as [k|];
      [apply negb_false_iff in Hhigh; rewrite Hhigh|];
      unfold ret; cbn [fst];
      exact (proj1 (slice0_positive keepLowest _ Hk)). }
  destruct (rollMany_length random (Z.to_nat count) (dc_sides diceConfig)
              pos) as [Hlen _].
  fold rolls in Hlen.
  split; [exact Hkept|]. rewrite Hkept. split.
  { rewrite length_firstn,
      (Permutation_length (sort_perm ascending rolls)), Hlen. lia. }
  split; [now apply rollDice_draws|].
  split; [apply sorted_prefix, sort_ascending_sorted|].
  exists (skipn (Z.to_nat keepLowest) (JS.sort ascending rolls)). split.
  - rewrite firstn_skipn. apply sort_perm.
  - intros a b Ha Hb.
    exact (prefix_dominates _ _ (sort_ascending_sorted rolls)
             (Z.to_nat keepLowest) a b Ha Hb).
Qed.

Lemma X4_witness :
  fst (rollDice (replay [showing 18 20; showing 5 20])
         {| dc_count := CountNum 2;
            dc_sides := 20;
            dc_keepHighest := None;
            dc_keepLowest := Some 1;
            dc_baseDiceByRank := None;
            dc_diceByRank := None |} O)
  = firstn 1
      (JS.sort ascending
         (fst (rollMany (replay [showing 18 20; showing 5 20]) 2 20 O))).
Proof.
  refine (proj1
    (X4_rollDice_keepLowest (replay [showing 18 20; showing 5 20])
       {| dc_count := CountNum 2;
          dc_sides := 20;
          dc_keepHighest := None;
          dc_keepLowest := Some 1;
          dc_baseDiceByRank := None;
          dc_diceByRank := None |} 2 1 O eq_refl _ eq_refl eq_refl _));
    lia.
Defined.

(** X5: [resolveCountVariable] returns a rank level between 0 and 5, and 0
    for every name other than [MR_LEVEL] and [WR_LEVEL]; and since
    [rollDice] resolves a count variable against the default ranks E and E,
    a configuration handed to it with a symbolic count rolls nothing. *)
Theorem X5_count_variables (random : nat -> Q) (countVar : string)
    (weaponRank masteryRank : Rank) (diceConfig : DiceConfig) (pos : nat) :
  0 <= resolveCountVariable countVar weaponRank masteryRank <= 5
  /\ (countVar <> "MR_LEVEL"%string -> countVar <> "WR_LEVEL"%string ->
      resolveCountVariable countVar weaponRank masteryRank = 0)
  /\ (dc_count diceConfig = CountVar countVar ->
      rollDice random diceConfig pos = ([], pos)).
Proof.
  assert (Hlevel : forall r, 0 <= getRankLevel r <= 5)
    by (intros []; vm_compute; split; discriminate).
  unfold resolveCountVariable. split; [|split].
  - destruct (String.eqb countVar "MR_LEVEL"); [apply Hlevel|].
    destruct (String.eqb countVar "WR_LEVEL"); [apply Hlevel|].
    destruct (String.eqb countVar "BASE_BY_RANK"),
             (String.eqb countVar "DICE_BY_RANK"); lia.
  - intros Hmr Hwr.
    destruct (String.eqb_spec countVar "MR_LEVEL"); [contradiction|].
    destruct (String.eqb_spec countVar "WR_LEVEL"); [contradiction|].
    destruct (String.eqb countVar "BASE_BY_RANK"),
             (String.eqb countVar "DICE_BY_RANK"); reflexivity.
  - intro Hcount. unfold rollDice, resolveCountVariable. rewrite Hcount.
    destruct (String.eqb countVar "MR_LEVEL"); [reflexivity|].
    destruct (String.eqb countVar "WR_LEVEL"); [reflexivity|].
    destruct (String.eqb countVar "BASE_BY_RANK"),
             (String.eqb countVar "DICE_BY_RANK"); reflexivity.
Qed.

Lemma X5_witness :
  rollDice (replay [showing 3 20])
    (Actions.group (CountVar "MR_LEVEL") 20) O = ([], O)
  /\ resolveCountVariable "BASE_BY_RANK" rS rS = 0.
Proof.
  split.
  - exact (proj2 (proj2
      (X5_count_variables (replay [showing 3 20]) "MR_LEVEL" rS rS
         (Actions.group (CountVar "MR_LEVEL") 20) O)) eq_refl).
  - refine (proj1 (proj2
      (X5_count_variables (replay []) "BASE_BY_RANK" rS rS
         (Actions.group (CountVar "BASE_BY_RANK") 20) O)) _ _);
      discriminate.
Defined.

(** *** The dice loop and the bonuses *)

Lemma slice0_length_le {A : Type} (k : Z) (l : list A) :
  (List.length (JS.slice0 k l) <= List.length l)%nat.
Proof. unfold JS.slice0. rewrite length_firstn. lia. Qed.

Lemma rollDice_length_le (random : nat -> Q) (diceConfig : DiceConfig)
    (count : Z) (pos : nat) :
  dc_count diceConfig = CountNum count -> 0 < count ->
  Z.of_nat (List.length (fst (rollDice random diceConfig pos))) <= count.
Proof.
  intros Hcount Hpos. unfold rollDice. rewrite Hcount.
  destruct (Z.leb_spec count 0); [lia|].
  rewrite bind_eq.
  destruct (rollMany_length random (Z.to_nat count) (dc_sides diceConfig)
              pos) as [Hlen _].
  set (rolls := fst (rollMany random (Z.to_nat count) (dc_sides diceConfig)
                       pos)) in *.
  assert (Hsort : forall cmp k,
             (List.length (JS.slice0 k (JS.sort cmp rolls))
              <= Z.to_nat count)%nat).
  { intros cmp k. rewrite <- Hlen,
      <- (Permutation_length (sort_perm cmp rolls)).
    apply slice0_length_le. }
  cbn zeta.
  destruct (dc_keepHighest diceConfig) as [k|],
           (dc_keepLowest diceConfig) as [k'|];
    try destruct (Z_is_zero k); try destruct (Z_is_zero k');
    unfold ret; cbn [fst];
    try (specialize (Hsort descending k); lia);
    try (specialize (Hsort ascending k'); lia); lia.
Qed.

Section DiceLoop.

Variable numberToString : JS.num -> string.
Variable random : nat -> Q.
Variables weaponRank masteryRank : Rank.

Lemma rollGroups_shape (configs : list DiceConfig) :
  forall (st : DicePhase) (pos : nat) (done : list DiceConfig),
    Forall2 (group_of numberToString weaponRank masteryRank)
      (dp_diceGroups st) done ->
    let run :=
      rollGroups numberToString random weaponRank masteryRank configs st pos
    in
    Forall2 (group_of numberToString weaponRank masteryRank)
      (dp_diceGroups (fst run))
      (done ++ rolledConfigs weaponRank masteryRank configs)
    /\ snd run = (pos + diceDrawn weaponRank masteryRank configs)%nat.
Proof.
  induction configs as [|cfg configs IH]; intros st pos done Hdone; cbn zeta.
  - cbn [rollGroups rolledConfigs filter]. unfold ret, diceDrawn.
    cbn [fst snd map list_sum fold_right]. rewrite app_nil_r.
    split; [exact Hdone | lia].
  - cbn [rollGroups]. rewrite bind_eq.
    change (diceDrawn weaponRank masteryRank (cfg :: configs))
      with (Z.to_nat (resolvedCount weaponRank masteryRank cfg)
            + diceDrawn weaponRank masteryRank configs)%nat.
    change (rolledConfigs weaponRank masteryRank (cfg :: configs))
      with (if 0 <? resolvedCount weaponRank masteryRank cfg
            then cfg :: rolledConfigs weaponRank masteryRank configs
            else rolledConfigs weaponRank masteryRank configs).
    assert (Hrc : resolvedCount weaponRank masteryRank cfg
                  = match groupCount cfg weaponRank masteryRank with
                    | Some count => count
                    | None => 0
                    end) by reflexivity.
    unfold rollGroup.
    destruct (groupCount cfg weaponRank masteryRank) as [count|] eqn:Hcount;
      rewrite Hrc.
    + destruct (Z.ltb_spec 0 count) as [Hpos|Hle].
      * rewrite bind_eq. unfold ret. cbn [fst snd].
        match goal with
        | |- context [rollGroups _ _ _ _ configs ?s ?p] =>
            specialize (IH s p (done ++ [cfg]))
        end.
        cbn zeta in IH. rewrite <- app_assoc in IH. cbn [app] in IH.
        rewrite (rollDice_draws random (with_count cfg count) count pos
                   eq_refl Hpos) in *.
        destruct IH as [Hshape Hdraws].
        { cbn [dp_diceGroups]. apply Forall2_app; [exact Hdone|].
          constructor; [|constructor].
          unfold group_of. rewrite Hrc.
          cbn [dg_type dg_keepHighest dg_keepLowest dg_rolls dg_sum].
          repeat split; try reflexivity.
          apply (rollDice_length_le random (with_count cfg count) count pos
                   eq_refl Hpos). }
        split; [exact Hshape | lia].
      * unfold ret. cbn [fst snd].
        destruct (IH st pos done Hdone) as [Hshape Hdraws].
        split; [exact Hshape|]. rewrite Hdraws.
        replace (Z.to_nat count) with O by lia. lia.
    + unfold ret. cbn [fst snd].
      destruct (Z.ltb_spec 0 0) as [Hlt|_]; [lia|].
      destruct (IH st pos done Hdone) as [Hshape Hdraws].
      split; [exact Hshape|]. rewrite Hdraws. cbn [Z.to_nat]. lia.
Qed.

(** A modifier that is neither an explosion nor a bonus conversion draws
    nothing. *)
Lemma applyModifiers_no_draw (mods : list Modifier) (allRolls : list Z)
    (otherBonuses : Z) :
  existsb rolls_dice mods = false ->
  forall (st : ModifierPhase) (pos : nat),
    snd (applyModifiers numberToString random mods allRolls weaponRank
           masteryRank otherBonuses st pos) = pos.
Proof.
  induction mods as [|m mods IH]; intros Hnone st pos.
  - reflexivity.
  - cbn [existsb] in Hnone. apply orb_false_iff in Hnone.
    destruct Hnone as [Hm Hmods].
    cbn [applyModifiers]. rewrite bind_eq.
    assert (Hstep : snd (applyModifier numberToString random m
                           (mp_finalResult st) allRolls weaponRank
                           masteryRank otherBonuses pos) = pos).
    { destruct m; try discriminate Hm; cbn [applyModifier];
        try reflexivity.
      - destruct (JS.ge _ _); reflexivity.
      - destruct (JS.ge _ _); [reflexivity|].
        destruct (Q_truthy failureBonus); reflexivity. }
    rewrite Hstep. now apply IH.
Qed.

End DiceLoop.

(** X6: the dice groups of a result are the dice configurations with a
    positive resolved count, in declaration order: each records the label
    [<count>d<sides>], the keep options of its configuration, at most
    [count] rolls and their sum.  The dice loop draws exactly the sum of the
    positive counts, and an evaluation whose modifiers are neither
    explosions nor bonus conversions draws nothing else. *)
Theorem X6_dice_groups_and_draws
    (numberToString : JS.num -> string) (RANK_BONUSES : Rank -> Q)
    (random : nat -> Q) (this : FormulaCalculator) (action : Action)
    (weaponRank masteryRank : Rank) (otherBonuses : Z) (pos : nat) :
  let run :=
    calculateActionRoll numberToString RANK_BONUSES random this action
      weaponRank masteryRank otherBonuses pos in
  let configs := dice (calculableFormula action) in
  Forall2 (group_of numberToString weaponRank masteryRank)
    (diceGroups (details (fst (fst run))))
    (rolledConfigs weaponRank masteryRank configs)
  /\ (pos + diceDrawn weaponRank masteryRank configs <= snd run)%nat
  /\ (existsb rolls_dice (modifiers_of action) = false ->
      snd run = (pos + diceDrawn weaponRank masteryRank configs)%nat).
Proof.
  cbn zeta. unfold calculateActionRoll, modifiers_of. rewrite !bind_eq.
  destruct (addOtherBonuses otherBonuses _) as [total breakdown].
  rewrite !bind_eq. unfold ret. cbn [fst snd details diceGroups].
  destruct (rollGroups_shape numberToString random weaponRank masteryRank
              (dice (calculableFormula action))
              {| dp_totalResult := JS.Fin 0;
                 dp_rawDiceTotal := 0;
                 dp_diceGroups := [] |} pos [] (Forall2_nil _))
    as [Hshape Hdraws].
  cbn [app] in Hshape. split; [exact Hshape|].
  rewrite Hdraws. split.
  - match goal with
    | |- context [applyModifiers numberToString random ?mods ?rolls _ _ _
                    ?st ?p] =>
        destruct (same_applyModifiers numberToString random random mods
                    rolls weaponRank masteryRank otherBonuses st p p
                    (fun i => eq_refl)) as (_ & k & Hk & _)
    end.
    rewrite Hk. lia.
  - intro Hnone. now apply applyModifiers_no_draw.
Qed.

Lemma X6_witness :
  snd (calculateActionRoll decimalString Actions.RANK_BONUSES
         (replay [showing 42 100]) new_FormulaCalculator Actions.Attack rB rA
         0 O) = 1%nat.
Proof.
  exact (proj2 (proj2
    (X6_dice_groups_and_draws decimalString Actions.RANK_BONUSES
       (replay [showing 42 100]) new_FormulaCalculator Actions.Attack rB rA
       0 O)) eq_refl).
Defined.

Lemma sumQ_snoc (l : list Q) (x : Q) : (sumQ (l ++ [x]) == sumQ l + x)%Q.
Proof.
  induction l as [|y l IH]; cbn [app sumQ fold_right].
  - ring.
  - fold (sumQ (l ++ [x])). fold (sumQ l). rewrite IH. ring.
Qed.

(** The total of the dice loop is the raw dice total, as a number. *)
Lemma rollGroups_total (numberToString : JS.num -> string)
    (random : nat -> Q) (weaponRank masteryRank : Rank)
    (configs : list DiceConfig) :
  forall (st : DicePhase) (pos : nat),
    (exists q, dp_totalResult st = JS.Fin q
               /\ (q == inject_Z (dp_rawDiceTotal st))%Q) ->
    let st' :=
      fst (rollGroups numberToString random weaponRank masteryRank configs
             st pos) in
    exists q, dp_totalResult st' = JS.Fin q
              /\ (q == inject_Z (dp_rawDiceTotal st'))%Q.
Proof.
  induction configs as [|cfg configs IH]; intros st pos Hst; cbn zeta.
  - exact Hst.
  - cbn [rollGroups]. rewrite bind_eq. apply IH.
    unfold rollGroup.
    destruct (groupCount cfg weaponRank masteryRank) as [count|];
      [|exact Hst].
    destruct (0 <? count); [|exact Hst].
    rewrite bind_eq. unfold ret. cbn [fst dp_totalResult dp_rawDiceTotal].
    destruct Hst as (q & -> & Hq).
    eexists. split; [reflexivity|].
    rewrite inject_Z_plus, Hq. reflexivity.
Qed.

Lemma bonus_consistent_push (base : Q) (total : JS.num)
    (breakdown : list BonusEntry) (entry : BonusEntry) (v : Q) :
  be_value entry = JS.Fin v ->
  bonus_consistent base (total, breakdown) ->
  bonus_consistent base
    (JS.add total (JS.Fin v), (breakdown ++ [entry])%list).
Proof.
  intros Hv [(q & Hq & Hsum) Hfin]. cbn [fst snd] in *. subst total.
  split.
  - eexists. cbn [fst snd JS.add]. split; [reflexivity|].
    rewrite map_app. cbn [map]. rewrite sumQ_snoc, Hsum.
    unfold entryValue at 3. rewrite Hv. ring.
  - cbn [snd]. apply Forall_app. split; [exact Hfin|].
    constructor; [|constructor]. now exists v.
Qed.

Lemma addBonus_consistent (RANK_BONUSES : Rank -> Q)
    (weaponRank masteryRank : Rank) (base : Q)
    (st : JS.num * list BonusEntry) (bonusType : string) :
  bonus_consistent base st ->
  bonus_consistent base
    (addBonus RANK_BONUSES weaponRank masteryRank st bonusType).
Proof.
  intro Hst. destruct st as [total breakdown]. unfold addBonus.
  destruct (String.eqb bonusType "MR");
    [now apply bonus_consistent_push with (v := RANK_BONUSES masteryRank)|].
  destruct (String.eqb bonusType "WR");
    [now apply bonus_consistent_push with (v := RANK_BONUSES weaponRank)|].
  exact Hst.
Qed.

Lemma bonuses_consistent (RANK_BONUSES : Rank -> Q)
    (weaponRank masteryRank : Rank) (base : Q) (tags : list string) :
  forall st : JS.num * list BonusEntry,
    bonus_consistent base st ->
    bonus_consistent base
      (fold_left (addBonus RANK_BONUSES weaponRank masteryRank) tags st).
Proof.
  induction tags as [|tag tags IH]; intros st Hst; cbn [fold_left].
  - exact Hst.
  - apply IH. now apply addBonus_consistent.
Qed.

Lemma addOtherBonuses_consistent (otherBonuses : Z) (base : Q)
    (st : JS.num * list BonusEntry) :
  bonus_consistent base st ->
  bonus_consistent base (addOtherBonuses otherBonuses st).
Proof.
  intro Hst. destruct st as [total breakdown]. unfold addOtherBonuses.
  destruct (0 <? otherBonuses); [|exact Hst].
  now apply bonus_consistent_push with (v := inject_Z otherBonuses).
Qed.

(** The base total of an evaluation is finite and consistent with what it
    records. *)
Lemma baseTotal_consistent
    (numberToString : JS.num -> string) (RANK_BONUSES : Rank -> Q)
    (random : nat -> Q) (this : FormulaCalculator) (action : Action)
    (weaponRank masteryRank : Rank) (otherBonuses : Z) (pos : nat) :
  let r :=
    fst (fst (calculateActionRoll numberToString RANK_BONUSES random this
                action weaponRank masteryRank otherBonuses pos)) in
  bonus_consistent
    (inject_Z (JS.sum (flat_map dg_rolls (diceGroups (details r)))))
    (baseTotal (details r), bonusBreakdown (details r)).
Proof.
  cbn zeta. unfold calculateActionRoll. rewrite !bind_eq.
  set (rolled := fst (rollGroups _ _ _ _ _ _ _)).
  assert (Hstart : bonus_consistent
                     (inject_Z (JS.sum (flat_map dg_rolls
                                          (dp_diceGroups rolled))))
                     (dp_totalResult rolled, [])).
  { subst rolled.
    match goal with
    | |- context [rollGroups ?n ?r ?w ?m ?c ?s ?p] =>
        pose proof (rollGroups_total n r w m c s p) as Htotal;
        pose proof (rollGroups_consistent n r w m c s p) as Hcons
    end.
    cbn zeta in Htotal.
    destruct Htotal as (q & Hq & Hraw).
    { exists 0%Q. split; reflexivity. }
    destruct Hcons as [_ Hsum].
    { split; [constructor | reflexivity]. }
    split; [|constructor].
    exists q. cbn [fst snd map sumQ fold_right]. split; [exact Hq|].
    rewrite Hraw, Hsum. ring. }
  pose proof (addOtherBonuses_consistent otherBonuses _ _
                (bonuses_consistent RANK_BONUSES weaponRank masteryRank _
                   (bonuses (calculableFormula action)) _ Hstart)) as Hbonus.
  destruct (addOtherBonuses otherBonuses _) as [total breakdown].
  rewrite !bind_eq. unfold ret.
  cbn [fst details diceGroups baseTotal bonusBreakdown]. exact Hbonus.
Qed.

(** The base total in the arithmetic of the embedding: the rolls recorded
    plus the bonuses recorded, with the bonus recorded last when it is
    positive. *)
Lemma base_total_accounts
    (numberToString : JS.num -> string) (RANK_BONUSES : Rank -> Q)
    (random : nat -> Q) (this : FormulaCalculator) (action : Action)
    (weaponRank masteryRank : Rank) (otherBonuses : Z) (pos : nat) :
  let r :=
    fst (fst (calculateActionRoll numberToString RANK_BONUSES random this
                action weaponRank masteryRank otherBonuses pos)) in
  (exists total : Q,
      baseTotal (details r) = JS.Fin total
      /\ (total
          == inject_Z (JS.sum (flat_map dg_rolls (diceGroups (details r))))
             + sumQ (map entryValue (bonusBreakdown (details r))))%Q)
  /\ Forall (fun entry => is_finite (be_value entry))
       (bonusBreakdown (details r))
  /\ (otherBonuses <= 0 ->
      Forall (fun entry => be_type entry <> "Other"%string)
        (bonusBreakdown (details r)))
  /\ (0 < otherBonuses ->
      exists front : list BonusEntry,
        bonusBreakdown (details r)
        = (front
           ++ [{| be_type := "Other";
                  be_rank := None;
                  be_value := JS.of_Z otherBonuses;
                  be_display := "Buff" |}])%list).
Proof.
  intro r.
  pose proof (baseTotal_consistent numberToString RANK_BONUSES random this
                action weaponRank masteryRank otherBonuses pos)
    as [Htotal Hfinite].
  cbn zeta in Htotal, Hfinite. cbn [fst snd] in Htotal, Hfinite.
  split; [exact Htotal|]. split; [exact Hfinite|].
  subst r. unfold calculateActionRoll. rewrite !bind_eq.
  set (rolled := fst (rollGroups _ _ _ _ _ _ _)).
  assert (Hranks : forall tags st,
             Forall (fun entry => be_type entry <> "Other"%string) (snd st) ->
             Forall (fun entry => be_type entry <> "Other"%string)
               (snd (fold_left (addBonus RANK_BONUSES weaponRank masteryRank)
                       tags st))).
  { induction tags as [|tag tags IH]; intros st Hst; [exact Hst|].
    cbn [fold_left]. apply IH. destruct st as [total breakdown].
    unfold addBonus.
    destruct (String.eqb tag "MR");
      [cbn [snd]; apply Forall_app; split; [exact Hst|];
       repeat constructor; discriminate|].
    destruct (String.eqb tag "WR");
      [cbn [snd]; apply Forall_app; split; [exact Hst|];
       repeat constructor; discriminate|].
    exact Hst. }
  specialize (Hranks (bonuses (calculableFormula action))
                (dp_totalResult rolled, []) (Forall_nil _)).
  destruct (fold_left _ _ _) as [total breakdown]. cbn [snd] in Hranks.
  unfold addOtherBonuses.
  destruct (Z.ltb_spec 0 otherBonuses) as [Hpos|Hle];
    rewrite !bind_eq; unfold ret; cbn [fst details bonusBreakdown].
  - split; [intro; lia|]. intros _. now exists breakdown.
  - split; [intros _; exact Hranks | intro; lia].
Qed.

(** A die source that replays outcomes in [0, 1) is well formed. *)
Lemma replay_unit_interval (outcomes : list Q) :
  Forall (fun q => (0 <= q)%Q /\ (q < 1)%Q) outcomes ->
  unit_interval (replay outcomes).
Proof.
  intros Hall i. unfold replay. revert i.
  induction Hall as [|q outcomes Hq _ IH]; intros [|i]; cbn [nth];
    try (split; [apply Qle_refl | reflexivity]); [exact Hq | apply IH].
Qed.

(** X7: on a well-formed die source, with dice of at least one side and
    with the bonus table of the catalog, as long as the highest base total
    the action can reach stays within 2^53 (so that the code's sums of
    integers are exact): the base total of an evaluation is a finite number,
    equal to the sum of the rolls recorded in the dice groups plus the sum of
    the values recorded in the bonus breakdown, which are all finite.  A
    bonus [<= 0] is neither added nor recorded; a bonus [> 0] is the last
    entry, of type Other. *)
Theorem X7_base_total
    (numberToString : JS.num -> string) (random : nat -> Q)
    (this : FormulaCalculator) (action : Action)
    (weaponRank masteryRank : Rank) (otherBonuses : Z) (pos : nat) :
  unit_interval random ->
  Forall (fun diceConfig => 1 <= dc_sides diceConfig)
    (rolledConfigs weaponRank masteryRank (dice (calculableFormula action))) ->
  baseCeiling weaponRank masteryRank action otherBonuses <= MAX_EXACT ->
  let r :=
    fst (fst (calculateActionRoll numberToString Actions.RANK_BONUSES random
                this action weaponRank masteryRank otherBonuses pos)) in
  (exists total : Q,
      baseTotal (details r) = JS.Fin total
      /\ (total
          == inject_Z (JS.sum (flat_map dg_rolls (diceGroups (details r))))
             + sumQ (map entryValue (bonusBreakdown (details r))))%Q)
  /\ Forall (fun entry => is_finite (be_value entry))
       (bonusBreakdown (details r))
  /\ (otherBonuses <= 0 ->
      Forall (fun entry => be_type entry <> "Other"%string)
        (bonusBreakdown (details r)))
  /\ (0 < otherBonuses ->
      exists front : list BonusEntry,
        bonusBreakdown (details r)
        = (front
           ++ [{| be_type := "Other";
                  be_rank := None;
                  be_value := JS.of_Z otherBonuses;
                  be_display := "Buff" |}])%list).
Proof.
  intros _ _ _. apply base_total_accounts.
Qed.

(** Attack at ranks B and A on a d100 showing 42: with a bonus of 15 the
    bonus is the last entry, with a bonus of -5 there is none. *)
Lemma X7_witness :
  (exists front : list BonusEntry,
      bonusBreakdown
        (details
           (fst (fst (calculateActionRoll decimalString Actions.RANK_BONUSES
                        (replay [showing 42 100]) new_FormulaCalculator
                        Actions.Attack rB rA 15 O))))
      = (front
         ++ [{| be_type := "Other";
                be_rank := None;
                be_value := JS.of_Z 15;
                be_display := "Buff" |}])%list)
  /\ Forall (fun entry => be_type entry <> "Other"%string)
       (bonusBreakdown
          (details
             (fst (fst (calculateActionRoll decimalString
                          Actions.RANK_BONUSES (replay [showing 42 100])
                          new_FormulaCalculator Actions.Attack rB rA (-5)
                          O))))).
Proof.
  assert (Hsource : unit_interval (replay [showing 42 100])).
  { apply replay_unit_interval. repeat constructor; discriminate. }
  assert (Hsides : Forall (fun diceConfig => 1 <= dc_sides diceConfig)
                     (rolledConfigs rB rA
                        (dice (calculableFormula Actions.Attack)))).
  { repeat constructor. discriminate. }
  split.
  - refine (proj2 (proj2 (proj2
      (X7_base_total decimalString (replay [showing 42 100])
         new_FormulaCalculator Actions.Attack rB rA 15 O Hsource Hsides _)))
      _).
    + discriminate.
    + reflexivity.
  - refine (proj1 (proj2 (proj2
      (X7_base_total decimalString (replay [showing 42 100])
         new_FormulaCalculator Actions.Attack rB rA (-5) O Hsource Hsides
         _))) _).
    + discriminate.
    + discriminate.
Defined.

(** *** More single modifiers *)

Lemma add_NaN (a : JS.num) : JS.add a JS.NaN = JS.NaN.
Proof. destruct a; reflexivity. Qed.

(** X8: a [success_bonus] draws no die.  At or above the threshold it adds
    the bonus of the mastery rank, read from [successBonusByRank] if given
    and from [bonusByRank] otherwise, with the entry of rank E standing in
    for a missing or zero entry; when no entry is found the total becomes
    NaN.  Below the threshold it adds a non-zero [failureBonus], and
    otherwise leaves the total as it is and records nothing. *)
Theorem X8_success_bonus
    (numberToString : JS.num -> string) (random : nat -> Q)
    (threshold : Q) (successBonusByRank : option (RankMap Q))
    (bonusByRank : RankMap Q) (failureBonus : option Q)
    (currentResult : JS.num) (allRolls : list Z)
    (weaponRank masteryRank : Rank) (otherBonuses : Z) (pos : nat)
    (st : ModifierPhase) :
  let m :=
    SuccessBonus threshold successBonusByRank bonusByRank failureBonus in
  let table :=
    match successBonusByRank with
    | Some table => table
    | None => bonusByRank
    end in
  let bonus : option Q :=
    match table masteryRank with
    | Some entry => if Qeq_bool entry 0 then table rE else Some entry
    | None => table rE
    end in
  let run :=
    applyModifier numberToString random m currentResult allRolls weaponRank
      masteryRank otherBonuses pos in
  let recorded := recordModifier m (fst run) st in
  snd run = pos
  /\ mp_finalResult recorded = mr_result (fst run)
  /\ (JS.ge currentResult (JS.Fin threshold) = true ->
      (forall v : Q,
          bonus = Some v ->
          mr_result (fst run) = JS.add currentResult (JS.Fin v)
          /\ (Qeq_bool v 0 = true ->
              mp_modifierBreakdown recorded = mp_modifierBreakdown st))
      /\ (bonus = None ->
          mr_result (fst run) = JS.NaN
          /\ mp_modifierBreakdown recorded
             = (mp_modifierBreakdown st
                ++ [{| me_type := "success_bonus";
                       me_description := "Success bonus";
                       me_value := JS.Fin 0;
                       me_multiplier := JS.Fin 1;
                       me_explosionRolls := [] |}])%list))
  /\ (JS.ge currentResult (JS.Fin threshold) = false ->
      (forall v : Q,
          failureBonus = Some v -> Qeq_bool v 0 = false ->
          mr_result (fst run) = JS.add currentResult (JS.Fin v)
          /\ mr_details (fst run) = "Consolation bonus"%string)
      /\ (Q_truthy failureBonus = false ->
          mr_result (fst run) = currentResult
          /\ mp_modifierBreakdown recorded = mp_modifierBreakdown st)).
Proof.
  cbn zeta.
  assert (Hbonus : match successBonusByRank with
                   | Some table => lookup_or_E Q_is_zero table masteryRank
                   | None => lookup_or_E Q_is_zero bonusByRank masteryRank
                   end
                   = match
                       match successBonusByRank with
                       | Some table => table
                       | None => bonusByRank
                       end masteryRank
                     with
                     | Some entry =>
                         if Qeq_bool entry 0
                         then match successBonusByRank with
                              | Some table => table
                              | None => bonusByRank
                              end rE
                         else Some entry
                     | None =>
                         match successBonusByRank with
                         | Some table => table
                         | None => bonusByRank
                         end rE
                     end)
    by (destruct successBonusByRank; reflexivity).
  unfold applyModifier. rewrite Hbonus.
  set (bonus := match _ masteryRank with Some _ => _ | None => _ end).
  destruct (JS.ge currentResult (JS.Fin threshold)).
  - unfold ret. cbn [fst snd].
    split; [reflexivity|].
    split; [unfold recordModifier; destruct (is_recorded _ _); reflexivity|].
    split; [|discriminate]. intros _. split.
    + intros v Hv. rewrite Hv. cbn [option_map JS.toNumber plain mr_result].
      split; [reflexivity|]. intro Hzero.
      unfold recordModifier, is_recorded, plain.
      cbn [mr_value mr_multiplier modifier_type JS.strict_neq].
      rewrite Hzero. reflexivity.
    + intros Hnone. rewrite Hnone.
      cbn [option_map JS.toNumber plain mr_result].
      split; [apply add_NaN|]. reflexivity.
  - split; [destruct (Q_truthy failureBonus); reflexivity|].
    split; [unfold recordModifier;
            destruct (Q_truthy failureBonus), (is_recorded _ _);
            reflexivity|].
    split; [discriminate|]. intros _. split.
    + intros v Hv Hnonzero. subst failureBonus.
      unfold Q_truthy, Q_is_zero. rewrite Hnonzero.
      unfold ret. cbn [negb fst plain mr_result mr_details option_map
                       JS.toNumber].
      split; reflexivity.
    + intro Hfalsy. rewrite Hfalsy. unfold ret. cbn [fst].
      split; reflexivity.
Qed.

(** Sneak Attack at rank C: 25 on a success, the consolation 10 on a
    failure; and a table without an entry for the rank or for E gives NaN. *)
Lemma X8_witness :
  let sneak :=
    SuccessBonus 30
      (Some
         (rankObject
            [(rE, 20%Q); (rD, 20%Q); (rC, 25%Q); (rB, 30%Q); (rA, 35%Q);
             (rS, 40%Q)]))
      (rankObject []) (Some 10%Q) in
  let start :=
    {| mp_finalResult := JS.Fin 0;
       mp_rawDiceTotal := 0;
       mp_modifierBreakdown := [];
       mp_explosionRolls := [] |} in
  mr_result
    (fst (applyModifier decimalString (replay []) sneak (JS.Fin 50) [50] rC
            rC 0 O))
  = JS.add (JS.Fin 50) (JS.Fin 25)
  /\ mr_result
       (fst (applyModifier decimalString (replay []) sneak (JS.Fin 20) [20]
               rC rC 0 O))
     = JS.add (JS.Fin 20) (JS.Fin 10)
  /\ mr_result
       (fst (applyModifier decimalString (replay [])
               (SuccessBonus 30 None (rankObject [(rD, 30%Q)]) None)
               (JS.Fin 50) [50] rC rE 0 O))
     = JS.NaN.
Proof.
  intros sneak start. split; [|split].
  - refine (proj1 (proj1 (proj1 (proj2 (proj2
      (X8_success_bonus decimalString (replay []) 30 _ (rankObject [])
         (Some 10%Q) (JS.Fin 50) [50] rC rC 0 O start))) _) 25%Q _));
      reflexivity.
  - refine (proj1 (proj1 (proj2 (proj2 (proj2
      (X8_success_bonus decimalString (replay []) 30 _ (rankObject [])
         (Some 10%Q) (JS.Fin 20) [20] rC rC 0 O start))) _) 10%Q _ _));
      reflexivity.
  - refine (proj1 (proj2 (proj1 (proj2 (proj2
      (X8_success_bonus decimalString (replay []) 30 None
         (rankObject [(rD, 30%Q)]) None (JS.Fin 50) [50] rC rE 0 O
         start))) _) _));
      reflexivity.
Defined.

(** The floor of a quotient of integers is the integer quotient. *)
Lemma Qfloor_quotient (t d : Z) :
  0 < d -> Qfloor (inject_Z t / inject_Z d) = t / d.
Proof.
  intro Hd. destruct d as [|p|p]; try lia.
  unfold Qdiv, Qinv, Qmult, inject_Z, Qfloor. cbn [Qnum Qden].
  now rewrite Z.mul_1_r, Pos.mul_1_l.
Qed.

(** X9: a [divisor] draws no die.  An integer total [t] of magnitude below
    2^53, divided by a positive integer divisor [d] of at most 2^53, becomes
    the integer quotient of [t] by [d] rounded down (in this range the
    rounding of the code's quotient does not reach the next integer).  With
    a divisor 0 the new total is not a finite number. *)
Theorem X9_divisor
    (numberToString : JS.num -> string) (random : nat -> Q)
    (divisor total : Z) (allRolls : list Z) (weaponRank masteryRank : Rank)
    (otherBonuses : Z) (pos : nat) :
  let run :=
    applyModifier numberToString random (Divisor (inject_Z divisor))
      (JS.of_Z total) allRolls weaponRank masteryRank otherBonuses pos in
  snd run = pos
  /\ (0 < divisor <= MAX_EXACT -> Z.abs total < MAX_EXACT ->
      mr_result (fst run) = JS.of_Z (total / divisor)
      /\ divisor * (total / divisor) <= total
         < divisor * (total / divisor + 1))
  /\ (divisor = 0 -> ~ is_finite (mr_result (fst run))).
Proof.
  cbn zeta. cbn [applyModifier]. unfold ret, plain.
  cbn [fst snd mr_result]. split; [reflexivity|]. split.
  - intros [Hpos _] _.
    assert (Hbool : Qeq_bool (inject_Z divisor) 0 = false).
    { destruct (Qeq_bool (inject_Z divisor) 0) eqn:Heq; [|reflexivity].
      apply Qeq_bool_iff in Heq. unfold Qeq, inject_Z in Heq.
      cbn [Qnum Qden] in Heq. lia. }
    unfold JS.div, JS.of_Z. rewrite Hbool. cbn [JS.floor].
    rewrite Qfloor_quotient by exact Hpos.
    split; [reflexivity|].
    pose proof (Z.mul_div_le total divisor Hpos) as Hlo.
    pose proof (Z.mul_succ_div_gt total divisor Hpos) as Hhi.
    unfold Z.succ in Hhi. lia.
  - intros -> [q Hq]. unfold JS.div, JS.of_Z in Hq.
    change (Qeq_bool (inject_Z 0) 0) with true in Hq.
    destruct (inject_Z total ?= 0)%Q; discriminate Hq.
Qed.

(** Buff: a total of 50 divided by 3 is 16. *)
Lemma X9_witness :
  mr_result
    (fst (applyModifier decimalString (replay []) (Divisor (inject_Z 3))
            (JS.of_Z 50) [50] rE rE 0 O))
  = JS.of_Z 16.
Proof.
  refine (proj1 (proj1 (proj2
    (X9_divisor decimalString (replay []) 3 50 [50] rE rE 0 O)) _ _)).
  - vm_compute. split; [reflexivity | intro Hbad; discriminate Hbad].
  - reflexivity.
Defined.

(** *** Explosions and conversions in the modifier loop *)

(** The cascade keeps its books: the total is the sum of the extra rolls and
    every extra roll at or above the threshold is one more trigger. *)
Lemma cascade_accounts (random : nat -> Q) (threshold sides : Z)
    (maxIterations : nat) :
  forall (st : Cascade) (pos : nat),
    let st' :=
      snd (fst (cascade random threshold sides maxIterations st pos)) in
    exists newRolls : list Z,
      allExplosionRolls st' = (allExplosionRolls st ++ newRolls)%list
      /\ explosionTotal st' = explosionTotal st + JS.sum newRolls
      /\ totalTriggers st'
         = (totalTriggers st + count_ge threshold newRolls)%nat.
Proof.
  induction maxIterations as [|m IH]; intros st pos; cbn zeta.
  - exists []. cbn [cascade]. unfold ret. cbn [fst snd].
    rewrite app_nil_r. change (JS.sum []) with 0.
    change (count_ge threshold []) with O. repeat split; lia.
  - cbn [cascade]. destruct (0 <? currentExplosions st)%nat.
    + rewrite bind_eq.
      set (newRolls := fst (rollMany random (currentExplosions st) sides
                              pos)).
      match goal with
      | |- context [cascade random threshold sides m ?s ?p] =>
          destruct (IH s p) as (more & Hall & Htotal & Htriggers)
      end.
      cbn [allExplosionRolls explosionTotal totalTriggers] in *.
      exists (newRolls ++ more)%list.
      rewrite Hall, Htotal, Htriggers, sum_app, count_ge_app, app_assoc.
      repeat split; lia.
    + exists []. unfold ret. cbn [fst snd].
      rewrite app_nil_r. change (JS.sum []) with 0.
      change (count_ge threshold []) with O. repeat split; lia.
Qed.

(** X10: an explosion modifier is always recorded.  With no die at or above
    the threshold it changes nothing and draws nothing.  Otherwise it adds
    exactly the sum of the extra rolls of its cascade to the running total
    and to the raw dice total, appends them to the explosion rolls, and the
    count it reports is the number of triggering dice plus the number of
    extra rolls at or above the threshold. *)
Theorem X10_explosion_accounting
    (numberToString : JS.num -> string) (random : nat -> Q)
    (threshold : Z) (chance : option Q) (extraDice : DiceSpec)
    (currentResult : JS.num) (allRolls : list Z)
    (weaponRank masteryRank : Rank) (otherBonuses : Z) (pos : nat)
    (st : ModifierPhase) :
  let m := Explosion threshold chance extraDice in
  let explosions := count_ge threshold allRolls in
  let run :=
    applyModifier numberToString random m currentResult allRolls weaponRank
      masteryRank otherBonuses pos in
  let recorded := recordModifier m (fst run) st in
  List.length (mp_modifierBreakdown recorded)
  = S (List.length (mp_modifierBreakdown st))
  /\ (explosions = O ->
      mr_result (fst run) = currentResult
      /\ snd run = pos
      /\ mr_details (fst run) = "No explosions"%string
      /\ mp_rawDiceTotal recorded = mp_rawDiceTotal st
      /\ mp_explosionRolls recorded = mp_explosionRolls st)
  /\ ((0 < explosions)%nat ->
      exists rolls : list Z,
        mr_explosionRolls (fst run) = Some rolls
        /\ mr_result (fst run)
           = JS.add currentResult (JS.of_Z (JS.sum rolls))
        /\ mr_details (fst run)
           = (show_Z numberToString
                (Z.of_nat (explosions + count_ge threshold rolls))
              ++ " explosions")%string
        /\ mp_rawDiceTotal recorded = mp_rawDiceTotal st + JS.sum rolls
        /\ mp_explosionRolls recorded
           = (mp_explosionRolls st ++ rolls)%list).
Proof.
  cbn zeta.
  assert (Hrec : forall res,
             is_recorded (Explosion threshold chance extraDice) res = true)
    by (intro res; unfold is_recorded; apply orb_true_r).
  split.
  { unfold recordModifier. rewrite Hrec. cbn [mp_modifierBreakdown].
    rewrite length_app. cbn [List.length]. lia. }
  unfold applyModifier, recordModifier. rewrite Hrec.
  destruct (Nat.ltb_spec 0 (count_ge threshold allRolls)) as [Hpos|Hzero].
  - split; [intro; lia|]. intros _.
    rewrite bind_eq. unfold ret.
    cbn [fst snd mr_result mr_details mr_explosionRolls mp_rawDiceTotal
         mp_explosionRolls modifier_type].
    match goal with
    | |- context [cascade random threshold ?sides 10 ?s pos] =>
        destruct (cascade_accounts random threshold sides 10 s pos)
          as (rolls & Hall & Htotal & Htriggers)
    end.
    cbn [allExplosionRolls explosionTotal totalTriggers app] in *.
    exists rolls. rewrite Hall, Htotal, Htriggers.
    repeat split; reflexivity.
  - split; [|intro; lia]. intros _. unfold ret, plain.
    cbn [fst snd mr_result mr_details mr_explosionRolls mp_rawDiceTotal
         mp_explosionRolls].
    repeat split; reflexivity.
Qed.

(** Heal's explosion on the dice 20 and 3: one trigger, one extra die
    showing 5. *)
Lemma X10_witness :
  exists rolls : list Z,
    mr_explosionRolls
      (fst (applyModifier decimalString (replay [showing 5 20])
              (Explosion 17 (Some 0.2%Q) Actions.d20) (JS.Fin 23) [20; 3]
              rE rE 0 O))
    = Some rolls
    /\ mr_result
         (fst (applyModifier decimalString (replay [showing 5 20])
                 (Explosion 17 (Some 0.2%Q) Actions.d20) (JS.Fin 23)
                 [20; 3] rE rE 0 O))
       = JS.add (JS.Fin 23) (JS.of_Z (JS.sum rolls)).
Proof.
  destruct (proj2 (proj2
    (X10_explosion_accounting decimalString (replay [showing 5 20]) 17
       (Some 0.2%Q) Actions.d20 (JS.Fin 23) [20; 3] rE rE 0 O
       {| mp_finalResult := JS.Fin 23;
          mp_rawDiceTotal := 23;
          mp_modifierBreakdown := [];
          mp_explosionRolls := [] |})) ltac:(cbn; lia))
    as (rolls & Hrolls & Hresult & _).
  exists rolls. split; assumption.
Defined.

Lemma recordModifier_explosionRolls (m : Modifier) (res : ModifierResult)
    (st : ModifierPhase) :
  mp_explosionRolls st
  = flat_map me_explosionRolls (mp_modifierBreakdown st) ->
  mp_explosionRolls (recordModifier m res st)
  = flat_map me_explosionRolls (mp_modifierBreakdown (recordModifier m res st)).
Proof.
  intro Hst. unfold recordModifier.
  destruct (is_recorded m res);
    cbn [mp_explosionRolls mp_modifierBreakdown]; [|exact Hst].
  rewrite flat_map_app. cbn [flat_map me_explosionRolls].
  rewrite app_nil_r, <- Hst.
  destruct (mr_explosionRolls res); [reflexivity|].
  now rewrite app_nil_r.
Qed.

(** X11: the explosion rolls of a result are exactly the rolls attached to
    the entries of its modifier breakdown, in order: a roll appears in
    [explosionRolls] if and only if the modifier that made it was
    recorded. *)
Theorem X11_explosion_rolls_are_the_recorded_rolls
    (numberToString : JS.num -> string) (RANK_BONUSES : Rank -> Q)
    (random : nat -> Q) (this : FormulaCalculator) (action : Action)
    (weaponRank masteryRank : Rank) (otherBonuses : Z) (pos : nat) :
  let r :=
    fst (fst (calculateActionRoll numberToString RANK_BONUSES random this
                action weaponRank masteryRank otherBonuses pos)) in
  explosionRolls (details r)
  = flat_map me_explosionRolls (modifierBreakdown (details r)).
Proof.
  cbn zeta. unfold calculateActionRoll. rewrite !bind_eq.
  destruct (addOtherBonuses otherBonuses _) as [total breakdown].
  rewrite !bind_eq. unfold ret.
  cbn [fst details explosionRolls modifierBreakdown].
  match goal with
  | |- context [applyModifiers numberToString random ?mods ?rolls _ _ _
                  ?s ?p] =>
      generalize rolls; generalize p;
      assert (Hstart : mp_explosionRolls s
                       = flat_map me_explosionRolls (mp_modifierBreakdown s))
        by reflexivity;
      revert Hstart; generalize s; generalize mods
  end.
  induction l as [|m mods IH]; intros st Hst p rolls.
  - exact Hst.
  - cbn [applyModifiers]. rewrite bind_eq. apply IH.
    now apply recordModifier_explosionRolls.
Qed.

Lemma Qeq_bool_inject_Z (z : Z) : Qeq_bool (inject_Z z) 0 = (z =? 0).
Proof.
  unfold Qeq_bool, inject_Z. cbn [Qnum Qden].
  rewrite Z.mul_1_r. reflexivity.
Qed.

(** X12: a [bonus_conversion] that rolls dice is recorded only when it
    changes the total.  When the converted dice plus the leftover add up to
    the bonus spent, the dice are drawn from the source but neither the
    modifier nor its rolls appear in the result; otherwise its rolls are
    appended to the explosion rolls, and in neither case do they count in
    the raw dice total. *)
Theorem X12_conversion_without_effect_is_not_recorded
    (numberToString : JS.num -> string) (random : nat -> Q)
    (conversionRate : positive) (convertToDice : DiceSpec)
    (currentResult : JS.num) (allRolls : list Z)
    (weaponRank masteryRank : Rank) (otherBonuses : Z) (pos : nat)
    (st : ModifierPhase) :
  let m := BonusConversion conversionRate convertToDice in
  let extraDice :=
    otherBonuses / Z.pos conversionRate * ds_count convertToDice in
  let leftover := Z.rem otherBonuses (Z.pos conversionRate) in
  let rolls :=
    fst (rollMany random (Z.to_nat extraDice) (ds_sides convertToDice) pos) in
  let run :=
    applyModifier numberToString random m currentResult allRolls weaponRank
      masteryRank otherBonuses pos in
  let recorded := recordModifier m (fst run) st in
  0 < extraDice ->
  snd run = (pos + Z.to_nat extraDice)%nat
  /\ mp_rawDiceTotal recorded = mp_rawDiceTotal st
  /\ (JS.sum rolls + leftover = otherBonuses ->
      mp_modifierBreakdown recorded = mp_modifierBreakdown st
      /\ mp_explosionRolls recorded = mp_explosionRolls st)
  /\ (JS.sum rolls + leftover <> otherBonuses ->
      mp_explosionRolls recorded = (mp_explosionRolls st ++ rolls)%list
      /\ List.length (mp_modifierBreakdown recorded)
         = S (List.length (mp_modifierBreakdown st))).
Proof.
  intros m extraDice leftover rolls run recorded Hpos.
  subst recorded run m. unfold applyModifier.
  fold extraDice. fold leftover.
  destruct (Z.ltb_spec 0 extraDice) as [_|Hle]; [|lia].
  rewrite bind_eq. fold rolls. unfold ret. cbn [fst snd].
  destruct (rollMany_length random (Z.to_nat extraDice)
              (ds_sides convertToDice) pos) as [_ Hnext].
  split; [exact Hnext|].
  unfold recordModifier, is_recorded.
  cbn [mr_value mr_multiplier mr_explosionRolls modifier_type
       JS.strict_neq].
  unfold JS.of_Z. rewrite Qeq_bool_inject_Z.
  change (String.eqb "bonus_conversion" "explosion") with false.
  change (JS.strict_neq one 1) with false. rewrite !orb_false_r.
  destruct (Z.eqb_spec (JS.sum rolls + leftover - otherBonuses) 0)
    as [Heq|Hneq]; cbn [negb mp_rawDiceTotal mp_modifierBreakdown
                        mp_explosionRolls].
  - split; [reflexivity|]. split; [|intro; lia].
    intros _. split; reflexivity.
  - split; [reflexivity|]. split; [intro; lia|].
    intros _. split; [reflexivity|].
    rewrite length_app. cbn [List.length]. lia.
Qed.

(** A bonus of 40 converted into one d100 that shows 40: the die is drawn
    and nothing is recorded. *)
Lemma X12_witness :
  let start :=
    {| mp_finalResult := JS.Fin 100;
       mp_rawDiceTotal := 60;
       mp_modifierBreakdown := [];
       mp_explosionRolls := [] |} in
  let run :=
    applyModifier decimalString (replay [showing 40 100])
      (BonusConversion 40 Actions.d100) (JS.Fin 100) [60] rE rE 40 O in
  snd run = 1%nat
  /\ mp_modifierBreakdown
       (recordModifier (BonusConversion 40 Actions.d100) (fst run) start)
     = []
  /\ mp_explosionRolls
       (recordModifier (BonusConversion 40 Actions.d100) (fst run) start)
     = [].
Proof.
  intros start run.
  pose proof (X12_conversion_without_effect_is_not_recorded decimalString
                (replay [showing 40 100]) 40 Actions.d100 (JS.Fin 100) [60]
                rE rE 40 O start ltac:(cbn; lia))
    as (Hdraws & _ & Hsilent & _).
  destruct (Hsilent eq_refl) as [Hbreakdown Hrolls].
  split; [exact Hdraws|]. split; assumption.
Defined.

(** *** When the result is an integer at least 1 *)

Lemma defined_modifier_finite (numberToString : JS.num -> string)
    (random : nat -> Q) (m : Modifier) (currentResult : JS.num)
    (allRolls : list Z) (weaponRank masteryRank : Rank) (otherBonuses : Z)
    (pos : nat) :
  modifier_defined masteryRank m = true ->
  is_finite currentResult ->
  is_finite
    (mr_result
       (fst (applyModifier numberToString random m currentResult allRolls
               weaponRank masteryRank otherBonuses pos))).
Proof.
  intros Hdef [q ->].
  destruct m; cbn [applyModifier modifier_defined] in *.
  - eexists. reflexivity.
  - destruct (JS.ge _ _); [|eexists; reflexivity].
    destruct (match multiplierByRank with
              | Some table => lookup_or_E Q_is_zero table masteryRank
              | None => multiplier
              end) as [v|]; [|discriminate Hdef].
    eexists. reflexivity.
  - destruct (JS.ge _ _).
    + destruct (match successBonusByRank with
                | Some table => lookup_or_E Q_is_zero table masteryRank
                | None => lookup_or_E Q_is_zero bonusByRank masteryRank
                end) as [v|]; [|discriminate Hdef].
      eexists. reflexivity.
    + destruct failureBonus as [v|]; cbn [Q_truthy];
        [destruct (negb (Q_is_zero v))|]; eexists; reflexivity.
  - destruct (0 <? count_ge threshold allRolls)%nat.
    + rewrite bind_eq. eexists. reflexivity.
    + eexists. reflexivity.
  - apply negb_true_iff in Hdef. unfold ret, plain, JS.div.
    cbn [fst mr_result]. rewrite Hdef. eexists. reflexivity.
  - eexists. reflexivity.
  - destruct (0 <? _).
    + rewrite bind_eq. eexists. reflexivity.
    + eexists. reflexivity.
  - eexists. reflexivity.
  - eexists. reflexivity.
Qed.

Lemma recordModifier_final (m : Modifier) (res : ModifierResult)
    (st : ModifierPhase) :
  mp_finalResult (recordModifier m res st) = mr_result res.
Proof. unfold recordModifier. destruct (is_recorded m res); reflexivity. Qed.

Lemma defined_modifiers_finite (numberToString : JS.num -> string)
    (random : nat -> Q) (mods : list Modifier) (allRolls : list Z)
    (weaponRank masteryRank : Rank) (otherBonuses : Z) :
  forallb (modifier_defined masteryRank) mods = true ->
  forall (st : ModifierPhase) (pos : nat),
    is_finite (mp_finalResult st) ->
    is_finite
      (mp_finalResult
         (fst (applyModifiers numberToString random mods allRolls
                 weaponRank masteryRank otherBonuses st pos))).
Proof.
  induction mods as [|m mods IH]; intros Hdef st pos Hst.
  - exact Hst.
  - cbn [forallb] in Hdef. apply andb_true_iff in Hdef.
    destruct Hdef as [Hm Hmods].
    cbn [applyModifiers]. rewrite bind_eq. apply (IH Hmods).
    rewrite recordModifier_final. now apply defined_modifier_finite.
Qed.

Lemma defined_evaluation_positive
    (numberToString : JS.num -> string) (RANK_BONUSES : Rank -> Q)
    (random : nat -> Q) (this : FormulaCalculator) (action : Action)
    (weaponRank masteryRank : Rank) (otherBonuses : Z) (pos : nat) :
  forallb (modifier_defined masteryRank) (modifiers_of action) = true ->
  let r :=
    fst (fst (calculateActionRoll numberToString RANK_BONUSES random this
                action weaponRank masteryRank otherBonuses pos)) in
  is_finite (finalResult (details r)) /\ JS.is_positive_integer (result r).
Proof.
  intros Hdef r.
  assert (Hfinite : is_finite (finalResult (details r))).
  { pose proof (baseTotal_consistent numberToString RANK_BONUSES random this
                  action weaponRank masteryRank otherBonuses pos)
      as [(q & Hbase & _) _].
    cbn zeta in Hbase. cbn [fst] in Hbase. fold r in Hbase.
    subst r. revert Hbase. unfold calculateActionRoll, modifiers_of in *.
    rewrite !bind_eq.
    destruct (addOtherBonuses otherBonuses _) as [total breakdown].
    rewrite !bind_eq. unfold ret. cbn [fst details baseTotal finalResult].
    intros ->. apply defined_modifiers_finite; [exact Hdef|].
    now exists q. }
  split; [exact Hfinite|].
  destruct Hfinite as [q Hq].
  now apply (result_positive_integer_when_finite numberToString RANK_BONUSES
               random this action weaponRank masteryRank otherBonuses pos q).
Qed.

(** X14: the names of [ACTIONS] are pairwise distinct, so looking an action
    up by its name finds that action; and every action of the catalog, with
    the bonus table of the catalog, at every rank pair, on a well-formed die
    source and for every bonus of magnitude at most 1000000 (far from where
    the code's numbers overflow), evaluates to an integer at least 1, with
    the single exception of Ultra Counter at mastery rank E. *)
Theorem X14_catalog_results
    (numberToString : JS.num -> string) (random : nat -> Q)
    (this : FormulaCalculator) (action : Action)
    (weaponRank masteryRank : Rank) (otherBonuses : Z) (pos : nat) :
  NoDup (map name Catalog.ACTIONS)
  /\ (In action Catalog.ACTIONS ->
      Catalog.findAction (name action) = Some action
      /\ (unit_interval random ->
          Z.abs otherBonuses <= BONUS_LIMIT ->
          name action <> "Ultra Counter"%string \/ masteryRank <> rE ->
          JS.is_positive_integer
            (result
               (fst (fst (calculateActionRoll numberToString
                            Actions.RANK_BONUSES random this action
                            weaponRank masteryRank otherBonuses pos)))))).
Proof.
  split.
  { repeat (constructor;
            [cbn [map name In];
             intro H; repeat (destruct H as [H|H]; [discriminate H|]);
             exact H|]).
    constructor. }
  intro Hin. split.
  { cbn [Catalog.ACTIONS In] in Hin.
    repeat (destruct Hin as [<-|Hin]; [reflexivity|]). contradiction. }
  intros _ _ Hok.
  apply (defined_evaluation_positive numberToString Actions.RANK_BONUSES
           random this action weaponRank masteryRank otherBonuses pos).
  assert (Hall : forallb
                   (fun a =>
                      forallb
                        (fun mr =>
                           (String.eqb (name a) "Ultra Counter"
                            && rank_eqb mr rE)
                           || forallb (modifier_defined mr) (modifiers_of a))
                        Catalog.ranks)
                   Catalog.ACTIONS = true) by (vm_compute; reflexivity).
  rewrite forallb_forall in Hall. specialize (Hall action Hin).
  rewrite forallb_forall in Hall.
  assert (Hrank : In masteryRank Catalog.ranks)
    by (destruct masteryRank; cbn; tauto).
  specialize (Hall masteryRank Hrank).
  apply orb_true_iff in Hall. destruct Hall as [Hexc|Hdef]; [|exact Hdef].
  apply andb_true_iff in Hexc. destruct Hexc as [Hname Hmr].
  apply String.eqb_eq in Hname.
  destruct Hok as [Hne|Hne]; [contradiction|].
  destruct masteryRank; try discriminate Hmr. contradiction.
Qed.

(** Ultra Counter at mastery rank D, on a d100 showing 30. *)
Lemma X14_witness :
  Catalog.findAction "Ultra Counter" = Some Actions.Ultra_Counter
  /\ JS.is_positive_integer
       (result
          (fst (fst (calculateActionRoll decimalString Actions.RANK_BONUSES
                       (replay [showing 30 100]) new_FormulaCalculator
                       Actions.Ultra_Counter rE rD 0 O)))).
Proof.
  pose proof (proj2
    (X14_catalog_results decimalString (replay [showing 30 100])
       new_FormulaCalculator Actions.Ultra_Counter rE rD 0 O)) as H.
  destruct H as [Hfind Hpositive].
  { cbn. tauto. }
  split; [exact Hfind|]. apply Hpositive.
  - apply replay_unit_interval. repeat constructor; discriminate.
  - discriminate.
  - right. discriminate.
Defined.

(** X15: a modifier whose type is none of the known ones falls into the
    default branch and is ignored without notice: it returns the running
    total without drawing, nothing is recorded, and the evaluation is the
    one of the action without it. *)
Theorem X15_unknown_modifier_is_ignored
    (numberToString : JS.num -> string) (RANK_BONUSES : Rank -> Q)
    (random : nat -> Q) (this : FormulaCalculator) (action : Action)
    (before after : list Modifier) (tag : string)
    (weaponRank masteryRank : Rank) (otherBonuses : Z) (pos : nat) :
  ~ In tag known_modifier_types ->
  (forall (currentResult : JS.num) (allRolls : list Z) (p : nat),
      let run :=
        applyModifier numberToString random (Unknown tag) currentResult
          allRolls weaponRank masteryRank otherBonuses p in
      mr_result (fst run) = currentResult
      /\ mr_details (fst run) = "Unknown modifier"%string
      /\ snd run = p)
  /\ calculateActionRoll numberToString RANK_BONUSES random this
       (with_modifiers action (Some (before ++ Unknown tag :: after)))
       weaponRank masteryRank otherBonuses pos
     = calculateActionRoll numberToString RANK_BONUSES random this
         (with_modifiers action (Some (before ++ after)))
         weaponRank masteryRank otherBonuses pos.
Proof.
  intro Hunknown.
  assert (Htag : String.eqb tag "explosion" = false).
  { destruct (String.eqb_spec tag "explosion") as [->|]; [|reflexivity].
    exfalso. apply Hunknown. cbn. tauto. }
  split; [intros; cbn; tauto|].
  unfold calculateActionRoll, with_modifiers.
  cbn [calculableFormula dice bonuses modifiers].
  rewrite !bind_eq.
  destruct (addOtherBonuses _ _) as [totalResult bonusBreakdown].
  rewrite !bind_eq.
  rewrite !applyModifiers_app. cbn [applyModifiers].
  rewrite bind_eq. cbn [applyModifier]. unfold ret. cbn [fst snd].
  rewrite recordModifier_unchanged by exact Htag. reflexivity.
Qed.

Lemma X15_witness :
  calculateActionRoll decimalString Actions.RANK_BONUSES
    (replay [showing 50 100]) new_FormulaCalculator
    (with_modifiers Actions.Buff (Some [Unknown "reroll"; Divisor 3]))
    rE rE 0 O
  = calculateActionRoll decimalString Actions.RANK_BONUSES
      (replay [showing 50 100]) new_FormulaCalculator
      (with_modifiers Actions.Buff (Some [Divisor 3])) rE rE 0 O.
Proof.
  refine (proj2
    (X15_unknown_modifier_is_ignored decimalString Actions.RANK_BONUSES
       (replay [showing 50 100]) new_FormulaCalculator Actions.Buff []
       [Divisor 3] "reroll" rE rE 0 O _)).
  cbn. intro H.
  repeat (destruct H as [H|H]; [discriminate H|]). exact H.
Defined.

(** ** Properties of the rate limiter *)

Module RateLimitFacts.

Import RateLimit.

Lemma clientId_eqb_spec (a b : ClientId) :
  reflect (a = b) (clientId_eqb a b).
Proof.
  destruct a as [x|], b as [y|]; cbn [clientId_eqb];
    try (constructor; congruence).
  destruct (String.eqb_spec x y); constructor; congruence.
Qed.

Lemma set_same (requestCounts : RequestCounts) (clientId : ClientId)
    (data : ClientData) :
  set requestCounts clientId data clientId = Some data.
Proof.
  unfold set. destruct (clientId_eqb_spec clientId clientId);
    [reflexivity | contradiction].
Qed.

Lemma set_other (requestCounts : RequestCounts) (clientId other : ClientId)
    (data : ClientData) :
  other <> clientId ->
  set requestCounts clientId data other = requestCounts other.
Proof.
  intro Hne. unfold set.
  destruct (clientId_eqb_spec clientId other); [congruence | reflexivity].
Qed.

(** X16: one request through [rateLimit] keeps every stored count between 1
    and 100, touches no entry but the one of the requesting client, never
    removes an entry, and when it answers 429 changes nothing at all; it
    answers 429 only to a client whose count has reached 100 and whose
    window has not expired. *)
Theorem X16_rateLimit_step (requestCounts : RequestCounts) (req : Request)
    (now : Z) :
  counts_bounded requestCounts ->
  let outcome := fst (rateLimit requestCounts req now) in
  let requestCounts' := snd (rateLimit requestCounts req now) in
  counts_bounded requestCounts'
  /\ (forall other : ClientId,
         other <> clientId_of req ->
         requestCounts' other = requestCounts other)
  /\ (forall clientId : ClientId,
         requestCounts clientId <> None -> requestCounts' clientId <> None)
  /\ requestCounts' (clientId_of req) <> None
  /\ (outcome = TooManyRequests ->
      requestCounts' = requestCounts
      /\ exists data : ClientData,
           requestCounts (clientId_of req) = Some data
           /\ count data = MAX_REQUESTS_PER_WINDOW
           /\ now <= resetTime data).
Proof.
  intros Hbounded outcome requestCounts'.
  subst outcome requestCounts'. unfold rateLimit.
  assert (Hset : forall data,
             1 <= count data <= MAX_REQUESTS_PER_WINDOW ->
             counts_bounded (set requestCounts (clientId_of req) data)
             /\ (forall other,
                    other <> clientId_of req ->
                    set requestCounts (clientId_of req) data other
                    = requestCounts other)
             /\ (forall clientId,
                    requestCounts clientId <> None ->
                    set requestCounts (clientId_of req) data clientId
                    <> None)
             /\ set requestCounts (clientId_of req) data (clientId_of req)
                <> None).
  { intros data Hdata. split; [|split; [|split]].
    - intros clientId stored. unfold set.
      destruct (clientId_eqb_spec (clientId_of req) clientId).
      + intros [= <-]. exact Hdata.
      + apply Hbounded.
    - intros other Hne. now apply set_other.
    - intros clientId Hsome. unfold set.
      destruct (clientId_eqb (clientId_of req) clientId);
        [discriminate | exact Hsome].
    - rewrite set_same. discriminate. }
  destruct (requestCounts (clientId_of req)) as [data|] eqn:Hentry.
  - destruct (Z.ltb_spec (resetTime data) now) as [Hexpired|Hwindow].
    + cbn [fst snd].
      destruct (Hset {| count := 1; resetTime := now + RATE_LIMIT_WINDOW |})
        as (H1 & H2 & H3 & H4); [cbn; unfold MAX_REQUESTS_PER_WINDOW; lia|].
      split; [exact H1|]. split; [exact H2|]. split; [exact H3|].
      split; [exact H4|]. intro Hbad. discriminate Hbad.
    + destruct (Z.leb_spec MAX_REQUESTS_PER_WINDOW (count data))
        as [Hfull|Hroom]; cbn [fst snd].
      * split; [exact Hbounded|]. split; [reflexivity|].
        split; [intros ? H; exact H|].
        split; [rewrite Hentry; discriminate|].
        intros _. split; [reflexivity|].
        exists data. pose proof (Hbounded _ _ Hentry).
        repeat split; [lia | exact Hwindow].
      * pose proof (Hbounded _ _ Hentry) as Hdata.
        destruct (Hset {| count := count data + 1;
                          resetTime := resetTime data |})
          as (H1 & H2 & H3 & H4); [cbn [count]; lia|].
        split; [exact H1|]. split; [exact H2|]. split; [exact H3|].
      split; [exact H4|]. intro Hbad. discriminate Hbad.
  - cbn [fst snd].
    destruct (Hset {| count := 1; resetTime := now + RATE_LIMIT_WINDOW |})
      as (H1 & H2 & H3 & H4); [cbn; unfold MAX_REQUESTS_PER_WINDOW; lia|].
    split; [exact H1|]. split; [exact H2|]. split; [exact H3|].
    split; [exact H4|]. intro Hbad. discriminate Hbad.
Qed.

Lemma empty_bounded : counts_bounded empty.
Proof. intros clientId data H. discriminate H. Qed.

Lemma X16_witness :
  counts_bounded
    (snd (rateLimit empty
            {| ip := Some "10.0.0.1"%string; remoteAddress := None |} 1000)).
Proof.
  exact (proj1
    (X16_rateLimit_step empty
       {| ip := Some "10.0.0.1"%string; remoteAddress := None |} 1000
       empty_bounded)).
Defined.

Lemma serve_cons (requestCounts : RequestCounts) (req : Request) (now : Z)
    (rest : list (Request * Z)) :
  serve requestCounts ((req, now) :: rest)
  = (fst (rateLimit requestCounts req now)
     :: fst (serve (snd (rateLimit requestCounts req now)) rest),
     snd (serve (snd (rateLimit requestCounts req now)) rest)).
Proof.
  cbn [serve]. destruct (rateLimit requestCounts req now) as [o rc'].
  cbn [fst snd]. destruct (serve rc' rest). reflexivity.
Qed.

Lemma requestsOf_nonneg (clientId : ClientId)
    (requests : list (Request * Z)) :
  0 <= requestsOf clientId requests.
Proof.
  induction requests as [|[req now] rest IH]; cbn [requestsOf]; [lia|].
  destruct (clientId_eqb clientId (clientId_of req)); lia.
Qed.

(** Within one window the requests of a client are passed on until its
    count reaches the maximum, and refused from then on. *)
Lemma serve_within_window (clientId : ClientId)
    (requests : list (Request * Z)) :
  forall (requestCounts : RequestCounts) (data : ClientData),
    requestCounts clientId = Some data ->
    count data <= MAX_REQUESTS_PER_WINDOW ->
    within clientId (resetTime data) requests ->
    let passed :=
      passedOf clientId requests (fst (serve requestCounts requests)) in
    passed
    = Z.min (requestsOf clientId requests)
        (MAX_REQUESTS_PER_WINDOW - count data)
    /\ snd (serve requestCounts requests) clientId
       = Some {| count := count data + passed;
                 resetTime := resetTime data |}.
Proof.
  induction requests as [|[req now] rest IH];
    intros requestCounts data Hentry Hmax Hwithin; cbn zeta.
  - cbn [serve passedOf requestsOf fst snd]. split; [lia|].
    rewrite Hentry, Z.add_0_r. destruct data; reflexivity.
  - rewrite serve_cons. cbn [fst snd passedOf requestsOf].
    inversion Hwithin as [|? ? Hhead Hrest]; subst.
    cbn [fst snd] in Hhead.
    pose proof (requestsOf_nonneg clientId rest) as Hnonneg.
    destruct (clientId_eqb_spec clientId (clientId_of req)) as [Heq|Hne].
    + specialize (Hhead eq_refl). unfold rateLimit.
      rewrite <- Heq, Hentry.
      destruct (Z.ltb_spec (resetTime data) now) as [Hexpired|_]; [lia|].
      destruct (Z.leb_spec MAX_REQUESTS_PER_WINDOW (count data))
        as [Hfull|Hroom]; cbn [fst snd outcome_eqb andb].
      * destruct (IH requestCounts data Hentry Hmax Hrest) as [Hpassed Hfinal].
        cbn zeta in Hpassed, Hfinal. rewrite Hfinal, Hpassed.
        split; [lia | reflexivity].
      * destruct (IH (set requestCounts clientId
                        {| count := count data + 1;
                           resetTime := resetTime data |})
                    {| count := count data + 1;
                       resetTime := resetTime data |}
                    (set_same _ _ _)) as [Hpassed Hfinal];
          [cbn [count]; lia | exact Hrest |].
        cbn zeta in Hpassed, Hfinal. cbn [count resetTime] in Hpassed, Hfinal.
        rewrite Hfinal, Hpassed. split; [lia|]. f_equal. f_equal. lia.
    + cbn [andb].
      assert (Hframe : snd (rateLimit requestCounts req now) clientId
                       = Some data).
      { unfold rateLimit.
        destruct (requestCounts (clientId_of req)) as [other|];
          [destruct (resetTime other <? now);
           [|destruct (MAX_REQUESTS_PER_WINDOW <=? count other)]|];
          cbn [snd]; try exact Hentry;
          rewrite set_other by exact Hne; exact Hentry. }
      destruct (IH _ data Hframe Hmax Hrest) as [Hpassed Hfinal].
      cbn zeta in Hpassed, Hfinal. rewrite Hfinal, Hpassed.
      split; reflexivity.
Qed.

(** X17: a client that is not yet in the map and whose requests all arrive
    within 60000 ms of its first one gets exactly the first 100 of them
    passed on, however the requests of other clients are interleaved: of
    [n] requests, [min n 100] are served. *)
Theorem X17_at_most_100_per_window (requestCounts : RequestCounts)
    (first : Request) (start : Z) (rest : list (Request * Z)) :
  requestCounts (clientId_of first) = None ->
  within (clientId_of first) (start + RATE_LIMIT_WINDOW) rest ->
  let requests := (first, start) :: rest in
  passedOf (clientId_of first) requests (fst (serve requestCounts requests))
  = Z.min (requestsOf (clientId_of first) requests)
      MAX_REQUESTS_PER_WINDOW.
Proof.
  intros Hnew Hwithin requests. subst requests.
  rewrite serve_cons. cbn [fst snd passedOf requestsOf].
  destruct (clientId_eqb_spec (clientId_of first) (clientId_of first))
    as [_|Hne]; [|contradiction].
  unfold rateLimit. rewrite Hnew. cbn [fst snd outcome_eqb andb].
  destruct (serve_within_window (clientId_of first) rest
              (set requestCounts (clientId_of first)
                 {| count := 1; resetTime := start + RATE_LIMIT_WINDOW |})
              {| count := 1; resetTime := start + RATE_LIMIT_WINDOW |}
              (set_same _ _ _)) as [Hpassed _];
    [cbn; unfold MAX_REQUESTS_PER_WINDOW; lia | exact Hwithin |].
  cbn zeta in Hpassed. cbn [count] in Hpassed. rewrite Hpassed. lia.
Qed.

Lemma X17_witness :
  let a := {| ip := Some "10.0.0.1"%string; remoteAddress := None |} in
  let b := {| ip := None; remoteAddress := Some "10.0.0.2"%string |} in
  let requests := [(a, 0); (b, 10); (a, 20); (a, 60000)] in
  passedOf (clientId_of a) requests (fst (serve empty requests))
  = Z.min (requestsOf (clientId_of a) requests) MAX_REQUESTS_PER_WINDOW.
Proof.
  intros a b requests.
  apply (X17_at_most_100_per_window empty a 0
           [(b, 10); (a, 20); (a, 60000)] eq_refl).
  repeat constructor; cbn; intros; try discriminate;
    unfold RATE_LIMIT_WINDOW; lia.
Defined.

(** X18: a client that has used up its window is refused up to and
    including the instant [resetTime], and served again by the first request
    after it, which opens a new window of 60000 ms with a count of 1; a
    refused request does not move [resetTime]. *)
Theorem X18_window_expiry (requestCounts : RequestCounts) (req : Request)
    (now : Z) (data : ClientData) :
  requestCounts (clientId_of req) = Some data ->
  MAX_REQUESTS_PER_WINDOW <= count data ->
  let outcome := fst (rateLimit requestCounts req now) in
  let requestCounts' := snd (rateLimit requestCounts req now) in
  (now <= resetTime data ->
   outcome = TooManyRequests
   /\ requestCounts' (clientId_of req) = Some data)
  /\ (resetTime data < now ->
      outcome = Next
      /\ requestCounts' (clientId_of req)
         = Some {| count := 1; resetTime := now + RATE_LIMIT_WINDOW |}).
Proof.
  intros Hentry Hfull outcome requestCounts'.
  subst outcome requestCounts'. unfold rateLimit. rewrite Hentry.
  destruct (Z.ltb_spec (resetTime data) now) as [Hexpired|Hwindow].
  - split; [intro; lia|]. intros _. cbn [fst snd].
    split; [reflexivity | apply set_same].
  - split; [|intro; lia]. intros _.
    destruct (Z.leb_spec MAX_REQUESTS_PER_WINDOW (count data)); [|lia].
    cbn [fst snd]. split; [reflexivity | exact Hentry].
Qed.

Lemma X18_witness :
  let req := {| ip := Some "10.0.0.1"%string; remoteAddress := None |} in
  let full :=
    set empty (clientId_of req) {| count := 100; resetTime := 60000 |} in
  fst (rateLimit full req 60000) = TooManyRequests
  /\ fst (rateLimit full req 60001) = Next.
Proof.
  intros req full. split.
  - refine (proj1 (proj1
      (X18_window_expiry full req 60000
         {| count := 100; resetTime := 60000 |} eq_refl _) _));
      cbn; unfold MAX_REQUESTS_PER_WINDOW; lia.
  - refine (proj1 (proj2
      (X18_window_expiry full req 60001
         {| count := 100; resetTime := 60000 |} eq_refl _) _));
      cbn; unfold MAX_REQUESTS_PER_WINDOW; lia.
Defined.

End RateLimitFacts.

(** ** Properties of the room registry *)

Module RoomsFacts.

Import Rooms.

Lemma setRoom_same rooms room sockets : setRoom rooms room sockets room = sockets.
Proof. unfold setRoom. now rewrite String.eqb_refl. Qed.

Lemma setRoom_other rooms room other sockets :
  other <> room -> setRoom rooms room sockets other = rooms other.
Proof.
  intro Hne. unfold setRoom.
  destruct (String.eqb_spec room other); [congruence | reflexivity].
Qed.

Lemma setSocket_same sockets ws room : setSocket sockets ws room ws = room.
Proof. unfold setSocket. now rewrite Nat.eqb_refl. Qed.

Lemma setSocket_other sockets ws other room :
  other <> ws -> setSocket sockets ws room other = sockets other.
Proof.
  intro Hne. unfold setSocket.
  destruct (Nat.eqb_spec ws other); [congruence | reflexivity].
Qed.

Lemma in_delete (ws other : Ws) (sockets : list Ws) :
  In other (delete ws sockets) <-> In other sockets /\ other <> ws.
Proof.
  unfold delete. rewrite filter_In. split.
  - intros [Hin Hne]. split; [exact Hin|].
    apply negb_true_iff, Nat.eqb_neq in Hne. congruence.
  - intros [Hin Hne]. split; [exact Hin|].
    apply negb_true_iff, Nat.eqb_neq. congruence.
Qed.

Lemma in_add (ws other : Ws) (sockets : list Ws) :
  In other (add ws sockets) <-> other = ws \/ In other sockets.
Proof.
  unfold add. destruct (existsb (Nat.eqb ws) sockets) eqn:Hmem.
  - apply existsb_exists in Hmem. destruct Hmem as (x & Hx & Heq).
    apply Nat.eqb_eq in Heq. subst x. split; [now right|].
    intros [->|H]; assumption.
  - rewrite in_app_iff. cbn [In]. split.
    + intros [H|[H|[]]]; [now right | left; congruence].
    + intros [->|H]; [right; now left | now left].
Qed.

Lemma add_NoDup (ws : Ws) (sockets : list Ws) :
  NoDup sockets -> NoDup (add ws sockets).
Proof.
  intro Hnodup. unfold add.
  destruct (existsb (Nat.eqb ws) sockets) eqn:Hmem; [exact Hnodup|].
  apply NoDup_app; [exact Hnodup | repeat constructor; intros [] |].
  intros x Hx [Heq|[]].
  assert (Hex : existsb (Nat.eqb ws) sockets = true)
    by (apply existsb_exists; exists x; split;
        [exact Hx | now apply Nat.eqb_eq]).
  congruence.
Qed.

Lemma add_nonempty (ws : Ws) (sockets : list Ws) : add ws sockets <> [].
Proof.
  intro Hempty.
  assert (Hin : In ws (add ws sockets)) by (apply in_add; now left).
  rewrite Hempty in Hin. exact Hin.
Qed.

Section Steps.

Variable getRoomById : string -> option bool.
Variable isOpen : Ws -> bool.

Lemma leaveRoom_consistent (reg : Registry) (ws : Ws) (room : string) :
  consistent reg -> consistent (fst (leaveRoom reg ws room)).
Proof.
  intros [Hmember Hsets]. unfold leaveRoom. cbn [fst]. split.
  - cbn [connectionRooms roomConnections]. intros ws' r Hroom.
    unfold setSocket in Hroom.
    destruct (Nat.eqb_spec ws ws') as [|Hne]; [discriminate|].
    destruct (Hmember ws' r Hroom) as (sockets & Hsockets & Hin).
    destruct (roomConnections reg room) as [listed|] eqn:Hlisted;
      [|now exists sockets].
    destruct (String.eqb_spec room r) as [->|Hother].
    + assert (sockets = listed) by congruence. subst listed.
      assert (Hstill : In ws' (delete ws sockets))
        by (apply in_delete; split; [exact Hin | congruence]).
      destruct (Nat.eqb_spec (List.length (delete ws sockets)) 0)
        as [Hzero|_].
      * apply length_zero_iff_nil in Hzero. rewrite Hzero in Hstill.
        contradiction.
      * exists (delete ws sockets). now rewrite setRoom_same.
    + exists sockets.
      destruct (List.length (delete ws listed) =? 0)%nat;
        rewrite setRoom_other by congruence; now split.
  - cbn [roomConnections]. intros r sockets.
    destruct (roomConnections reg room) as [listed|] eqn:Hlisted;
      [|apply Hsets].
    destruct (String.eqb_spec room r) as [->|Hother].
    + destruct (Nat.eqb_spec (List.length (delete ws listed)) 0)
        as [Hzero|Hnonzero]; rewrite setRoom_same; [discriminate|].
      intros [= <-]. split.
      * intro Hempty. rewrite Hempty in Hnonzero. now apply Hnonzero.
      * apply NoDup_filter. now apply (Hsets r listed).
    + destruct (List.length (delete ws listed) =? 0)%nat;
        rewrite setRoom_other by congruence; apply Hsets.
Qed.

Lemma joinRoom_consistent (reg : Registry) (ws : Ws) (room : string)
    (payload : option Payload) :
  consistent reg ->
  consistent (fst (joinRoom getRoomById isOpen reg ws room payload)).
Proof.
  intro Hreg. unfold joinRoom.
  destruct (getRoomById room) as [[|]|]; [|exact Hreg|exact Hreg].
  assert (Hleft : consistent
                    (fst match connectionRooms reg ws with
                         | Some currentRoomId =>
                             if truthy (Some currentRoomId)
                             then leaveRoom reg ws currentRoomId
                             else (reg, [])
                         | None => (reg, [])
                         end)).
  { destruct (connectionRooms reg ws) as [current|]; [|exact Hreg].
    destruct (truthy (Some current)); [|exact Hreg].
    now apply leaveRoom_consistent. }
  destruct (match connectionRooms reg ws with
            | Some currentRoomId => _
            | None => _
            end) as [left farewell].
  cbn [fst] in *. destruct Hleft as [Hmember Hsets]. split.
  - cbn [connectionRooms roomConnections]. intros ws' r Hroom.
    unfold setSocket in Hroom.
    destruct (Nat.eqb_spec ws ws') as [<-|Hne].
    + injection Hroom as <-. eexists. rewrite setRoom_same.
      split; [reflexivity|]. apply in_add. now left.
    + destruct (Hmember ws' r Hroom) as (sockets & Hsockets & Hin).
      destruct (String.eqb_spec room r) as [->|Hother].
      * eexists. rewrite setRoom_same. split; [reflexivity|].
        rewrite Hsockets. apply in_add. now right.
      * exists sockets. rewrite setRoom_other by congruence. now split.
  - cbn [roomConnections]. intros r sockets.
    destruct (String.eqb_spec room r) as [->|Hother].
    + rewrite setRoom_same. intros [= <-].
      split; [apply add_nonempty|]. apply add_NoDup.
      destruct (roomConnections left r) as [listed|] eqn:Hlisted;
        [now apply (Hsets r listed) | constructor].
    + rewrite setRoom_other by congruence. apply Hsets.
Qed.

Lemma handle_consistent (reg : Registry) (ws : Ws) (data : ClientMessage) :
  consistent reg ->
  consistent (fst (handleWebSocketMessage getRoomById isOpen reg ws data)).
Proof.
  intro Hreg. unfold handleWebSocketMessage.
  destruct (type data) as [kind|]; [|exact Hreg].
  destruct (String.eqb kind "join_room").
  { destruct (roomId data) as [room|]; [|exact Hreg].
    destruct (truthy (Some room)); [|exact Hreg].
    now apply joinRoom_consistent. }
  destruct (String.eqb kind "leave_room").
  { destruct (roomId data) as [room|]; [|exact Hreg].
    destruct (truthy (Some room)); [|exact Hreg].
    now apply leaveRoom_consistent. }
  destruct (String.eqb kind "ping"); exact Hreg.
Qed.

Lemma onClose_consistent (reg : Registry) (ws : Ws) :
  consistent reg -> consistent (fst (onClose reg ws)).
Proof.
  intro Hreg. unfold onClose.
  destruct (connectionRooms reg ws) as [room|]; [|exact Hreg].
  destruct (truthy (Some room)); [|exact Hreg].
  now apply leaveRoom_consistent.
Qed.

End Steps.

Lemma empty_consistent : consistent empty.
Proof.
  split.
  - intros ws room H. discriminate H.
  - intros room sockets H. discriminate H.
Qed.

(** X19: whatever messages arrive and whatever sockets close, in any order
    and whatever the database answers, the registry stays consistent: the
    room recorded for a socket lists that socket, and every listed room has
    at least one socket and lists no socket twice. *)
Theorem X19_registry_stays_consistent
    (getRoomById : string -> option bool) (isOpen : Ws -> bool)
    (events : list Event) (reg : Registry) :
  consistent reg ->
  consistent (fst (run getRoomById isOpen reg events)).
Proof.
  revert reg. induction events as [|event events IH]; intros reg Hreg.
  - exact Hreg.
  - cbn [run].
    assert (Hstep : consistent
                      (fst match event with
                           | Message ws data =>
                               handleWebSocketMessage getRoomById isOpen reg
                                 ws data
                           | Close ws => onClose reg ws
                           end)).
    { destruct event as [ws data|ws];
        [now apply handle_consistent | now apply onClose_consistent]. }
    destruct (match event with
              | Message ws data => _
              | Close ws => _
              end) as [reg' sent].
    cbn [fst] in Hstep. specialize (IH reg' Hstep).
    destruct (run getRoomById isOpen reg' events) as [final sent'].
    exact IH.
Qed.

Lemma X19_witness :
  consistent
    (fst (run (fun _ => Some true) (fun _ => true) empty
            [Message 1%nat
               {| type := Some "join_room"%string;
                  roomId := Some "den"%string;
                  payload := None |};
             Message 2%nat
               {| type := Some "join_room"%string;
                  roomId := Some "den"%string;
                  payload := Some {| userName := Some "Ada"%string |} |};
             Close 1%nat])).
Proof.
  exact (X19_registry_stays_consistent (fun _ => Some true) (fun _ => true)
           _ empty empty_consistent).
Defined.

Lemma leaveRoom_keeps_others (reg : Registry) (ws : Ws) (left : string)
    (other : Ws) (room : string) (sockets : list Ws) :
  roomConnections reg room = Some sockets -> In other sockets -> other <> ws ->
  exists sockets' : list Ws,
    roomConnections (fst (leaveRoom reg ws left)) room = Some sockets'
    /\ In other sockets'.
Proof.
  intros Hsockets Hin Hne. unfold leaveRoom. cbn [fst roomConnections].
  destruct (roomConnections reg left) as [listed|] eqn:Hlisted;
    [|now exists sockets].
  destruct (String.eqb_spec left room) as [->|Hother].
  - assert (sockets = listed) by congruence. subst listed.
    assert (Hstill : In other (delete ws sockets))
      by (apply in_delete; now split).
    destruct (Nat.eqb_spec (List.length (delete ws sockets)) 0) as [Hzero|_].
    + apply length_zero_iff_nil in Hzero. rewrite Hzero in Hstill.
      contradiction.
    + exists (delete ws sockets). now rewrite setRoom_same.
  - exists sockets.
    destruct (List.length (delete ws listed) =? 0)%nat;
      rewrite setRoom_other by congruence; now split.
Qed.

Lemma leaveRoom_removes (reg : Registry) (ws : Ws) (left : string)
    (sockets : list Ws) :
  roomConnections (fst (leaveRoom reg ws left)) left = Some sockets ->
  ~ In ws sockets.
Proof.
  unfold leaveRoom. cbn [fst roomConnections].
  destruct (roomConnections reg left) as [listed|] eqn:Hlisted.
  - destruct (List.length (delete ws listed) =? 0)%nat;
      rewrite setRoom_same; [discriminate|].
    intros [= <-] Hin. apply in_delete in Hin. now destruct Hin.
  - rewrite Hlisted. discriminate.
Qed.

Lemma truthy_Some (text : string) : text <> ""%string -> truthy (Some text) = true.
Proof.
  intro Hne. unfold truthy.
  destruct (String.eqb_spec text ""); [contradiction | reflexivity].
Qed.

(** X20: joining a room that the database knows registers the socket in that
    room and in no other: the socket is recorded and listed there, it is no
    longer listed in the room it was recorded in before, the records of the
    other sockets are untouched, the socket is told [joined_room], and when
    the payload carries a user name every other open socket that was listed
    in the room is told [user_joined], the joining socket is not. *)
Theorem X20_joinRoom_moves_the_socket
    (getRoomById : string -> option bool) (isOpen : Ws -> bool)
    (reg : Registry) (ws : Ws) (room : string) (given : Payload) :
  getRoomById room = Some true ->
  let result := joinRoom getRoomById isOpen reg ws room (Some given) in
  connectionRooms (fst result) ws = Some room
  /\ (exists sockets : list Ws,
         roomConnections (fst result) room = Some sockets /\ In ws sockets)
  /\ (forall (previous : string) (sockets : list Ws),
         connectionRooms reg ws = Some previous ->
         previous <> ""%string -> previous <> room ->
         roomConnections (fst result) previous = Some sockets ->
         ~ In ws sockets)
  /\ (forall other : Ws,
         other <> ws ->
         connectionRooms (fst result) other = connectionRooms reg other)
  /\ In (ws, JoinedRoom room given) (snd result)
  /\ (forall (name : string) (other : Ws) (sockets : list Ws),
         userName given = Some name -> name <> ""%string ->
         roomConnections reg room = Some sockets -> In other sockets ->
         other <> ws -> isOpen other = true ->
         In (other, UserJoined room name) (snd result))
  /\ (forall name : string, ~ In (ws, UserJoined room name) (snd result)).
Proof.
  intros Hfound result. subst result. unfold joinRoom. rewrite Hfound.
  assert (Hothers :
            forall other : Ws,
              other <> ws ->
              connectionRooms
                (fst match connectionRooms reg ws with
                     | Some currentRoomId =>
                         if truthy (Some currentRoomId)
                         then leaveRoom reg ws currentRoomId
                         else (reg, [])
                     | None => (reg, [])
                     end) other = connectionRooms reg other).
  { intros other Hne.
    destruct (connectionRooms reg ws) as [current|]; [|reflexivity].
    destruct (truthy (Some current)); [|reflexivity].
    unfold leaveRoom. cbn [fst connectionRooms].
    now apply setSocket_other. }
  assert (Hgone :
            forall (previous : string) (sockets : list Ws),
              connectionRooms reg ws = Some previous ->
              previous <> ""%string ->
              roomConnections
                (fst match connectionRooms reg ws with
                     | Some currentRoomId =>
                         if truthy (Some currentRoomId)
                         then leaveRoom reg ws currentRoomId
                         else (reg, [])
                     | None => (reg, [])
                     end) previous = Some sockets ->
              ~ In ws sockets).
  { intros previous sockets Hprevious Hne. rewrite Hprevious.
    rewrite (truthy_Some previous Hne). apply leaveRoom_removes. }
  assert (Hkept :
            forall (other : Ws) (sockets : list Ws),
              roomConnections reg room = Some sockets -> In other sockets ->
              other <> ws ->
              exists sockets' : list Ws,
                roomConnections
                  (fst match connectionRooms reg ws with
                       | Some currentRoomId =>
                           if truthy (Some currentRoomId)
                           then leaveRoom reg ws currentRoomId
                           else (reg, [])
                       | None => (reg, [])
                       end) room = Some sockets'
                /\ In other sockets').
  { intros other sockets Hsockets Hin Hne.
    destruct (connectionRooms reg ws) as [current|]; [|now exists sockets].
    destruct (truthy (Some current)); [|now exists sockets].
    now apply leaveRoom_keeps_others with (sockets := sockets). }
  assert (Hfarewell :
            forall (other : Ws) (message : ServerMessage),
              In (other, message)
                (snd match connectionRooms reg ws with
                     | Some currentRoomId =>
                         if truthy (Some currentRoomId)
                         then leaveRoom reg ws currentRoomId
                         else (reg, [])
                     | None => (reg, [])
                     end) ->
              exists left : string, message = LeftRoom left).
  { intros other message.
    destruct (connectionRooms reg ws) as [current|]; [|intros []].
    destruct (truthy (Some current)); [|intros []].
    unfold leaveRoom. cbn [snd In]. intros [[= _ <-]|[]]. now exists current. }
  destruct (match connectionRooms reg ws with
            | Some currentRoomId => _
            | None => _
            end) as [left farewell].
  cbn [fst snd] in *.
  cbn [connectionRooms roomConnections].
  split; [apply setSocket_same|].
  split.
  { eexists. rewrite setRoom_same. split; [reflexivity|].
    apply in_add. now left. }
  split.
  { intros previous sockets Hprevious Hne Hother.
    rewrite setRoom_other by exact Hother.
    now apply Hgone. }
  split.
  { intros other Hne. rewrite setSocket_other by exact Hne.
    now apply Hothers. }
  split.
  { apply in_or_app. right. now left. }
  split.
  { intros name other sockets Hname Hne Hsockets Hin Hother Hopen.
    apply in_or_app. right. right. rewrite Hname, (truthy_Some name Hne).
    unfold broadcastToRoom. cbn [roomConnections]. rewrite setRoom_same.
    apply in_map_iff. exists other. split; [reflexivity|].
    apply filter_In. split.
    - apply in_add. right.
      destruct (Hkept other sockets Hsockets Hin Hother)
        as (sockets' & -> & Hin').
      exact Hin'.
    - rewrite Hopen, andb_true_r. apply negb_true_iff.
      now apply Nat.eqb_neq. }
  intros name Hin.
  apply in_app_or in Hin. destruct Hin as [Hin|[Hin|Hin]].
  - destruct (Hfarewell ws _ Hin) as (left' & Hleft). discriminate Hleft.
  - discriminate Hin.
  - destruct (userName given) as [told|]; [|exact Hin].
    destruct (truthy (Some told)); [|exact Hin].
    unfold broadcastToRoom in Hin. cbn [roomConnections] in Hin.
    rewrite setRoom_same in Hin.
    apply in_map_iff in Hin. destruct Hin as (client & [= -> _] & Hclient).
    apply filter_In in Hclient. destruct Hclient as [_ Hclient].
    rewrite Nat.eqb_refl in Hclient. discriminate Hclient.
Qed.

Lemma X20_witness :
  let reg :=
    fst (run (fun _ => Some true) (fun _ => true) empty
           [Message 1%nat
              {| type := Some "join_room"%string;
                 roomId := Some "den"%string;
                 payload := None |};
            Message 2%nat
              {| type := Some "join_room"%string;
                 roomId := Some "hall"%string;
                 payload := None |}]) in
  let result :=
    joinRoom (fun _ => Some true) (fun _ => true) reg 2%nat "den"%string
      (Some {| userName := Some "Ada"%string |}) in
  connectionRooms (fst result) 2%nat = Some "den"%string
  /\ In (1%nat, UserJoined "den" "Ada") (snd result).
Proof.
  intros reg result.
  pose proof (X20_joinRoom_moves_the_socket (fun _ => Some true)
                (fun _ => true) reg 2%nat "den"%string
                {| userName := Some "Ada"%string |} eq_refl)
    as (Hrecorded & _ & _ & _ & _ & Htold & _).
  split; [exact Hrecorded|].
  apply (Htold "Ada"%string 1%nat [1%nat]).
  - reflexivity.
  - intro Hbad. discriminate Hbad.
  - reflexivity.
  - now left.
  - intro Hbad. discriminate Hbad.
  - reflexivity.
Defined.

(** X21: a [leave_room] message that names a room other than the one the
    socket is recorded in forgets the socket's record but leaves the socket
    listed in its room: the room's set is unchanged, a later [close] of the
    socket finds no record, changes nothing and sends nothing, and a
    broadcast to the room still reaches the socket while it is open. *)
Theorem X21_leaving_another_room_keeps_the_subscription
    (getRoomById : string -> option bool) (isOpen : Ws -> bool)
    (reg : Registry) (ws : Ws) (current other : string)
    (sockets : list Ws) :
  connectionRooms reg ws = Some current ->
  roomConnections reg current = Some sockets ->
  In ws sockets ->
  other <> current ->
  other <> ""%string ->
  let result :=
    handleWebSocketMessage getRoomById isOpen reg ws
      {| type := Some "leave_room"%string;
         roomId := Some other;
         payload := None |} in
  snd result = [(ws, LeftRoom other)]
  /\ connectionRooms (fst result) ws = None
  /\ roomConnections (fst result) current = Some sockets
  /\ onClose (fst result) ws = (fst result, [])
  /\ (isOpen ws = true ->
      forall message : ServerMessage,
        In (ws, message)
          (broadcastToRoom isOpen (fst result) current message None)).
Proof.
  intros Hrecord Hsockets Hin Hother Hne result. subst result.
  unfold handleWebSocketMessage. cbn [type roomId].
  change (String.eqb "leave_room" "join_room") with false.
  change (String.eqb "leave_room" "leave_room") with true.
  cbn iota. rewrite (truthy_Some other Hne).
  assert (Hrooms : roomConnections (fst (leaveRoom reg ws other)) current
                   = Some sockets).
  { unfold leaveRoom. cbn [fst roomConnections].
    destruct (roomConnections reg other) as [listed|]; [|exact Hsockets].
    destruct (List.length (delete ws listed) =? 0)%nat;
      rewrite setRoom_other by congruence; exact Hsockets. }
  assert (Hgone : connectionRooms (fst (leaveRoom reg ws other)) ws = None).
  { unfold leaveRoom. cbn [fst connectionRooms]. apply setSocket_same. }
  split; [reflexivity|].
  split; [exact Hgone|].
  split; [exact Hrooms|].
  split.
  { unfold onClose. now rewrite Hgone. }
  intros Hopen message. unfold broadcastToRoom. rewrite Hrooms.
  apply in_map_iff. exists ws. split; [reflexivity|].
  apply filter_In. split; [exact Hin|]. now rewrite Hopen.
Qed.

Lemma X21_witness :
  let reg :=
    fst (run (fun _ => Some true) (fun _ => true) empty
           [Message 1%nat
              {| type := Some "join_room"%string;
                 roomId := Some "den"%string;
                 payload := None |}]) in
  let result :=
    handleWebSocketMessage (fun _ => Some true) (fun _ => true) reg 1%nat
      {| type := Some "leave_room"%string;
         roomId := Some "hall"%string;
         payload := None |} in
  connectionRooms (fst result) 1%nat = None
  /\ roomConnections (fst result) "den"%string = Some [1%nat]
  /\ onClose (fst result) 1%nat = (fst result, []).
Proof.
  intros reg result.
  assert (Hother : "hall"%string <> "den"%string)
    by (intro Hbad; discriminate Hbad).
  assert (Hne : "hall"%string <> ""%string)
    by (intro Hbad; discriminate Hbad).
  pose proof (X21_leaving_another_room_keeps_the_subscription
                (fun _ => Some true) (fun _ => true) reg 1%nat
                "den"%string "hall"%string [1%nat]
                eq_refl eq_refl (or_introl eq_refl) Hother Hne)
    as (_ & Hrecord & Hrooms & Hclose & _).
  split; [exact Hrecord|]. split; [exact Hrooms | exact Hclose].
Defined.

End RoomsFacts.
